(** * Federated learning round orchestration (flx_module/funcx_federated.py)

    A shallow embedding of [get_edge_weights], of the two numpy reductions the
    orchestrator calls ([np.mean] and [np.average] along axis 0) and of
    [federated_learning] itself, followed by the properties of the
    specification that concern them.

    Modelling conventions.
    - Numbers.  numpy's integer arrays are modelled by [Z] and its floating
      point values by exact rationals extended with the IEEE special values
      [+inf], [-inf] and [nan]: rounding is abstracted, while the outcome of
      a division by zero (no exception, a special value) is kept.  Integer
      sums are exact: they are numpy's as long as they fit [int64], which the
      statements about arbitrary sample counts assume ([fits_int64]).
      Signed zeros are not tracked; a zero divisor is [+0.0], which is what
      the conversion of the integer [0] produces.
    - Tensors.  A parameter tensor is the list of its entries and a parameter
      set a list of tensors.  Operands of different shapes make numpy raise
      [ValueError]; the broadcasting of axes of length one is not modelled.
      The model keeps the shapes of its weight arrays aside: they decide
      whether [np.asarray(..., dtype=object)] accepts them.
    - Effects.  The orchestrator mutates the global model, submits jobs to a
      funcX executor, prints and sleeps.  They are modelled by a state and
      exception monad whose state holds the model, the executor of the
      current round and the chronological trace of observable events.
    - Environment.  What an endpoint answers, the order in which the remote
      tasks complete and what Keras' [evaluate] returns are given by a
      [world]; every statement quantifies over it. *)

From Stdlib Require Import List ZArith QArith Qcanon Bool String Lia Arith.
From Stdlib Require Import Permutation Field.
Import ListNotations.

(** ** Floating point values *)

Module Float.

Inductive npfloat : Type :=
| Fin (q : Qc)
| PInf
| NInf
| NaN.

Definition zero : npfloat := Fin (Q2Qc 0).
Definition one : npfloat := Fin (Q2Qc 1).

(** Conversion of a numpy integer, as [true_divide] does to its operands. *)
Definition of_int (z : Z) : npfloat := Fin (Q2Qc (inject_Z z)).
Definition of_nat (n : nat) : npfloat := of_int (Z.of_nat n).

Definition fadd (x y : npfloat) : npfloat :=
  match x, y with
  | NaN, _ | _, NaN => NaN
  | Fin a, Fin b => Fin (a + b)%Qc
  | PInf, NInf | NInf, PInf => NaN
  | PInf, _ | _, PInf => PInf
  | NInf, _ | _, NInf => NInf
  end.

(** The infinity of the sign of [c], [nan] for [c = 0]. *)
Definition signed_inf (c : comparison) : npfloat :=
  match c with
  | Gt => PInf
  | Lt => NInf
  | Eq => NaN
  end.

Definition fmul (x y : npfloat) : npfloat :=
  match x, y with
  | NaN, _ | _, NaN => NaN
  | Fin a, Fin b => Fin (a * b)%Qc
  | Fin a, PInf | PInf, Fin a => signed_inf (a ?= Q2Qc 0)%Qc
  | Fin a, NInf | NInf, Fin a => signed_inf (CompOpp (a ?= Q2Qc 0)%Qc)
  | PInf, PInf | NInf, NInf => PInf
  | PInf, NInf | NInf, PInf => NInf
  end.

(** IEEE division: a zero divisor gives an infinity or [nan], never an
    exception. *)
Definition fdiv (x y : npfloat) : npfloat :=
  match x, y with
  | NaN, _ | _, NaN => NaN
  | Fin a, Fin b =>
      if Qc_eq_bool b (Q2Qc 0) then signed_inf (a ?= Q2Qc 0)%Qc
      else Fin (a / b)%Qc
  | Fin _, (PInf | NInf) => zero
  | PInf, Fin b => match (b ?= Q2Qc 0)%Qc with Lt => NInf | _ => PInf end
  | NInf, Fin b => match (b ?= Q2Qc 0)%Qc with Lt => PInf | _ => NInf end
  | (PInf | NInf), (PInf | NInf) => NaN
  end.

(** The comparison [x == 0.0]. *)
Definition is_zero (x : npfloat) : bool :=
  match x with
  | Fin a => Qc_eq_bool a (Q2Qc 0)
  | _ => false
  end.

(** [x >= 0.0], false on [nan]. *)
Definition is_nonneg (x : npfloat) : bool :=
  match x with
  | Fin a => match (a ?= Q2Qc 0)%Qc with Lt => false | _ => true end
  | PInf => true
  | NInf | NaN => false
  end.

(** The sum of a float array. *)
Definition fsum (l : list npfloat) : npfloat := fold_left fadd l zero.

End Float.
Import Float.

(** ** Results and exceptions *)

(** The exceptions that can come out of the function: the [Exception] of
    line 220, those of numpy, Keras and [time.sleep], and whatever an
    endpoint raised.  [UnknownFuture] is not a Python exception: it stands
    for waiting on a future that was never submitted, which never returns
    and which [federated_learning] never does. *)
Inductive exn : Type :=
| Exception (msg : string)
| ValueError (msg : string)
| TypeError (msg : string)
| ZeroDivisionError (msg : string)
| RemoteError (msg : string)
| UnknownFuture.

Inductive res (A : Type) : Type :=
| Ok (a : A)
| Raise (e : exn).
Arguments Ok {A} a.
Arguments Raise {A} e.

Definition is_ok {A} (r : res A) : bool :=
  match r with
  | Ok _ => true
  | Raise _ => false
  end.

(** ** get_edge_weights *)

(** Python's [sum] over an integer array, as long as it fits numpy's
    [int64]: the additions are exact here, while those of [int64] scalars
    wrap around ([int64_sum] below).  The two agree on the arrays whose sum
    is in range; the statements about arbitrary counts are about these. *)
Definition py_sum (l : list Z) : Z := fold_left Z.add l 0%Z.

(** The range of numpy's [int64] and its wrap-around. *)
Definition int64 (z : Z) : Prop := (- 2 ^ 63 <= z < 2 ^ 63)%Z.

Definition wrap_int64 (z : Z) : Z := ((z + 2 ^ 63) mod 2 ^ 64 - 2 ^ 63)%Z.

(** What [sum] returns on an [int64] array in general: the scalars are added
    from the left, each addition wrapping around. *)
Definition int64_sum (l : list Z) : Z :=
  fold_left (fun acc c => wrap_int64 (acc + c)) l 0%Z.

(** An [int64] array whose sum does not wrap around. *)
Definition fits_int64 (l : list Z) : Prop := Forall int64 l /\ int64 (py_sum l).

(** [total = sum(sample_counts); fractions = sample_counts/total].  The
    function validates nothing and raises nothing: the division is numpy's
    [true_divide]. *)
Definition get_edge_weights (sample_counts : list Z) : res (list npfloat) :=
  let total := py_sum sample_counts in
  let fractions := map (fun c => fdiv (of_int c) (of_int total)) sample_counts in
  Ok fractions.

(** ** Parameter sets and the numpy reductions *)

Definition tensor : Type := list npfloat.
Definition params : Type := list tensor.

(** What a reduction returns: an array of tensors, or a bare scalar (the mean
    of an empty list). *)
Inductive ndarray : Type :=
| Scalar (x : npfloat)
| Tensors (p : params).

Fixpoint map2 {A B C} (f : A -> B -> C) (l : list A) (m : list B) : list C :=
  match l, m with
  | a :: l', b :: m' => f a b :: map2 f l' m'
  | _, _ => []
  end.

Definition shape (p : params) : list nat := map (@List.length npfloat) p.

Fixpoint shape_eqb (s t : list nat) : bool :=
  match s, t with
  | [], [] => true
  | a :: s', b :: t' => Nat.eqb a b && shape_eqb s' t'
  | _, _ => false
  end.

Definition same_shape (p q : params) : bool := shape_eqb (shape p) (shape q).

(** Entry [k] of tensor [j]. *)
Definition entry (p : params) (j k : nat) : npfloat := nth k (nth j p []) NaN.

(** Elementwise sum of two parameter sets of one shape. *)
Definition params_add (p q : params) : res params :=
  if same_shape p q then Ok (map2 (map2 fadd) p q)
  else Raise (ValueError "operands could not be broadcast together").

(** [a * w] and [a / d] for a scalar [w] or [d]. *)
Definition params_scale (p : params) (w : npfloat) : params :=
  map (map (fun v => fmul v w)) p.
Definition params_div (p : params) (d : npfloat) : params :=
  map (map (fun v => fdiv v d)) p.

(** [add.reduce] along axis 0: the parameter sets are added left to right,
    starting from the first one. *)
Fixpoint add_reduce (acc : params) (l : list params) : res params :=
  match l with
  | [] => Ok acc
  | x :: xs =>
      match params_add acc x with
      | Ok acc' => add_reduce acc' xs
      | Raise e => Raise e
      end
  end.

(** [np.mean(a, axis=0)]: the sum along axis 0 divided by the number of rows;
    the mean of no row at all is the scalar [nan] (with a warning). *)
Definition np_mean (a : list params) : res ndarray :=
  match a with
  | [] => Ok (Scalar NaN)
  | x :: xs =>
      match add_reduce x xs with
      | Ok s => Ok (Tensors (params_div s (of_nat (List.length a))))
      | Raise e => Raise e
      end
  end.

(** [np.average(a, weights=weights, axis=0)]:
    [scl = weights.sum(); if scl == 0.0: raise ZeroDivisionError;
     avg = np.multiply(a, weights).sum(axis=0) / scl]. *)
Definition np_average (a : list params) (weights : list npfloat) : res ndarray :=
  if negb (List.length weights =? List.length a) then
    Raise (ValueError "Length of weights not compatible with specified axis.")
  else
    let scl := fsum weights in
    if is_zero scl then
      Raise (ZeroDivisionError "Weights sum to zero, can't be normalized")
    else
      match map2 params_scale a weights with
      | [] => Ok (Scalar (fdiv zero scl))
      | x :: xs =>
          match add_reduce x xs with
          | Ok s => Ok (Tensors (params_div s scl))
          | Raise e => Raise e
          end
      end.

(** ** The objects the orchestrator works with *)

Definition dataset : Type := list tensor.

(** What [training_function] returns on an endpoint. *)
Record train_result : Type := {
  model_weights : params;
  samples_count : Z
}.

(** The keyword arguments of one [fx.submit(training_function, ...)]. *)
Record job : Type := {
  json_model_config : string;
  global_model_weights : params;
  job_num_samples : Z;
  job_epochs : Z;
  endpoint_id : string
}.

(** The Keras model: its architecture ([to_json]) and its weights, of which
    [get_weights] returns one array per tensor: [weight_shapes] are the
    shapes of these arrays and [weights] their entries. *)
Record gmodel : Type := {
  architecture : string;
  weight_shapes : list (list nat);
  weights : params
}.

(** ** Arrays of objects *)

(** The leading axes on which two shapes agree. *)
Fixpoint common_prefix (s t : list nat) : list nat :=
  match s, t with
  | a :: s', b :: t' => if (a =? b)%nat then a :: common_prefix s' t' else []
  | _, _ => []
  end.

(** numpy's shape discovery on a list of arrays: besides the axis of the
    list itself, the result keeps the leading axes on which all the arrays
    agree. *)
Definition common_axes (shapes : list (list nat)) : list nat :=
  match shapes with
  | [] => []
  | s :: l => fold_left common_prefix l s
  end.

(** Copying an array of shape [src] into a slot of shape [dst]: while [src]
    has more axes than [dst] its leading axes of length one are dropped;
    then the axes must be as many, each of the length of the slot's or of
    length one. *)
Fixpoint strip_unit_axes (extra : nat) (src : list nat) : list nat :=
  match extra, src with
  | S n, 1%nat :: src' => strip_unit_axes n src'
  | _, _ => src
  end.

Fixpoint axes_broadcast (src dst : list nat) : bool :=
  match src, dst with
  | [], [] => true
  | a :: src', b :: dst' =>
      ((a =? b)%nat || (a =? 1)%nat) && axes_broadcast src' dst'
  | _, _ => false
  end.

Definition copies_into (src dst : list nat) : bool :=
  axes_broadcast (strip_unit_axes (List.length src - List.length dst) src) dst.

(** Whether arrays of the shapes [shapes] go into one array of objects.  If
    the arrays agree on no leading axis the result is the vector of the
    arrays themselves.  Otherwise it has a slot, of the shape of the common
    axes, for each array, and every array is copied into its slot: this
    fails for an array that has more axes, as a kernel of shape (2, 2) next
    to a bias of shape (2,). *)
Definition object_array_packs (shapes : list (list nat)) : bool :=
  match common_axes shapes with
  | [] => true
  | slot => forallb (fun s => copies_into s slot) shapes
  end.

Definition could_not_broadcast : string := "could not broadcast input array".

(** [np.asarray(arrays, dtype=object)], for arrays of the shapes [shapes] and
    of the entries [p]. *)
Definition np_asarray_object (shapes : list (list nat)) (p : params)
  : res params :=
  if object_array_packs shapes then Ok p
  else Raise (ValueError could_not_broadcast).

(** Observable events, in the order they happen. *)
Inductive event : Type :=
| Submit (j : job)
| SetWeights (w : params)
| PrintEpoch (i : nat)
| Evaluate (w : params) (x y : dataset)
| PrintScore (label : string) (v : npfloat)
| Sleep (t : Z).

(** ** The funcX executor *)

(** A submitted task and what its endpoint eventually answers. *)
Record task : Type := {
  task_id : nat;
  task_outcome : res train_result
}.

(** Tasks still running remotely, and tasks whose future is resolved. *)
Record executor : Type := {
  running : list task;
  finished : list task
}.

Definition new_executor : executor := {| running := []; finished := [] |}.

(** A future is the identifier of its task. *)
Definition future : Type := nat.

Fixpoint find_task (id : nat) (l : list task) : option task :=
  match l with
  | [] => None
  | t :: l' => if task_id t =? id then Some t else find_task id l'
  end.

(** Take the first task with identifier [id] out of a list. *)
Fixpoint extract (id : nat) (l : list task) : option (task * list task) :=
  match l with
  | [] => None
  | t :: l' =>
      if task_id t =? id then Some (t, l')
      else match extract id l' with
           | Some (u, r) => Some (u, t :: r)
           | None => None
           end
  end.

(** ** The environment *)

Record world : Type := {
  (** the answer of the endpoint to task [id] of round [i] *)
  remote : nat -> nat -> job -> res train_result;
  (** which of the running tasks completes next *)
  sched : list nat -> nat;
  (** [m.evaluate(x, y, verbose=0)]: loss and accuracy *)
  keras_evaluate : gmodel -> dataset -> dataset -> res (npfloat * npfloat)
}.

(** One remote completion: the task the scheduler chooses (the oldest one if
    the choice is not a running task) becomes resolved. *)
Definition complete_next (w : world) (ex : executor) : executor :=
  match running ex with
  | [] => ex
  | t :: l' =>
      match extract (sched w (map task_id (running ex))) (running ex) with
      | Some (u, r) => {| running := r; finished := finished ex ++ [u] |}
      | None => {| running := l'; finished := finished ex ++ [t] |}
      end
  end.

(** Block until the future [id] is resolved.  [fuel] bounds the number of
    completions waited for; the number of running tasks is enough. *)
Fixpoint wait (w : world) (fuel : nat) (ex : executor) (id : future)
  : executor * option (res train_result) :=
  match find_task id (finished ex) with
  | Some t => (ex, Some (task_outcome t))
  | None =>
      match fuel with
      | O => (ex, None)
      | S fuel' => wait w fuel' (complete_next w ex) id
      end
  end.

(** ** The state and exception monad *)

Record state : Type := {
  global_model : gmodel;
  fx : executor;
  trace : list event
}.

Definition M (A : Type) : Type := state -> res A * state.

Definition ret {A} (a : A) : M A := fun s => (Ok a, s).
Definition raise {A} (e : exn) : M A := fun s => (Raise e, s).
Definition bind {A B} (c : M A) (k : A -> M B) : M B :=
  fun s =>
    match c s with
    | (Ok a, s') => k a s'
    | (Raise e, s') => (Raise e, s')
    end.
Definition lift {A} (r : res A) : M A := fun s => (r, s).

Notation "x <- c ;; k" := (bind c (fun x => k))
  (at level 61, c at next level, right associativity).
Notation "c ;;; k" := (bind c (fun _ => k))
  (at level 61, right associativity).

(** A list comprehension [[f(x) for x in l]] and a loop [for x in l: f(x)]. *)
Fixpoint mapM {A B} (f : A -> M B) (l : list A) : M (list B) :=
  match l with
  | [] => ret []
  | x :: l' => y <- f x ;; ys <- mapM f l' ;; ret (y :: ys)
  end.

Fixpoint for_each {A} (l : list A) (f : A -> M unit) : M unit :=
  match l with
  | [] => ret tt
  | x :: l' => f x ;;; for_each l' f
  end.

Definition log (e : event) : M unit :=
  fun s => (Ok tt, {| global_model := global_model s; fx := fx s;
                      trace := trace s ++ [e] |}).

Definition set_fx (ex : executor) : M unit :=
  fun s => (Ok tt, {| global_model := global_model s; fx := ex;
                      trace := trace s |}).

(** [global_model.to_json()] and [global_model.get_weights()]. *)
Definition to_json : M string := fun s => (Ok (architecture (global_model s)), s).
Definition get_weights : M params := fun s => (Ok (weights (global_model s)), s).

(** [np.asarray(gm_weights, dtype=object)] on the arrays [get_weights]
    returned, which have the shapes of the model's weights. *)
Definition asarray_object (gm_weights : params) : M params :=
  fun s => (np_asarray_object (weight_shapes (global_model s)) gm_weights, s).

Definition not_a_weight_list : string := "set_weights: not a list of arrays".
Definition weight_shape_mismatch : string :=
  "set_weights: weight shapes do not match the model".
Definition negative_sleep : string := "sleep length must be non-negative".

(** [global_model.set_weights(w)]: Keras refuses what is not a list of
    arrays of the shapes of the model's own weights, which therefore keep
    their shapes. *)
Definition set_weights (a : ndarray) : M unit :=
  fun s =>
    match a with
    | Scalar _ => (Raise (TypeError not_a_weight_list), s)
    | Tensors p =>
        if same_shape p (weights (global_model s)) then
          (Ok tt, {| global_model := {| architecture := architecture (global_model s);
                                        weight_shapes := weight_shapes (global_model s);
                                        weights := p |};
                     fx := fx s;
                     trace := trace s ++ [SetWeights p] |})
        else (Raise (ValueError weight_shape_mismatch), s)
    end.

(** [fx.submit(training_function, **kwargs)]: the task gets the next
    identifier of the executor and starts running. *)
Definition submit (w : world) (i : nat) (j : job) : M future :=
  fun s =>
    let ex := fx s in
    let id := (List.length (running ex) + List.length (finished ex))%nat in
    let t := {| task_id := id; task_outcome := remote w i id j |} in
    (Ok id, {| global_model := global_model s;
               fx := {| running := running ex ++ [t]; finished := finished ex |};
               trace := trace s ++ [Submit j] |}).

(** [t.result()]: blocks until the task is resolved, then returns its result
    or raises its exception.  A future that no executor knows never
    resolves. *)
Definition result (w : world) (t : future) : M train_result :=
  fun s =>
    let (ex, o) := wait w (List.length (running (fx s))) (fx s) t in
    let s' := {| global_model := global_model s; fx := ex; trace := trace s |} in
    match o with
    | Some r => (r, s')
    | None => (Raise UnknownFuture, s')
    end.

(** [time.sleep(t)] refuses a negative duration. *)
Definition sleep (t : Z) : M unit :=
  if (t <? 0)%Z then raise (ValueError negative_sleep)
  else log (Sleep t).

(** ** eval_model and the evaluation callback *)

(** What a call [evaluation_function(global_model, x_test, y_test)] does:
    it prints some labelled values, then returns or raises.  (The callback is
    diagnostic: it does not train the model it is given.) *)
Definition callback : Type :=
  gmodel -> dataset -> dataset -> list (string * npfloat) * res unit.

(** The object passed as [evaluation_function]: its truth value and, when it
    is callable, what calling it does. *)
Record pyobject : Type := {
  truthy : bool;
  call : option callback
}.

Definition callable (o : pyobject) : bool :=
  match call o with
  | Some _ => true
  | None => false
  end.

Definition py_None : pyobject := {| truthy := false; call := None |}.

(** [score = m.evaluate(x, y, verbose=0)], then the two prints. *)
Definition eval_model (w : world) : callback :=
  fun m x y =>
    match keras_evaluate w m x y with
    | Ok score =>
        ([("Test loss:"%string, fst score);
          ("Test accuracy:"%string, snd score)], Ok tt)
    | Raise e => ([], Raise e)
    end.

Definition apply_callback (f : callback) (m : gmodel) (x y : dataset) : M unit :=
  for_each (fst (f m x y)) (fun p => log (PrintScore (fst p) (snd p))) ;;;
  lift (snd (f m x y)).

Definition is_some {A} (o : option A) : bool :=
  match o with
  | Some _ => true
  | None => false
  end.

(** ** federated_learning *)

(** The arguments the function reads ([data_source], [preprocess],
    [keras_dataset], [input_shape], [loss], [optimizer] and [metrics] are
    accepted and never used). *)
Record arguments : Type := {
  endpoint_ids : list string;
  num_samples : Z;
  epochs : Z;
  loops : Z;
  time_interval : Z;
  federated_mode : string;
  evaluation_function : pyobject;
  x_test : option dataset;
  y_test : option dataset
}.

Definition default_arguments (w : world) (endpoints : list string) : arguments :=
  {| endpoint_ids := endpoints;
     num_samples := 100;
     epochs := 10;
     loops := 1;
     time_interval := 0;
     federated_mode := "average";
     evaluation_function := {| truthy := true; call := Some (eval_model w) |};
     x_test := None;
     y_test := None |}.

Definition make_job (a : arguments) (json_config : string) (gm_weights : params)
    (e : string) : job :=
  {| json_model_config := json_config;
     global_model_weights := gm_weights;
     job_num_samples := num_samples a;
     job_epochs := epochs a;
     endpoint_id := e |}.

(** The text of the exception of lines 220-221, an f-string continued over
    two lines. *)
Definition unrecognized_mode (mode : string) : string :=
  String.append "Federated mode "
    (String.append mode
       " is not recognized.                  Please select one of the available modes: ['average', 'weighted_average']").

(** The aggregation step (lines 208-221). *)
Definition aggregate (w : world) (a : arguments) (tasks : list future)
    (model_weights_ : list params) : M ndarray :=
  if String.eqb (federated_mode a) "average" then
    lift (np_mean model_weights_)
  else if String.eqb (federated_mode a) "weighted_average" then
    sample_counts <- mapM (fun t => r <- result w t ;; ret (samples_count r)) tasks ;;
    edge_weights <- lift (get_edge_weights sample_counts) ;;
    lift (np_average model_weights_ edge_weights)
  else
    raise (Exception (unrecognized_mode (federated_mode a))).

(** The evaluation step (lines 228-229). *)
Definition evaluate_step (a : arguments) : M unit :=
  match x_test a, y_test a with
  | Some x, Some y =>
      if truthy (evaluation_function a) && callable (evaluation_function a) then
        match call (evaluation_function a) with
        | Some f =>
            fun s =>
              (log (Evaluate (weights (global_model s)) x y) ;;;
               apply_callback f (global_model s) x y) s
        | None => ret tt
        end
      else ret tt
  | _, _ => ret tt
  end.

(** The body of the loop, for round [i]. *)
Definition fl_round (w : world) (a : arguments) (i : nat) : M unit :=
  json_config <- to_json ;;
  gm_weights <- get_weights ;;
  gm_weights_np <- asarray_object gm_weights ;;
  set_fx new_executor ;;;
  tasks <- mapM (fun e => submit w i (make_job a json_config gm_weights_np e))
                (endpoint_ids a) ;;
  model_weights_ <- mapM (fun t => r <- result w t ;; ret (model_weights r)) tasks ;;
  average_weights <- aggregate w a tasks model_weights_ ;;
  set_weights average_weights ;;;
  log (PrintEpoch i) ;;;
  evaluate_step a ;;;
  sleep (time_interval a).

Definition federated_learning (w : world) (a : arguments) : M gmodel :=
  set_fx new_executor ;;;
  for_each (seq 0 (Z.to_nat (loops a))) (fl_round w a) ;;;
  (fun s => (Ok (global_model s), s)).

(** The state in which a caller holding the model [m] calls the function. *)
Definition initial_state (m : gmodel) : state :=
  {| global_model := m; fx := new_executor; trace := [] |}.

(** Running the function on the model [m]: what it returns or raises, and the
    state it leaves. *)
Definition run (w : world) (a : arguments) (m : gmodel) : res gmodel * state :=
  federated_learning w a (initial_state m).

(** ** Reference descriptions used in the statements *)

(** Whether the weights of the model [m] go into one array of objects, that
    is whether line 190 returns. *)
Definition packs (m : gmodel) : bool := object_array_packs (weight_shapes m).

(** The jobs a round on the model [m] submits: one per endpoint, in the
    order of [endpoint_ids]; none if line 190 raises, which happens before
    the loop of line 197. *)
Definition jobs_of (a : arguments) (m : gmodel) : list job :=
  if packs m then map (make_job a (architecture m) (weights m)) (endpoint_ids a)
  else [].

(** What the endpoints answer to the jobs [js] of round [i], by position. *)
Definition answers (w : world) (i : nat) (n0 : nat) (js : list job)
  : list (res train_result) :=
  map2 (remote w i) (seq n0 (List.length js)) js.

(** All the results in order, or the first exception in order. *)
Fixpoint collect {A} (outs : list (res A)) : res (list A) :=
  match outs with
  | [] => Ok []
  | Ok r :: l =>
      match collect l with
      | Ok rs => Ok (r :: rs)
      | Raise e => Raise e
      end
  | Raise e :: _ => Raise e
  end.

Definition is_submit (e : event) : bool :=
  match e with Submit _ => true | _ => false end.
Definition is_set_weights (e : event) : bool :=
  match e with SetWeights _ => true | _ => false end.
Definition is_evaluate (e : event) : bool :=
  match e with Evaluate _ _ _ => true | _ => false end.

Definition count (p : event -> bool) (tr : list event) : nat :=
  List.length (filter p tr).

(** The exact rational [c / t] as a float. *)
Definition fraction (c t : Z) : npfloat :=
  Fin (Q2Qc (inject_Z c) / Q2Qc (inject_Z t))%Qc.

(** The executor [ex] holds exactly the tasks [T], running or finished. *)
Definition known (ex : executor) (T : list task) : Prop :=
  Permutation (running ex ++ finished ex) T.

Definition with_fx (s : state) (ex : executor) : state :=
  {| global_model := global_model s; fx := ex; trace := trace s |}.

(** The tasks an executor created for round [i] holds after the jobs [js]
    were submitted to it. *)
Definition tasks_of (w : world) (i : nat) (n0 : nat) (js : list job) : list task :=
  map2 (fun id j => {| task_id := id; task_outcome := remote w i id j |})
       (seq n0 (List.length js)) js.

(** The aggregate of the collected results [rs], by mode. *)
Definition aggregate_results (mode : string) (rs : list train_result) : res ndarray :=
  if String.eqb mode "average" then np_mean (map model_weights rs)
  else if String.eqb mode "weighted_average" then
    match get_edge_weights (map samples_count rs) with
    | Ok edge_weights => np_average (map model_weights rs) edge_weights
    | Raise e => Raise e
    end
  else Raise (Exception (unrecognized_mode mode)).

(** The end of the loop body (lines 224-231), once the aggregate is known. *)
Definition finish_round (a : arguments) (i : nat) (average_weights : ndarray) : M unit :=
  set_weights average_weights ;;;
  log (PrintEpoch i) ;;;
  evaluate_step a ;;;
  sleep (time_interval a).

(** Whether the evaluation step calls the callback (line 228). *)
Definition eval_enabled (a : arguments) : bool :=
  is_some (x_test a) && is_some (y_test a)
  && truthy (evaluation_function a) && callable (evaluation_function a).

(** The events of the evaluation step on the model [m], and its outcome. *)
Definition eval_events (a : arguments) (m : gmodel) : list event * res unit :=
  match x_test a, y_test a, call (evaluation_function a) with
  | Some x, Some y, Some f =>
      if truthy (evaluation_function a) then
        (Evaluate (weights m) x y
           :: map (fun p => PrintScore (fst p) (snd p)) (fst (f m x y)),
         snd (f m x y))
      else ([], Ok tt)
  | _, _, _ => ([], Ok tt)
  end.

(** Outcome, model and events of the end of round [i] on the model [m]. *)
Definition finish_events (a : arguments) (i : nat) (avg : ndarray) (m : gmodel)
  : res unit * gmodel * list event :=
  match avg with
  | Scalar _ => (Raise (TypeError not_a_weight_list), m, [])
  | Tensors p =>
      if same_shape p (weights m) then
        let m' := {| architecture := architecture m;
                     weight_shapes := weight_shapes m;
                     weights := p |} in
        let evs := [SetWeights p; PrintEpoch i] ++ fst (eval_events a m') in
        match snd (eval_events a m') with
        | Raise e => (Raise e, m', evs)
        | Ok _ =>
            if (time_interval a <? 0)%Z then
              (Raise (ValueError negative_sleep), m', evs)
            else (Ok tt, m', evs ++ [Sleep (time_interval a)])
        end
      else (Raise (ValueError weight_shape_mismatch), m, [])
  end.

(** Outcome, model and events of round [i] started on the model [m]. *)
Definition round_events (w : world) (a : arguments) (i : nat) (m : gmodel)
  : res unit * gmodel * list event :=
  if packs m then
    let js := jobs_of a m in
    match collect (answers w i 0 js) with
    | Raise e => (Raise e, m, map Submit js)
    | Ok rs =>
        match aggregate_results (federated_mode a) rs with
        | Raise e => (Raise e, m, map Submit js)
        | Ok avg =>
            let '(r, m', evs) := finish_events a i avg m in
            (r, m', map Submit js ++ evs)
        end
    end
  else (Raise (ValueError could_not_broadcast), m, []).

(** Outcome, model and events of the rounds [rounds], run in order until one
    fails. *)
Fixpoint rounds_events (w : world) (a : arguments) (rounds : list nat) (m : gmodel)
  : res unit * gmodel * list event :=
  match rounds with
  | [] => (Ok tt, m, [])
  | i :: rounds' =>
      match round_events w a i m with
      | (Ok _, m1, evs) =>
          let '(r, m2, evs') := rounds_events w a rounds' m1 in
          (r, m2, evs ++ evs')
      | (Raise e, m1, evs) => (Raise e, m1, evs)
      end
  end.

(** ** Reading a trace *)

(** The orchestration steps of a trace: one [Dispatch] per submitted job,
    one [Commit] per [set_weights], one [Epoch i] per end-of-round print. *)
Inductive marker : Type :=
| Dispatch
| Commit
| Epoch (i : nat).

Definition marker_of (e : event) : list marker :=
  match e with
  | Submit _ => [Dispatch]
  | SetWeights _ => [Commit]
  | PrintEpoch i => [Epoch i]
  | _ => []
  end.

Definition skeleton (tr : list event) : list marker := flat_map marker_of tr.

(** The skeleton of round [i] over [n] endpoints. *)
Definition round_skeleton (n : nat) (i : nat) : list marker :=
  repeat Dispatch n ++ [Commit; Epoch i].

(** The weights committed along a trace, in order. *)
Definition committed_of (e : event) : list params :=
  match e with
  | SetWeights p => [p]
  | _ => []
  end.

Definition committed (tr : list event) : list params := flat_map committed_of tr.

Definition is_commit_or_evaluate (e : event) : bool :=
  is_set_weights e || is_evaluate e.

(** A commit of [p], followed by the evaluation of the model holding [p]
    when the evaluation step is enabled. *)
Definition commit_then_evaluate (a : arguments) (p : params) : list event :=
  SetWeights p
  :: match x_test a, y_test a with
     | Some x, Some y => if eval_enabled a then [Evaluate p x y] else []
     | _, _ => []
     end.

(** ** Endpoints that never fail *)

(** Every endpoint answers every job with a parameter set of the shape of
    the weights it was sent, trained on at least one sample. *)
Definition well_behaved (w : world) : Prop :=
  forall i id j,
    exists r,
      remote w i id j = Ok r
      /\ shape (model_weights r) = shape (global_model_weights j)
      /\ (0 < samples_count r)%Z.

(** The evaluation callback, if there is one, never raises. *)
Definition quiet_callback (a : arguments) : Prop :=
  forall f m x y, call (evaluation_function a) = Some f -> snd (f m x y) = Ok tt.

(** ** Concrete worlds and calls, for the examples *)

(** A model with a single one-entry tensor. *)
Definition toy_model : gmodel :=
  {| architecture := "{}";
     weight_shapes := [[1%nat]];
     weights := [[of_int 0]] |}.

(** A dense layer of two units on two inputs: a kernel of shape (2, 2) and
    a bias of shape (2,). *)
Definition dense_model : gmodel :=
  {| architecture := "{}";
     weight_shapes := [[2; 2]; [2]]%nat;
     weights := [[of_int 0; of_int 0; of_int 0; of_int 0];
                 [of_int 0; of_int 0]] |}.

(** Two endpoints: the first answers the tensor [[1.0]] trained on 100
    samples, the second [[3.0]] trained on 300 samples; the task submitted
    last completes first. *)
Definition two_endpoints : world :=
  {| remote := fun _ id _ =>
       if (id =? 0)%nat
       then Ok {| model_weights := [[of_int 1]]; samples_count := 100 |}
       else Ok {| model_weights := [[of_int 3]]; samples_count := 300 |};
     sched := fun ids => last ids 0%nat;
     keras_evaluate := fun _ _ _ => Ok (zero, one) |}.

(** The same endpoints, the task submitted first completing first. *)
Definition two_endpoints_fifo : world :=
  {| remote := remote two_endpoints;
     sched := fun ids => hd 0%nat ids;
     keras_evaluate := keras_evaluate two_endpoints |}.

(** Endpoints that send back the weights they were given, on 100 samples,
    except that in round 1 every endpoint but the first fails. *)
Definition failing_in_round_1 : world :=
  {| remote := fun i id j =>
       if (i =? 1)%nat && negb (id =? 0)%nat
       then Raise (RemoteError "endpoint failed")
       else Ok {| model_weights := global_model_weights j; samples_count := 100 |};
     sched := fun ids => last ids 0%nat;
     keras_evaluate := fun _ _ _ => Ok (zero, one) |}.

Definition toy_call (w : world) (mode : string) (n : Z) (test : option dataset)
  : arguments :=
  {| endpoint_ids := ["E1"; "E2"]%string;
     num_samples := 100;
     epochs := 10;
     loops := n;
     time_interval := 0;
     federated_mode := mode;
     evaluation_function := {| truthy := true; call := Some (eval_model w) |};
     x_test := test;
     y_test := test |}.

(** A call with the unsupported mode ["median"], for one round. *)
Definition median_call : arguments := toy_call two_endpoints "median" 1 None.

(** Two rounds against endpoints of which one fails in the second round. *)
Definition failing_call : arguments :=
  toy_call failing_in_round_1 "average" 2 None.

(** Three rounds on the two endpoints, in the default mode. *)
Definition three_rounds : arguments := toy_call two_endpoints "average" 3 None.

(** One round on the two endpoints, in either mode. *)
Definition average_call : arguments := toy_call two_endpoints "average" 1 None.
Definition weighted_call : arguments :=
  toy_call two_endpoints "weighted_average" 1 None.

(** Two rounds on the two endpoints, with test data. *)
Definition evaluated_call : arguments :=
  toy_call two_endpoints "average" 2 (Some []).

(** ** Further readings of a trace *)

(** Every job submitted along the trace carries the architecture [arch],
    the call's [num_samples] and [epochs], and the weights of the latest
    commit before it ([current] when there is none). *)
Fixpoint jobs_follow_commits (a : arguments) (arch : string) (current : params)
    (tr : list event) : Prop :=
  match tr with
  | [] => True
  | Submit j :: tr' =>
      j = make_job a arch current (endpoint_id j)
      /\ jobs_follow_commits a arch current tr'
  | SetWeights p :: tr' => jobs_follow_commits a arch p tr'
  | _ :: tr' => jobs_follow_commits a arch current tr'
  end.

(** The jobs submitted along a trace, in order. *)
Definition submitted_of (e : event) : list job :=
  match e with
  | Submit j => [j]
  | _ => []
  end.

Definition submitted (tr : list event) : list job := flat_map submitted_of tr.

(** ** More concrete worlds and calls *)

(** Endpoints that send back the weights they were given, trained on 100
    samples, and never fail. *)
Definition echo_endpoints : world :=
  {| remote := fun _ _ j =>
       Ok {| model_weights := global_model_weights j; samples_count := 100 |};
     sched := fun ids => last ids 0%nat;
     keras_evaluate := fun _ _ _ => Ok (zero, one) |}.

(** Two rounds with a negative pacing interval. *)
Definition hasty_call : arguments :=
  {| endpoint_ids := ["E1"; "E2"]%string;
     num_samples := 100;
     epochs := 10;
     loops := 2;
     time_interval := -1;
     federated_mode := "average";
     evaluation_function := {| truthy := true; call := Some (eval_model echo_endpoints) |};
     x_test := None;
     y_test := None |}.

(** Two rounds with test data and a callback that raises. *)
Definition broken_callback : callback :=
  fun _ _ _ => ([], Raise (Exception "evaluation failed")).

Definition broken_evaluation_call : arguments :=
  {| endpoint_ids := ["E1"; "E2"]%string;
     num_samples := 100;
     epochs := 10;
     loops := 2;
     time_interval := 0;
     federated_mode := "weighted_average";
     evaluation_function := {| truthy := true; call := Some broken_callback |};
     x_test := Some [];
     y_test := Some [] |}.

(** The same call in another mode. *)
Definition with_mode (a : arguments) (mode : string) : arguments :=
  {| endpoint_ids := endpoint_ids a;
     num_samples := num_samples a;
     epochs := epochs a;
     loops := loops a;
     time_interval := time_interval a;
     federated_mode := mode;
     evaluation_function := evaluation_function a;
     x_test := x_test a;
     y_test := y_test a |}.

(** Endpoints that send back the weights they were given and report that
    they trained on no sample at all. *)
Definition idle_endpoints : world :=
  {| remote := fun _ _ j =>
       Ok {| model_weights := global_model_weights j; samples_count := 0 |};
     sched := fun ids => hd 0%nat ids;
     keras_evaluate := fun _ _ _ => Ok (zero, one) |}.

(** [x <= y] on floats, false as soon as one of them is [nan]. *)
Definition fleb (x y : npfloat) : bool :=
  match x, y with
  | NaN, _ | _, NaN => false
  | NInf, _ | _, PInf => true
  | Fin a, Fin b => match (a ?= b)%Qc with Gt => false | _ => true end
  | _, _ => false
  end.

(** ** training_function *)

(** An image array: [pixels] lists the samples along the first axis, each
    flattened; [image_shape] is the shape of one sample. *)
Record images : Type := {
  image_shape : list nat;
  pixels : list (list npfloat)
}.

(** Labels: class identifiers, or the binary class matrix [to_categorical]
    makes of them. *)
Inductive labels : Type :=
| ClassIds (ids : list Z)
| Categorical (rows : list (list npfloat)).

(** What an endpoint provides to [training_function]: the training part of
    its Keras datasets (an image array and its label array, of the same
    length), its random generator and the Keras model operations. *)
Record endpoint : Type := {
  kmodel : Type;
  (** [dataset_mapping[name].load_data()]: shape of a sample and the
      samples, each with its label *)
  load_data : string -> res (list nat * list (list npfloat * Z));
  (** the successive draws of [np.random] *)
  rng : nat -> nat;
  to_categorical : list Z -> nat -> res (list (list npfloat));
  model_from_json : string -> res kmodel;
  compile : kmodel -> kmodel;
  model_set_weights : kmodel -> params -> res kmodel;
  model_build : kmodel -> res kmodel;
  model_fit : kmodel -> images -> labels -> Z -> res kmodel;
  (** [model.get_weights()]: the shapes of the arrays and their entries *)
  model_weight_shapes : kmodel -> list (list nat);
  model_get_weights : kmodel -> params
}.

Definition rbind {A B} (r : res A) (k : A -> res B) : res B :=
  match r with
  | Ok a => k a
  | Raise e => Raise e
  end.

Notation "x <~ c ;; k" := (rbind c (fun x => k))
  (at level 61, c at next level, right associativity).

(** The truth value of [num_samples] in [if num_samples:]. *)
Definition py_truth (num_samples_ : option Z) : bool :=
  match num_samples_ with
  | None => false
  | Some n => negb (n =? 0)%Z
  end.

(** [np.random.choice(np.arange(n), size, replace=True)]: the population is
    checked first, then the size. *)
Definition random_choice (E : endpoint) (n : nat) (size : Z) : res (list nat) :=
  if (n =? 0)%nat && negb (size =? 0)%Z then
    Raise (ValueError "'a' cannot be empty unless no samples are taken")
  else if (size <? 0)%Z then
    Raise (ValueError "negative dimensions are not allowed")
  else Ok (map (fun k => rng E k mod n) (seq 0 (Z.to_nat size))).

(** [x[idx]] along the first axis. *)
Definition take_rows {A} (d : A) (l : list A) (idx : list nat) : list A :=
  map (fun i => nth i l d) idx.

(** [x.shape[-1]]. *)
Definition last_axis (x : images) : nat :=
  last (image_shape x) (List.length (pixels x)).

(** [x.astype("float32") / 255]. *)
Definition scale_pixels (x : images) : images :=
  {| image_shape := image_shape x;
     pixels := map (map (fun v => fdiv v (of_int 255))) (pixels x) |}.

(** [np.expand_dims(x, -1)]. *)
Definition expand_dims (x : images) : images :=
  {| image_shape := image_shape x ++ [1%nat]; pixels := pixels x |}.

Definition available_datasets : list string :=
  ["mnist"; "fashion_mnist"; "cifar10"; "cifar100"; "imdb"; "reuters";
   "boston_housing"]%string.

Definition image_datasets : list string :=
  ["mnist"; "fashion_mnist"; "cifar10"; "cifar100"]%string.

Definition py_in (x : string) (l : list string) : bool :=
  existsb (String.eqb x) l.

(** The constants of lines 70-72. *)
Definition tf_data_source : string := "keras".
Definition tf_preprocess : bool := true.
Definition tf_keras_dataset : string := "mnist".

(** Lines 79-124: the data the model is trained on. *)
Definition prepare_data (E : endpoint) (num_samples_ : option Z)
  : res (images * labels) :=
  if String.eqb tf_data_source "keras" then
    if negb (py_in tf_keras_dataset available_datasets) then
      Raise (Exception "Please select one of the built-in Keras datasets: ['mnist', 'fashion_mnist', 'cifar10', 'cifar100', 'imdb', 'reuters', 'boston_housing']")
    else
      loaded <~ load_data E tf_keras_dataset ;;
      let x_train := map fst (snd loaded) in
      let y_train := map snd (snd loaded) in
      sampled <~ (if py_truth num_samples_ then
                    idx <~ random_choice E (List.length x_train)
                                         (match num_samples_ with
                                          | Some n => n
                                          | None => 0%Z
                                          end) ;;
                    Ok (take_rows [] x_train idx, take_rows 0%Z y_train idx)
                  else Ok (x_train, y_train)) ;;
      let x_train := {| image_shape := fst loaded; pixels := fst sampled |} in
      let y_train := snd sampled in
      if tf_preprocess then
        if py_in tf_keras_dataset image_datasets then
          let x_train := scale_pixels x_train in
          let x_train :=
            if negb (existsb (Nat.eqb (last_axis x_train)) [1; 3]%nat)
            then expand_dims x_train else x_train in
          let num_classes :=
            if String.eqb tf_keras_dataset "cifar100" then 100%nat else 10%nat in
          y_cat <~ to_categorical E y_train num_classes ;;
          Ok (x_train, Categorical y_cat)
        else Ok (x_train, ClassIds y_train)
      else Ok (x_train, ClassIds y_train)
  else
    Raise (Exception "Please choose one of data sources: ['local', 'keras', 'custom']").

(** Lines 126-150: the model is rebuilt from its description, given the
    global weights (after a [build] if it refuses them at first), trained,
    and its weights, put into one array of objects, returned with the number
    of samples trained on. *)
Definition training_function (E : endpoint) (json_model_config_ : string)
    (global_model_weights_ : params) (num_samples_ : option Z) (epochs_ : Z)
  : res train_result :=
  data <~ prepare_data E num_samples_ ;;
  let x_train := fst data in
  let y_train := snd data in
  model <~ model_from_json E json_model_config_ ;;
  let model := compile E model in
  model <~ match model_set_weights E model global_model_weights_ with
           | Ok model' => Ok model'
           | Raise _ =>
               model' <~ model_build E model ;;
               model_set_weights E model' global_model_weights_
           end ;;
  model <~ model_fit E model x_train y_train epochs_ ;;
  let model_weights_ := model_get_weights E model in
  np_model_weights <~ np_asarray_object (model_weight_shapes E model)
                                        model_weights_ ;;
  Ok {| model_weights := np_model_weights;
        samples_count := Z.of_nat (List.length (pixels x_train)) |}.

(** The world in which task [id] of round [i] runs [training_function] on
    the endpoint [endpoints i id], with the keyword arguments of the job. *)
Definition training_world (endpoints : nat -> nat -> endpoint)
    (order : list nat -> nat)
    (evaluate : gmodel -> dataset -> dataset -> res (npfloat * npfloat))
  : world :=
  {| remote := fun i id j =>
       training_function (endpoints i id) (json_model_config j)
                         (global_model_weights j) (Some (job_num_samples j))
                         (job_epochs j);
     sched := order;
     keras_evaluate := evaluate |}.

(** A toy endpoint: three 2x2 images with their labels; a model is its
    weights and a flag telling whether it was built, and refuses weights
    until it is built; training leaves the weights as they are. *)
Definition toy_endpoint : endpoint :=
  {| kmodel := bool * params;
     load_data := fun _ =>
       Ok ([2; 2]%nat,
           [([of_int 0; of_int 51; of_int 102; of_int 255], 7%Z);
            ([of_int 255; of_int 0; of_int 0; of_int 0], 1%Z);
            ([of_int 5; of_int 5; of_int 5; of_int 5], 4%Z)]);
     rng := fun k => (2 * k + 1)%nat;
     to_categorical := fun ids n =>
       Ok (map (fun c => map (fun k => if (Z.of_nat k =? c)%Z then one else zero)
                             (seq 0 n)) ids);
     model_from_json := fun _ => Ok (false, []);
     compile := fun model => model;
     model_set_weights := fun model ws =>
       if fst model then Ok (true, ws)
       else Raise (ValueError "the model is not built");
     model_build := fun model => Ok (true, snd model);
     model_fit := fun model _ _ _ => Ok model;
     model_weight_shapes := fun model =>
       map (fun t => [List.length t]) (snd model);
     model_get_weights := fun model => snd model |}.

(** Both endpoints of every round are the toy endpoint. *)
Definition toy_training_world : world :=
  training_world (fun _ _ => toy_endpoint) (fun ids => last ids 0%nat)
                 (fun _ _ _ => Ok (zero, one)).

(** A call asking for a negative number of samples. *)
Definition negative_samples_call : arguments :=
  {| endpoint_ids := ["E1"; "E2"]%string;
     num_samples := -5;
     epochs := 10;
     loops := 2;
     time_interval := 0;
     federated_mode := "average";
     evaluation_function := py_None;
     x_test := None;
     y_test := None |}.

(** * Properties *)

(** ** Arithmetic of the float model *)

Lemma Qc_eq_bool_true (x y : Qc) : Qc_eq_bool x y = true <-> x = y.
Proof.
  unfold Qc_eq_bool. destruct (Qc_eq_dec x y); split; congruence.
Qed.

Lemma Qc_eq_bool_false (x y : Qc) : Qc_eq_bool x y = false <-> x <> y.
Proof.
  unfold Qc_eq_bool. destruct (Qc_eq_dec x y); split; congruence.
Qed.

Lemma Q2Qc_inject_Z_0 (z : Z) : Q2Qc (inject_Z z) = Q2Qc 0 <-> z = 0%Z.
Proof.
  rewrite Q2Qc_eq_iff. unfold Qeq, inject_Z. simpl. lia.
Qed.

Lemma this_Q2Qc (q : Q) : this (Q2Qc q) = Qred q.
Proof. reflexivity. Qed.

Lemma Q2Qc_inject_Z_add (x y : Z) :
  Q2Qc (inject_Z (x + y)) = (Q2Qc (inject_Z x) + Q2Qc (inject_Z y))%Qc.
Proof.
  unfold Qcplus. apply Q2Qc_eq_iff. rewrite !this_Q2Qc, !Qred_correct.
  rewrite inject_Z_plus. reflexivity.
Qed.

Lemma Qccompare_inject_Z (z : Z) :
  (Q2Qc (inject_Z z) ?= Q2Qc 0)%Qc = (z ?= 0)%Z.
Proof.
  unfold Qccompare. rewrite !this_Q2Qc, <- Qred_compare.
  unfold Qcompare, inject_Z. simpl. now rewrite Z.mul_1_r.
Qed.

Lemma Qcinv_nonneg (t : Qc) : (Q2Qc 0 <= t)%Qc -> (Q2Qc 0 <= / t)%Qc.
Proof.
  unfold Qcle, Qcinv. rewrite !this_Q2Qc, !Qred_correct.
  apply Qinv_le_0_compat.
Qed.

Lemma Qcdiv_nonneg (c t : Qc) :
  (Q2Qc 0 <= c)%Qc -> (Q2Qc 0 <= t)%Qc -> (Q2Qc 0 <= c / t)%Qc.
Proof.
  intros Hc Ht. unfold Qcdiv.
  rewrite <- (Qcmult_0_l (/ t)).
  apply Qcmult_le_compat_r; [exact Hc | now apply Qcinv_nonneg].
Qed.

Lemma Qcle_inject_Z (z : Z) : (0 <= z)%Z -> (Q2Qc 0 <= Q2Qc (inject_Z z))%Qc.
Proof.
  intros H. unfold Qcle. rewrite !this_Q2Qc, !Qred_correct.
  unfold Qle, inject_Z. simpl. lia.
Qed.

(** ** get_edge_weights *)

Lemma fdiv_of_int (c t : Z) :
  t <> 0%Z -> fdiv (of_int c) (of_int t) = fraction c t.
Proof.
  intros Ht. unfold fdiv, of_int, fraction.
  destruct (Qc_eq_bool (Q2Qc (inject_Z t)) (Q2Qc 0)) eqn:E; [|reflexivity].
  apply Qc_eq_bool_true, Q2Qc_inject_Z_0 in E. contradiction.
Qed.

Lemma fdiv_of_int_zero (c : Z) :
  fdiv (of_int c) (of_int 0) = signed_inf (c ?= 0)%Z.
Proof.
  unfold fdiv, of_int.
  destruct (Qc_eq_bool (Q2Qc (inject_Z 0)) (Q2Qc 0)) eqn:E.
  - now rewrite Qccompare_inject_Z.
  - apply Qc_eq_bool_false in E. exfalso. apply E. now apply Q2Qc_inject_Z_0.
Qed.

Lemma py_sum_acc (l : list Z) (acc : Z) :
  fold_left Z.add l acc = (acc + py_sum l)%Z.
Proof.
  unfold py_sum. revert acc. induction l as [|c l IH]; intros acc; simpl.
  - lia.
  - rewrite IH, (IH c). lia.
Qed.

Lemma py_sum_cons (c : Z) (l : list Z) : py_sum (c :: l) = (c + py_sum l)%Z.
Proof. unfold py_sum at 1. simpl. now rewrite py_sum_acc. Qed.

Lemma py_sum_pos (l : list Z) :
  l <> [] -> Forall (fun c => 0 < c)%Z l -> (0 < py_sum l)%Z.
Proof.
  intros Hne Hpos. induction Hpos as [|c l Hc Hl IH]; [congruence|].
  rewrite py_sum_cons. destruct l as [|d l].
  - unfold py_sum. simpl. lia.
  - assert (0 < py_sum (d :: l))%Z by (apply IH; discriminate). lia.
Qed.

Lemma fsum_fractions_acc (t : Z) (l : list Z) (acc : Qc) :
  fold_left fadd (map (fun c => fraction c t) l) (Fin acc)
  = Fin (acc + Q2Qc (inject_Z (py_sum l)) / Q2Qc (inject_Z t))%Qc.
Proof.
  revert acc. induction l as [|c l IH]; intros acc; simpl.
  - f_equal. unfold py_sum. simpl. unfold Qcdiv. 
    change (Q2Qc (inject_Z 0)) with (Q2Qc 0). ring.
  - unfold fraction at 1. rewrite IH, py_sum_cons, Q2Qc_inject_Z_add.
    f_equal. unfold Qcdiv. ring.
Qed.

Lemma fsum_fractions (t : Z) (l : list Z) :
  fsum (map (fun c => fraction c t) l) = fraction (py_sum l) t.
Proof.
  unfold fsum, zero. rewrite fsum_fractions_acc. unfold fraction.
  f_equal. ring.
Qed.

Lemma fraction_self (t : Z) : t <> 0%Z -> fraction t t = one.
Proof.
  intros Ht. unfold fraction, one. f_equal. unfold Qcdiv.
  apply Qcmult_inv_r. now rewrite Q2Qc_inject_Z_0.
Qed.

Lemma fraction_nonneg (c t : Z) :
  (0 <= c)%Z -> (0 <= t)%Z -> is_nonneg (fraction c t) = true.
Proof.
  intros Hc Ht. unfold is_nonneg, fraction.
  assert (H : (Q2Qc 0 <= Q2Qc (inject_Z c) / Q2Qc (inject_Z t))%Qc)
    by (apply Qcdiv_nonneg; now apply Qcle_inject_Z).
  destruct (_ ?= _)%Qc eqn:E; try reflexivity.
  apply Qclt_alt in E. exfalso. revert E. now apply Qcle_not_lt.
Qed.

Lemma get_edge_weights_fractions (l : list Z) :
  py_sum l <> 0%Z ->
  get_edge_weights l = Ok (map (fun c => fraction c (py_sum l)) l).
Proof.
  intros Ht. unfold get_edge_weights. f_equal.
  apply map_ext. intros c. now apply fdiv_of_int.
Qed.

(** The wrap-around of [int64] leaves the numbers in range as they are. *)
Lemma wrap_int64_exact (z : Z) : int64 z -> wrap_int64 z = z.
Proof.
  unfold int64, wrap_int64. intros H.
  rewrite Z.mod_small by lia. lia.
Qed.

Lemma wrap_int64_add (z c : Z) :
  wrap_int64 (wrap_int64 z + c) = wrap_int64 (z + c).
Proof.
  unfold wrap_int64.
  replace ((z + 2 ^ 63) mod 2 ^ 64 - 2 ^ 63 + c + 2 ^ 63)%Z
    with ((z + 2 ^ 63) mod 2 ^ 64 + c)%Z by lia.
  rewrite Z.add_mod_idemp_l by lia.
  now replace (z + 2 ^ 63 + c)%Z with (z + c + 2 ^ 63)%Z by lia.
Qed.

(** The sum numpy computes is the exact sum, wrapped around once. *)
Lemma int64_sum_wraps (l : list Z) : int64_sum l = wrap_int64 (py_sum l).
Proof.
  unfold int64_sum, py_sum.
  change 0%Z with (wrap_int64 0) at 1.
  generalize 0%Z. induction l as [|c l IH]; intros acc; cbn [fold_left].
  - reflexivity.
  - rewrite wrap_int64_add. apply IH.
Qed.

(** On the arrays whose sum fits, [py_sum] is the sum numpy computes. *)
Lemma int64_sum_exact (l : list Z) : fits_int64 l -> int64_sum l = py_sum l.
Proof.
  intros [_ H]. rewrite int64_sum_wraps. now apply wrap_int64_exact.
Qed.

(** Two counts of [2^62] are positive and in range, but their sum is not:
    numpy's sum wraps around to [-2^63]. *)
Example int64_sum_overflows :
  Forall int64 [2 ^ 62; 2 ^ 62]%Z
  /\ py_sum [2 ^ 62; 2 ^ 62]%Z = (2 ^ 63)%Z
  /\ int64_sum [2 ^ 62; 2 ^ 62]%Z = (- 2 ^ 63)%Z.
Proof.
  split; [|split; reflexivity].
  repeat constructor; unfold int64; cbn; lia.
Qed.

(** C2 (as amended).  [get_edge_weights] validates nothing and never fails:
    on every sequence of counts it returns a sequence of the same length.
    For [int64] counts whose sum does not wrap around: when they sum to zero
    the fraction of a count is [nan] (count 0), [+inf] (positive count) or
    [-inf] (negative count), and otherwise it is the exact quotient of the
    count by the sum, negative counts included. *)
Theorem get_edge_weights_never_fails (sample_counts : list Z) :
  exists fractions,
    get_edge_weights sample_counts = Ok fractions
    /\ List.length fractions = List.length sample_counts
    /\ (fits_int64 sample_counts ->
        int64_sum sample_counts = py_sum sample_counts
        /\ (py_sum sample_counts = 0%Z ->
            fractions = map (fun c => signed_inf (c ?= 0)%Z) sample_counts)
        /\ (py_sum sample_counts <> 0%Z ->
            fractions
            = map (fun c => fraction c (py_sum sample_counts)) sample_counts)).
Proof.
  eexists. split; [reflexivity|]. split; [apply length_map|].
  intros Hfit. split; [now apply int64_sum_exact|]. split.
  - intros H0. rewrite H0. apply map_ext. intros c. apply fdiv_of_int_zero.
  - intros Hne. apply map_ext. intros c. now apply fdiv_of_int.
Qed.

(** C2, counterexample.  On the all-zero sequence [[0, 0]] the function
    returns [[nan, nan]], and on [[-1, 3]], which has a negative count, it
    returns [[-1/2, 3/2]]: neither call fails. *)
Lemma get_edge_weights_zero_sum_returns :
  get_edge_weights [0; 0]%Z = Ok [NaN; NaN]
  /\ get_edge_weights [-1; 3]%Z
     = Ok [Fin (Q2Qc (-1 # 2)); Fin (Q2Qc (3 # 2))]
  /\ (forall e, get_edge_weights [0; 0]%Z <> Raise e)
  /\ (forall e, get_edge_weights [-1; 3]%Z <> Raise e).
Proof.
  repeat split; try reflexivity; intros e; discriminate.
Qed.

(** C6 (as amended).  For every non-empty sequence of strictly positive
    sample counts whose sum fits [int64], [get_edge_weights] returns a
    sequence of the same length whose [i]-th fraction is the [i]-th count
    divided by the sum of all counts; the fractions are non-negative and sum
    to 1 (exactly, in the rational model of the floats). *)
Theorem get_edge_weights_positive (sample_counts : list Z) :
  sample_counts <> [] ->
  Forall (fun c => 0 < c)%Z sample_counts ->
  fits_int64 sample_counts ->
  exists fractions,
    get_edge_weights sample_counts = Ok fractions
    /\ List.length fractions = List.length sample_counts
    /\ (forall i c, nth_error sample_counts i = Some c ->
          nth_error fractions i = Some (fraction c (py_sum sample_counts)))
    /\ forallb is_nonneg fractions = true
    /\ fsum fractions = one
    /\ int64_sum sample_counts = py_sum sample_counts.
Proof.
  intros Hne Hpos Hfit.
  assert (Ht : (0 < py_sum sample_counts)%Z) by now apply py_sum_pos.
  exists (map (fun c => fraction c (py_sum sample_counts)) sample_counts).
  split; [apply get_edge_weights_fractions; lia|].
  split; [apply length_map|]. split; [|split; [|split]].
  - intros i c Hi. now rewrite nth_error_map, Hi.
  - apply forallb_forall. intros x Hx. apply in_map_iff in Hx.
    destruct Hx as [c [<- Hc]]. rewrite Forall_forall in Hpos.
    specialize (Hpos c Hc). apply fraction_nonneg; lia.
  - rewrite fsum_fractions. apply fraction_self. lia.
  - now apply int64_sum_exact.
Qed.

(** C6, witness: the counts [[100, 300]]. *)
Lemma get_edge_weights_positive_witness :
  exists fractions,
    get_edge_weights [100; 300]%Z = Ok fractions
    /\ List.length fractions = 2%nat
    /\ (forall i c, nth_error [100; 300]%Z i = Some c ->
          nth_error fractions i = Some (fraction c (py_sum [100; 300]%Z)))
    /\ forallb is_nonneg fractions = true
    /\ fsum fractions = one
    /\ int64_sum [100; 300]%Z = py_sum [100; 300]%Z.
Proof.
  apply (get_edge_weights_positive [100; 300]%Z).
  - discriminate.
  - repeat constructor.
  - split; [repeat constructor|]; unfold int64; cbn; lia.
Defined.

(** C6, counterexample.  The empty sequence is a sequence of strictly
    positive counts; the function returns the empty sequence, whose sum is 0
    and not 1. *)
Lemma get_edge_weights_empty_sum :
  Forall (fun c => 0 < c)%Z []
  /\ get_edge_weights [] = Ok []
  /\ fsum [] = zero
  /\ fsum [] <> one.
Proof.
  repeat split; try constructor. unfold fsum, zero, one. simpl.
  intros H. injection H as H. discriminate.
Qed.

(** ** The executor: a future resolves to the answer of its own task *)

Lemma extract_perm (id : nat) (l : list task) (u : task) (r : list task) :
  extract id l = Some (u, r) -> Permutation l (u :: r).
Proof.
  revert u r. induction l as [|t l IH]; intros u r; simpl; [discriminate|].
  destruct (task_id t =? id).
  - intros [= <- <-]. reflexivity.
  - destruct (extract id l) as [[u' r']|]; [|discriminate].
    intros [= <- <-]. rewrite (IH u' r' eq_refl). apply perm_swap.
Qed.

Lemma complete_next_known (w : world) (ex : executor) (T : list task) :
  known ex T -> known (complete_next w ex) T.
Proof.
  unfold known, complete_next. intros H.
  destruct (running ex) as [|t l] eqn:R; [now rewrite R|].
  destruct (extract _ _) as [[u r]|] eqn:E; simpl.
  - apply extract_perm in E. rewrite <- H, E, app_assoc.
    rewrite <- Permutation_cons_append. reflexivity.
  - rewrite <- H, app_assoc.
    rewrite <- Permutation_cons_append. reflexivity.
Qed.

Lemma complete_next_running (w : world) (ex : executor) :
  List.length (running (complete_next w ex)) = pred (List.length (running ex)).
Proof.
  unfold complete_next. destruct (running ex) as [|t l] eqn:R.
  - now rewrite R.
  - destruct (extract _ _) as [[u r]|] eqn:E; simpl; [|reflexivity].
    apply extract_perm, Permutation_length in E. simpl in E. lia.
Qed.

Lemma find_task_some (id : nat) (l : list task) (t : task) :
  find_task id l = Some t -> In t l /\ task_id t = id.
Proof.
  induction l as [|u l IH]; simpl; [discriminate|].
  destruct (task_id u =? id) eqn:E.
  - intros [= <-]. apply Nat.eqb_eq in E. auto.
  - intros H. destruct (IH H). auto.
Qed.

Lemma find_task_none (id : nat) (l : list task) :
  find_task id l = None -> forall t, In t l -> task_id t <> id.
Proof.
  induction l as [|u l IH]; simpl; [contradiction|].
  destruct (task_id u =? id) eqn:E; [discriminate|].
  intros H t [<-|Ht]; [now apply Nat.eqb_neq | now apply IH].
Qed.

Lemma NoDup_map_inj {A B} (f : A -> B) (l : list A) (x y : A) :
  NoDup (map f l) -> In x l -> In y l -> f x = f y -> x = y.
Proof.
  induction l as [|a l IH]; simpl; [contradiction|].
  intros Hnd Hx Hy Hf. inversion Hnd as [|? ? Hnotin Hnd']; subst.
  destruct Hx as [<-|Hx], Hy as [<-|Hy]; auto.
  - exfalso. apply Hnotin. rewrite Hf. now apply in_map.
  - exfalso. apply Hnotin. rewrite <- Hf. now apply in_map.
Qed.

Lemma wait_spec (w : world) (T : list task) :
  NoDup (map task_id T) ->
  forall fuel ex t,
    known ex T -> In t T -> (List.length (running ex) <= fuel)%nat ->
    exists ex',
      wait w fuel ex (task_id t) = (ex', Some (task_outcome t)) /\ known ex' T.
Proof.
  intros Hnd. induction fuel as [|fuel IH]; intros ex t Hk Ht Hfuel; simpl.
  - destruct (find_task (task_id t) (finished ex)) as [u|] eqn:F.
    + apply find_task_some in F. destruct F as [Hu Hid].
      assert (u = t) as ->.
      { apply (NoDup_map_inj task_id T); auto.
        apply (Permutation_in _ Hk). apply in_or_app. now right. }
      eauto.
    + exfalso. destruct (running ex) eqn:R; [|simpl in Hfuel; lia].
      unfold known in Hk. rewrite R in Hk. simpl in Hk.
      apply (find_task_none _ _ F t); [|reflexivity].
      apply (Permutation_in _ (Permutation_sym Hk) Ht).
  - destruct (find_task (task_id t) (finished ex)) as [u|] eqn:F.
    + apply find_task_some in F. destruct F as [Hu Hid].
      assert (u = t) as ->.
      { apply (NoDup_map_inj task_id T); auto.
        apply (Permutation_in _ Hk). apply in_or_app. now right. }
      eauto.
    + apply IH; auto using complete_next_known.
      rewrite complete_next_running. lia.
Qed.

Lemma result_spec (w : world) (T : list task) (t : task) (s : state) :
  NoDup (map task_id T) -> known (fx s) T -> In t T ->
  exists ex',
    result w (task_id t) s = (task_outcome t, with_fx s ex') /\ known ex' T.
Proof.
  intros Hnd Hk Ht. unfold result.
  destruct (wait_spec w T Hnd _ (fx s) t Hk Ht (le_n _)) as [ex' [E Hk']].
  rewrite E. exists ex'. split; [reflexivity | assumption].
Qed.

(** ** Symbolic execution of the monadic code *)

Lemma state_eta (s : state) :
  s = {| global_model := global_model s; fx := fx s; trace := trace s |}.
Proof. now destruct s. Qed.

Lemma tasks_of_ids (w : world) (i : nat) (js : list job) (n0 : nat) :
  map task_id (tasks_of w i n0 js) = seq n0 (List.length js).
Proof.
  unfold tasks_of. revert n0. induction js as [|j js IH]; intros n0; simpl.
  - reflexivity.
  - now rewrite IH.
Qed.

Lemma tasks_of_outcomes (w : world) (i : nat) (js : list job) (n0 : nat) :
  map task_outcome (tasks_of w i n0 js) = answers w i n0 js.
Proof.
  unfold tasks_of, answers. revert n0.
  induction js as [|j js IH]; intros n0; simpl.
  - reflexivity.
  - now rewrite IH.
Qed.

Lemma mapM_submit (w : world) (i : nat) (mk : string -> job) (es : list string) :
  forall s,
    mapM (fun e => submit w i (mk e)) es s
    = (Ok (seq (List.length (running (fx s)) + List.length (finished (fx s)))
               (List.length es)),
       {| global_model := global_model s;
          fx := {| running :=
                     running (fx s)
                     ++ tasks_of w i (List.length (running (fx s))
                                      + List.length (finished (fx s)))
                                 (map mk es);
                   finished := finished (fx s) |};
          trace := trace s ++ map Submit (map mk es) |}).
Proof.
  induction es as [|e es IH]; intros s.
  - destruct s as [m [r f] tr]. unfold tasks_of. simpl.
    now rewrite !app_nil_r.
  - cbn [mapM]. unfold bind at 1. unfold submit at 1.
    unfold bind at 1. rewrite IH. cbn [global_model fx trace running finished].
    unfold ret. rewrite length_app. cbn [List.length map].
    replace (List.length (running (fx s)) + 1 + List.length (finished (fx s)))%nat
      with (S (List.length (running (fx s)) + List.length (finished (fx s))))
      by lia.
    rewrite <- !app_assoc. reflexivity.
Qed.

Lemma mapM_result (w : world) {B} (g : train_result -> B) (T : list task) :
  NoDup (map task_id T) ->
  forall ts s,
    incl ts T -> known (fx s) T ->
    exists ex',
      mapM (fun t => r <- result w t ;; ret (g r)) (map task_id ts) s
      = (match collect (map task_outcome ts) with
         | Ok rs => Ok (map g rs)
         | Raise e => Raise e
         end, with_fx s ex')
      /\ known ex' T.
Proof.
  intros Hnd. induction ts as [|t ts IH]; intros s Hin Hk.
  - exists (fx s). split; [|assumption]. destruct s; reflexivity.
  - assert (Ht : In t T) by (apply Hin; now left).
    assert (Hts : incl ts T) by (intros x Hx; apply Hin; now right).
    destruct (result_spec w T t s Hnd Hk Ht) as [ex1 [E1 K1]].
    cbn [mapM map collect]. unfold bind at 1. unfold bind at 1. rewrite E1.
    destruct (task_outcome t) as [r|e].
    + unfold ret at 1. unfold bind at 1.
      destruct (IH (with_fx s ex1) Hts K1) as [ex2 [E2 K2]].
      rewrite E2. exists ex2. split; [|assumption].
      destruct (collect (map task_outcome ts)); reflexivity.
    + exists ex1. split; [reflexivity | assumption].
Qed.

Lemma for_each_log_scores (out : list (string * npfloat)) :
  forall s,
    for_each out (fun p => log (PrintScore (fst p) (snd p))) s
    = (Ok tt, {| global_model := global_model s; fx := fx s;
                 trace := trace s
                          ++ map (fun p => PrintScore (fst p) (snd p)) out |}).
Proof.
  induction out as [|p out IH]; intros s.
  - simpl. unfold ret. rewrite app_nil_r. now rewrite <- state_eta.
  - cbn [for_each map]. unfold bind, log at 1. rewrite IH.
    cbn [global_model fx trace]. now rewrite <- app_assoc.
Qed.

Lemma evaluate_step_spec (a : arguments) (s : state) :
  evaluate_step a s
  = (snd (eval_events a (global_model s)),
     {| global_model := global_model s; fx := fx s;
        trace := trace s ++ fst (eval_events a (global_model s)) |}).
Proof.
  unfold evaluate_step, eval_events, callable.
  destruct (x_test a) as [x|], (y_test a) as [y|];
    try (destruct (call (evaluation_function a)); unfold ret; cbn [fst snd];
         now rewrite app_nil_r, <- state_eta).
  destruct (call (evaluation_function a)) as [f|];
    destruct (truthy (evaluation_function a)); cbn [andb fst snd];
    try (unfold ret; now rewrite app_nil_r, <- state_eta).
  unfold apply_callback, bind, log at 1. rewrite for_each_log_scores.
  cbn [global_model fx trace]. unfold lift.
  rewrite <- app_assoc. cbn [app].
  destruct (snd (f (global_model s) x y)); reflexivity.
Qed.

Lemma finish_round_spec (a : arguments) (i : nat) (avg : ndarray) (s : state) :
  finish_round a i avg s
  = (fst (fst (finish_events a i avg (global_model s))),
     {| global_model := snd (fst (finish_events a i avg (global_model s)));
        fx := fx s;
        trace := trace s ++ snd (finish_events a i avg (global_model s)) |}).
Proof.
  unfold finish_round, finish_events, bind, set_weights.
  destruct avg as [x|p]; cbn [fst snd].
  - now rewrite app_nil_r, <- state_eta.
  - destruct (same_shape p (weights (global_model s)));
      [|cbn [fst snd]; now rewrite app_nil_r, <- state_eta].
    unfold log at 1. rewrite evaluate_step_spec.
    cbn [global_model fx trace].
    destruct (snd (eval_events a _)) as [[]|e]; cbn [fst snd].
    + unfold sleep. destruct (time_interval a <? 0)%Z; cbn [fst snd].
      * unfold raise. now rewrite <- !app_assoc.
      * unfold log. cbn [global_model fx trace fst snd].
        now rewrite <- !app_assoc.
    + now rewrite <- !app_assoc.
Qed.

Lemma aggregate_spec (w : world) (a : arguments) (T : list task)
    (rs : list train_result) (s : state) :
  NoDup (map task_id T) -> known (fx s) T ->
  collect (map task_outcome T) = Ok rs ->
  exists ex',
    aggregate w a (map task_id T) (map model_weights rs) s
    = (aggregate_results (federated_mode a) rs, with_fx s ex').
Proof.
  intros Hnd Hk Hrs. unfold aggregate, aggregate_results.
  destruct (String.eqb (federated_mode a) "average").
  - exists (fx s). unfold lift, with_fx. now rewrite <- state_eta.
  - destruct (String.eqb (federated_mode a) "weighted_average").
    + destruct (mapM_result w samples_count T Hnd T s (incl_refl T) Hk)
        as [ex1 [E1 _]].
      unfold bind at 1. rewrite E1, Hrs. unfold bind, lift.
      exists ex1. unfold get_edge_weights. reflexivity.
    + exists (fx s). unfold raise, with_fx. now rewrite <- state_eta.
Qed.

(** The loop body, as a function of the model it starts on: only the
    executor it leaves depends on anything else. *)
Lemma fl_round_obs (w : world) (a : arguments) (i : nat) (s : state) :
  exists ex',
    fl_round w a i s
    = (fst (fst (round_events w a i (global_model s))),
       {| global_model := snd (fst (round_events w a i (global_model s)));
          fx := ex';
          trace := trace s ++ snd (round_events w a i (global_model s)) |}).
Proof.
  unfold fl_round, round_events, jobs_of.
  unfold bind at 1. unfold to_json at 1.
  unfold bind at 1. unfold get_weights at 1.
  unfold bind at 1. unfold asarray_object at 1, np_asarray_object.
  fold (packs (global_model s)).
  destruct (packs (global_model s)) eqn:Pk;
    [|exists (fx s); cbn [fst snd]; now rewrite app_nil_r, <- state_eta].
  unfold bind at 1. unfold set_fx at 1.
  unfold bind at 1. rewrite mapM_submit.
  cbn [global_model fx trace running finished new_executor List.length
       Nat.add app].
  set (js := map (make_job a (architecture (global_model s))
                           (weights (global_model s))) (endpoint_ids a)).
  set (T := tasks_of w i 0 js).
  replace (List.length (endpoint_ids a)) with (List.length js)
    by (unfold js; apply length_map).
  rewrite <- (tasks_of_ids w i js 0). fold T.
  set (s1 := {| global_model := global_model s;
                fx := {| running := T; finished := [] |};
                trace := trace s ++ map Submit js |}).
  assert (Hnd : NoDup (map task_id T))
    by (unfold T; rewrite tasks_of_ids; apply seq_NoDup).
  assert (Hk : known (fx s1) T)
    by (unfold known, s1; cbn; now rewrite app_nil_r).
  destruct (mapM_result w model_weights T Hnd T s1 (incl_refl T) Hk)
    as [ex1 [E1 K1]].
  unfold bind at 1. rewrite E1.
  assert (HO : map task_outcome T = answers w i 0 js)
    by (unfold T; apply tasks_of_outcomes).
  rewrite HO.
  destruct (collect (answers w i 0 js)) as [rs|e] eqn:C.
  - assert (C' : collect (map task_outcome T) = Ok rs) by now rewrite HO.
    destruct (aggregate_spec w a T rs (with_fx s1 ex1) Hnd K1 C')
      as [ex2 E2].
    unfold bind at 1. rewrite E2.
    destruct (aggregate_results (federated_mode a) rs) as [avg|e].
    + exists ex2. fold (finish_round a i avg). rewrite finish_round_spec.
      cbn [global_model fx trace with_fx s1].
      destruct (finish_events a i avg (global_model s)) as [[r m'] evs].
      cbn [fst snd]. now rewrite <- app_assoc.
    + exists ex2. reflexivity.
  - exists ex1. reflexivity.
Qed.

Lemma for_each_rounds_obs (w : world) (a : arguments) (rounds : list nat) :
  forall s,
    exists ex',
      for_each rounds (fl_round w a) s
      = (fst (fst (rounds_events w a rounds (global_model s))),
         {| global_model := snd (fst (rounds_events w a rounds (global_model s)));
            fx := ex';
            trace := trace s ++ snd (rounds_events w a rounds (global_model s)) |}).
Proof.
  induction rounds as [|i rounds IH]; intros s.
  - exists (fx s). cbn. unfold ret. now rewrite app_nil_r, <- state_eta.
  - cbn [for_each rounds_events]. unfold bind.
    destruct (fl_round_obs w a i s) as [ex1 E1]. rewrite E1.
    destruct (round_events w a i (global_model s)) as [[[[]|e] m1] evs];
      cbn [fst snd].
    + match goal with |- context [for_each rounds _ ?s1] =>
        destruct (IH s1) as [ex2 E2]; rewrite E2 end.
      cbn [global_model fx trace].
      destruct (rounds_events w a rounds m1) as [[r m2] evs'].
      cbn [fst snd]. exists ex2. now rewrite app_assoc.
    + exists ex1. reflexivity.
Qed.

(** The whole function, as a function of the model it is called on. *)
Lemma run_obs (w : world) (a : arguments) (m : gmodel) :
  exists ex',
    run w a m
    = (match fst (fst (rounds_events w a (seq 0 (Z.to_nat (loops a))) m)) with
       | Ok _ => Ok (snd (fst (rounds_events w a (seq 0 (Z.to_nat (loops a))) m)))
       | Raise e => Raise e
       end,
       {| global_model := snd (fst (rounds_events w a (seq 0 (Z.to_nat (loops a))) m));
          fx := ex';
          trace := snd (rounds_events w a (seq 0 (Z.to_nat (loops a))) m) |}).
Proof.
  unfold run, federated_learning, initial_state.
  unfold bind at 1. unfold set_fx at 1. cbn [global_model fx trace].
  unfold bind at 1.
  match goal with |- context [for_each _ _ ?s1] =>
    destruct (for_each_rounds_obs w a (seq 0 (Z.to_nat (loops a))) s1)
      as [ex' E]; rewrite E end.
  cbn [global_model fx trace app].
  exists ex'.
  destruct (rounds_events w a (seq 0 (Z.to_nat (loops a))) m) as [[[[]|e] m'] evs];
    reflexivity.
Qed.

(** ** Rounds *)

(** What a round that completes went through. *)
Lemma round_events_ok (w : world) (a : arguments) (i : nat) (m m1 : gmodel)
    (u : unit) (evs : list event) :
  round_events w a i m = (Ok u, m1, evs) ->
  exists rs p,
    collect (answers w i 0 (jobs_of a m)) = Ok rs
    /\ aggregate_results (federated_mode a) rs = Ok (Tensors p)
    /\ same_shape p (weights m) = true
    /\ m1 = {| architecture := architecture m;
               weight_shapes := weight_shapes m; weights := p |}
    /\ snd (eval_events a m1) = Ok tt
    /\ (0 <= time_interval a)%Z
    /\ evs = map Submit (jobs_of a m)
             ++ [SetWeights p; PrintEpoch i]
             ++ fst (eval_events a m1) ++ [Sleep (time_interval a)].
Proof.
  unfold round_events. destruct (packs m); [|discriminate].
  destruct (collect (answers w i 0 (jobs_of a m))) as [rs|e] eqn:C;
    [|discriminate].
  destruct (aggregate_results (federated_mode a) rs) as [avg|e] eqn:Ag;
    [|discriminate].
  unfold finish_events. destruct avg as [x|p]; [discriminate|].
  destruct (same_shape p (weights m)) eqn:S; [|discriminate].
  destruct (snd (eval_events a _)) as [[]|e] eqn:Ev; [|discriminate].
  destruct (time_interval a <? 0)%Z eqn:Ti; [discriminate|].
  intros [= <- <- <-]. exists rs, p. apply Z.ltb_ge in Ti.
  repeat (split; [assumption || reflexivity|]). reflexivity.
Qed.

(** A round that completes started on a model whose weights go into one
    array of objects. *)
Lemma round_events_ok_packs (w : world) (a : arguments) (i : nat)
    (m m1 : gmodel) (u : unit) (evs : list event) :
  round_events w a i m = (Ok u, m1, evs) -> packs m = true.
Proof. unfold round_events. destruct (packs m); [reflexivity|discriminate]. Qed.

(** A round started on a model whose weights do not go into one array of
    objects fails at once. *)
Lemma round_events_unpacked (w : world) (a : arguments) (i : nat) (m : gmodel) :
  packs m = false ->
  round_events w a i m = (Raise (ValueError could_not_broadcast), m, [])
  /\ jobs_of a m = [].
Proof. intros H. unfold round_events, jobs_of. now rewrite H. Qed.

Lemma jobs_of_packs (a : arguments) (m : gmodel) :
  packs m = true ->
  jobs_of a m = map (make_job a (architecture m) (weights m)) (endpoint_ids a).
Proof. intros H. unfold jobs_of. now rewrite H. Qed.

(** Where jobs were submitted, the weights went into one array. *)
Lemma jobs_of_submitted (a : arguments) (m : gmodel) :
  jobs_of a m <> [] -> packs m = true.
Proof. unfold jobs_of. destruct (packs m); [reflexivity|congruence]. Qed.

(** A round that fails before its commit leaves the model as it was and has
    only submitted its jobs. *)
Lemma round_events_collect_error (w : world) (a : arguments) (i : nat)
    (m : gmodel) (e : exn) :
  collect (answers w i 0 (jobs_of a m)) = Raise e ->
  round_events w a i m = (Raise e, m, map Submit (jobs_of a m)).
Proof.
  intros H. unfold round_events. destruct (packs m) eqn:Pk; [now rewrite H|].
  unfold jobs_of in H. rewrite Pk in H. discriminate.
Qed.

Lemma rounds_events_app (w : world) (a : arguments) (l1 l2 : list nat) :
  forall m,
    rounds_events w a (l1 ++ l2) m
    = match rounds_events w a l1 m with
      | (Ok _, m1, evs) =>
          let '(r, m2, evs') := rounds_events w a l2 m1 in (r, m2, evs ++ evs')
      | (Raise e, m1, evs) => (Raise e, m1, evs)
      end.
Proof.
  induction l1 as [|i l1 IH]; intros m.
  - cbn. now destruct (rounds_events w a l2 m) as [[r m2] evs].
  - cbn [app rounds_events].
    destruct (round_events w a i m) as [[[[]|e] m1] evs]; [|reflexivity].
    rewrite IH.
    destruct (rounds_events w a l1 m1) as [[[[]|e] m2] evs1]; [|reflexivity].
    destruct (rounds_events w a l2 m2) as [[r m3] evs2].
    now rewrite app_assoc.
Qed.

(** The first exception among the outcomes, in order. *)
Lemma collect_first_error {A} (outs : list (res A)) (k : nat) (e : exn) :
  nth_error outs k = Some (Raise e) ->
  (forall j, (j < k)%nat -> exists r, nth_error outs j = Some (Ok r)) ->
  collect outs = Raise e.
Proof.
  revert k. induction outs as [|o outs IH]; intros k Hk Hbefore.
  - destruct k; discriminate.
  - destruct k as [|k].
    + injection Hk as ->. reflexivity.
    + destruct (Hbefore 0%nat ltac:(lia)) as [r Hr]. injection Hr as ->.
      cbn [collect]. rewrite (IH k); auto.
      intros j Hj. apply (Hbefore (S j)). lia.
Qed.

Lemma collect_error_first {A} (outs : list (res A)) (e : exn) :
  collect outs = Raise e ->
  exists k,
    nth_error outs k = Some (Raise e)
    /\ forall j, (j < k)%nat -> exists r, nth_error outs j = Some (Ok r).
Proof.
  induction outs as [|o outs IH]; [discriminate|].
  cbn [collect]. destruct o as [r|e'].
  - destruct (collect outs) as [rs|e'']; [discriminate|].
    intros [= ->]. destruct (IH eq_refl) as [k [Hk Hb]].
    exists (S k). split; [exact Hk|].
    intros [|j] Hj; [now exists r|]. apply Hb. lia.
  - intros [= ->]. exists 0%nat. split; [reflexivity|]. intros j Hj. lia.
Qed.

Lemma collect_some_error {A} (outs : list (res A)) (e0 : exn) :
  In (Raise e0) outs -> exists e, collect outs = Raise e.
Proof.
  induction outs as [|o outs IH]; [contradiction|].
  intros [->|Hin]; [now exists e0|].
  cbn [collect]. destruct o as [r|e]; [|now exists e].
  destruct (IH Hin) as [e He]. rewrite He. now exists e.
Qed.

Lemma collect_ok_nth {A} (outs : list (res A)) (rs : list A) :
  collect outs = Ok rs -> outs = map Ok rs.
Proof.
  revert rs. induction outs as [|o outs IH]; intros rs.
  - intros [= <-]. reflexivity.
  - cbn [collect]. destruct o as [r|e]; [|discriminate].
    destruct (collect outs) as [rs'|e]; [|discriminate].
    intros [= <-]. cbn. now rewrite (IH rs').
Qed.

(** ** Counting events *)

Lemma count_app (p : event -> bool) (l1 l2 : list event) :
  count p (l1 ++ l2) = (count p l1 + count p l2)%nat.
Proof. unfold count. now rewrite filter_app, length_app. Qed.

Lemma count_submit_jobs (js : list job) :
  count is_submit (map Submit js) = List.length js.
Proof.
  unfold count. induction js as [|j js IH]; cbn; [reflexivity|]. now rewrite IH.
Qed.

Lemma count_other_jobs (p : event -> bool) (js : list job) :
  (forall j, p (Submit j) = false) -> count p (map Submit js) = 0%nat.
Proof.
  intros H. unfold count. induction js as [|j js IH]; cbn; [reflexivity|].
  now rewrite H.
Qed.

Lemma length_jobs_of (a : arguments) (m : gmodel) :
  packs m = true ->
  List.length (jobs_of a m) = List.length (endpoint_ids a).
Proof. intros H. rewrite (jobs_of_packs a m H). apply length_map. Qed.

(** ** No round at all *)

(** C10.  Called with [loops = 0], [federated_learning] returns the model
    with its weights unchanged and leaves an empty trace: no job is
    submitted to any endpoint and no evaluation callback is invoked. *)
Theorem zero_loops_is_a_no_op (w : world) (a : arguments) (m : gmodel) :
  loops a = 0%Z ->
  run w a m = (Ok m, initial_state m)
  /\ weights (global_model (snd (run w a m))) = weights m
  /\ count is_submit (trace (snd (run w a m))) = 0%nat
  /\ count is_evaluate (trace (snd (run w a m))) = 0%nat.
Proof.
  intros H.
  assert (E : run w a m = (Ok m, initial_state m)).
  { unfold run, federated_learning. rewrite H. reflexivity. }
  rewrite E. repeat split.
Qed.

(** C10, witness: the default mode on two endpoints, with [loops = 0] and
    test data supplied. *)
Lemma zero_loops_is_a_no_op_witness :
  run two_endpoints (toy_call two_endpoints "average" 0 (Some [])) toy_model
  = (Ok toy_model, initial_state toy_model)
  /\ weights (global_model (snd (run two_endpoints
        (toy_call two_endpoints "average" 0 (Some [])) toy_model)))
     = weights toy_model
  /\ count is_submit (trace (snd (run two_endpoints
        (toy_call two_endpoints "average" 0 (Some [])) toy_model))) = 0%nat
  /\ count is_evaluate (trace (snd (run two_endpoints
        (toy_call two_endpoints "average" 0 (Some [])) toy_model))) = 0%nat.
Proof.
  apply (zero_loops_is_a_no_op two_endpoints
           (toy_call two_endpoints "average" 0 (Some [])) toy_model).
  reflexivity.
Defined.

(** ** An unsupported mode *)

Lemma aggregate_results_unrecognized (mode : string) (rs : list train_result) :
  mode <> "average"%string -> mode <> "weighted_average"%string ->
  aggregate_results mode rs = Raise (Exception (unrecognized_mode mode)).
Proof.
  intros H1 H2. unfold aggregate_results.
  apply String.eqb_neq in H1, H2. now rewrite H1, H2.
Qed.

Lemma seq_positive (n : Z) :
  (0 < n)%Z -> seq 0 (Z.to_nat n) = 0%nat :: seq 1 (Z.to_nat n - 1).
Proof.
  intros H. destruct (Z.to_nat n) as [|k] eqn:E; [lia|].
  cbn. now rewrite Nat.sub_0_r.
Qed.

(** C1 (as amended).  With a [federated_mode] outside [average] and
    [weighted_average], a run of at least one round fails in its first round
    and leaves the model untouched, but the mode is not what is looked at
    first.  If the weights of the model go into one array of objects (line
    190), the failure comes only after the dispatch and the collection: one
    job per endpoint has been submitted, in the order of [endpoint_ids]; the
    run then fails with the exception of the unrecognized mode (or with the
    first exception of a task, if a task failed).  If they do not, the run
    fails at line 190 with numpy's [ValueError], before any dispatch.  With
    no round to run the mode is never examined and the call returns the
    model. *)
Theorem unrecognized_mode_fails_after_dispatch (w : world) (a : arguments)
    (m : gmodel) :
  federated_mode a <> "average"%string ->
  federated_mode a <> "weighted_average"%string ->
  ((0 < loops a)%Z ->
     (packs m = true ->
        fst (run w a m)
        = match collect (answers w 0 0 (jobs_of a m)) with
          | Ok _ => Raise (Exception (unrecognized_mode (federated_mode a)))
          | Raise e => Raise e
          end
        /\ jobs_of a m
           = map (make_job a (architecture m) (weights m)) (endpoint_ids a)
        /\ trace (snd (run w a m)) = map Submit (jobs_of a m)
        /\ count is_submit (trace (snd (run w a m)))
           = List.length (endpoint_ids a))
     /\ (packs m = false ->
           fst (run w a m) = Raise (ValueError could_not_broadcast)
           /\ trace (snd (run w a m)) = [])
     /\ global_model (snd (run w a m)) = m)
  /\ ((loops a <= 0)%Z ->
        fst (run w a m) = Ok m /\ trace (snd (run w a m)) = []).
Proof.
  intros H1 H2. split.
  - intros Hl. destruct (run_obs w a m) as [ex E]. rewrite E. cbn [fst snd].
    rewrite (seq_positive _ Hl). cbn [rounds_events global_model trace].
    destruct (packs m) eqn:Pk.
    + split; [intros _|split; [discriminate|]];
        unfold round_events; rewrite Pk;
        destruct (collect (answers w 0 0 (jobs_of a m))) as [rs|e];
        try rewrite (aggregate_results_unrecognized _ rs H1 H2);
        cbn [fst snd]; rewrite ?count_submit_jobs, ?(length_jobs_of a m Pk),
                               ?(jobs_of_packs a m Pk); auto.
    + destruct (round_events_unpacked w a 0 m Pk) as [-> _]. cbn [fst snd].
      split; [discriminate|]. auto.
  - intros Hl. unfold run, federated_learning.
    replace (Z.to_nat (loops a)) with 0%nat by lia. now cbn.
Qed.

(** C1, witness: the mode ["median"] on two endpoints, one round; on the
    toy model both endpoints get a job, on the dense model none does. *)
Lemma unrecognized_mode_fails_after_dispatch_witness :
  (fst (run two_endpoints median_call toy_model)
   = Raise (Exception (unrecognized_mode "median"))
   /\ global_model (snd (run two_endpoints median_call toy_model)) = toy_model
   /\ trace (snd (run two_endpoints median_call toy_model))
      = map Submit (jobs_of median_call toy_model)
   /\ count is_submit (trace (snd (run two_endpoints median_call toy_model)))
      = 2%nat)
  /\ fst (run two_endpoints median_call dense_model)
     = Raise (ValueError could_not_broadcast)
  /\ trace (snd (run two_endpoints median_call dense_model)) = [].
Proof.
  destruct (unrecognized_mode_fails_after_dispatch two_endpoints median_call
              toy_model) as [H _]; [discriminate..|].
  destruct (unrecognized_mode_fails_after_dispatch two_endpoints median_call
              dense_model) as [H' _]; [discriminate..|].
  destruct (H eq_refl) as [Hp [_ H2]].
  destruct (Hp eq_refl) as [H1 [_ [H3 H4]]].
  destruct (H' eq_refl) as [_ [Hn _]].
  destruct (Hn eq_refl) as [H5 H6].
  repeat split; assumption.
Defined.

(** C1, counterexample.  The mode ["median"] is outside the supported
    modes, the run fails, and yet both endpoints have received a job: the
    failure comes after the dispatch, not before it. *)
Lemma unrecognized_mode_dispatches :
  federated_mode median_call <> "average"%string
  /\ federated_mode median_call <> "weighted_average"%string
  /\ fst (run two_endpoints median_call toy_model)
     = Raise (Exception (unrecognized_mode "median"))
  /\ count is_submit (trace (snd (run two_endpoints median_call toy_model)))
     = 2%nat
  /\ count is_submit (trace (snd (run two_endpoints median_call toy_model)))
     <> 0%nat.
Proof.
  repeat split; try discriminate; vm_compute; try reflexivity; discriminate.
Qed.

(** ** A failing task *)

Lemma seq_split (i n : nat) :
  (i < n)%nat -> seq 0 n = seq 0 i ++ i :: seq (S i) (n - S i).
Proof.
  intros H. replace n with (i + S (n - S i))%nat at 1 by lia.
  rewrite seq_app. reflexivity.
Qed.

(** C3.  If, in round [i] of a run whose earlier rounds completed, some
    dispatched task fails, then the collection of the results raises the
    first exception in the order of submission, which is the order in
    which the futures are awaited; the whole run raises that exception; and
    the model is the one the round started on: its weights are those of the
    last commit, and the round has added nothing but its submissions to the
    trace. *)
Theorem failed_task_aborts_run (w : world) (a : arguments) (m : gmodel)
    (i : nat) (s_i : state) (e0 : exn) :
  (i < Z.to_nat (loops a))%nat ->
  for_each (seq 0 i) (fl_round w a) (initial_state m) = (Ok tt, s_i) ->
  In (Raise e0) (answers w i 0 (jobs_of a (global_model s_i))) ->
  exists k e,
    nth_error (answers w i 0 (jobs_of a (global_model s_i))) k = Some (Raise e)
    /\ (forall j, (j < k)%nat ->
          exists r,
            nth_error (answers w i 0 (jobs_of a (global_model s_i))) j
            = Some (Ok r))
    /\ fst (fl_round w a i s_i) = Raise e
    /\ global_model (snd (fl_round w a i s_i)) = global_model s_i
    /\ fst (run w a m) = Raise e
    /\ global_model (snd (run w a m)) = global_model s_i
    /\ trace (snd (run w a m))
       = trace s_i ++ map Submit (jobs_of a (global_model s_i))
    /\ count is_set_weights (trace (snd (run w a m)))
       = count is_set_weights (trace s_i).
Proof.
  intros Hi Hprev Hfail.
  destruct (collect_some_error _ e0 Hfail) as [e He].
  destruct (collect_error_first _ e He) as [k [Hk Hbefore]].
  exists k, e. split; [exact Hk|]. split; [exact Hbefore|].
  pose proof (round_events_collect_error w a i (global_model s_i) e He) as Hr.
  destruct (fl_round_obs w a i s_i) as [ex1 E1]. rewrite E1, Hr. cbn [fst snd].
  split; [reflexivity|]. split; [reflexivity|].
  destruct (for_each_rounds_obs w a (seq 0 i) (initial_state m)) as [ex0 E0].
  rewrite Hprev in E0. cbn [initial_state global_model trace app] in E0.
  destruct (rounds_events w a (seq 0 i) m) as [[r0 m0] evs0] eqn:R0.
  cbn [fst snd] in E0. injection E0 as <- ->. cbn [global_model trace] in *.
  destruct (run_obs w a m) as [ex E]. rewrite E. cbn [fst snd].
  rewrite (seq_split i _ Hi), rounds_events_app, R0.
  cbn [rounds_events]. rewrite Hr. cbn [fst snd global_model trace].
  repeat split. rewrite count_app, count_other_jobs; [lia | reflexivity].
Qed.

(** C3, witness: two endpoints, two rounds; in the second round the second
    endpoint fails.  The run reports that failure and the model is the one
    committed by the first round. *)
Lemma failed_task_aborts_run_witness :
  fst (run failing_in_round_1 failing_call toy_model)
  = Raise (RemoteError "endpoint failed")
  /\ count is_set_weights
       (trace (snd (run failing_in_round_1 failing_call toy_model))) = 1%nat.
Proof.
  destruct (failed_task_aborts_run failing_in_round_1 failing_call toy_model 1
              (snd (for_each (seq 0 1) (fl_round failing_in_round_1 failing_call)
                             (initial_state toy_model)))
              (RemoteError "endpoint failed"))
    as [k [e [_ [_ [_ [_ [Hrun [_ [_ Hc]]]]]]]]].
  - vm_compute. lia.
  - vm_compute. reflexivity.
  - vm_compute. right. left. reflexivity.
  - split.
    + pose proof Hrun as He. vm_compute in He.
      transitivity (@Raise gmodel e); [exact Hrun | now symmetry].
    + rewrite Hc. vm_compute. reflexivity.
Defined.

(** ** The trace of a run *)

Lemma skeleton_app (l1 l2 : list event) :
  skeleton (l1 ++ l2) = skeleton l1 ++ skeleton l2.
Proof. apply flat_map_app. Qed.

Lemma committed_app (l1 l2 : list event) :
  committed (l1 ++ l2) = committed l1 ++ committed l2.
Proof. apply flat_map_app. Qed.

Lemma skeleton_jobs (js : list job) :
  skeleton (map Submit js) = repeat Dispatch (List.length js).
Proof. induction js as [|j js IH]; cbn; [reflexivity|]. now rewrite <- IH. Qed.

Lemma committed_jobs (js : list job) : committed (map Submit js) = [].
Proof. induction js as [|j js IH]; cbn; auto. Qed.

Lemma eval_events_shape (a : arguments) (m : gmodel) :
  fst (eval_events a m) = []
  \/ exists x y out,
       x_test a = Some x /\ y_test a = Some y /\ eval_enabled a = true
       /\ fst (eval_events a m)
          = Evaluate (weights m) x y
              :: map (fun p => PrintScore (fst p) (snd p)) out.
Proof.
  unfold eval_events, eval_enabled, callable.
  destruct (x_test a) as [x|]; [|now left].
  destruct (y_test a) as [y|]; [|now left].
  destruct (call (evaluation_function a)) as [f|]; [|now left].
  destruct (truthy (evaluation_function a)); [|now left].
  right. exists x, y, (fst (f m x y)). auto.
Qed.

Lemma eval_events_disabled (a : arguments) (m : gmodel) :
  eval_enabled a = false -> fst (eval_events a m) = [].
Proof.
  intros H. destruct (eval_events_shape a m) as [E|[x [y [out [_ [_ [En _]]]]]]];
    [exact E | congruence].
Qed.

Lemma skeleton_scores (out : list (string * npfloat)) :
  skeleton (map (fun p => PrintScore (fst p) (snd p)) out) = [].
Proof. induction out; cbn; auto. Qed.

Lemma committed_scores (out : list (string * npfloat)) :
  committed (map (fun p => PrintScore (fst p) (snd p)) out) = [].
Proof. induction out; cbn; auto. Qed.

Lemma count_scores (p : event -> bool) (out : list (string * npfloat)) :
  (forall l v, p (PrintScore l v) = false) ->
  count p (map (fun q => PrintScore (fst q) (snd q)) out) = 0%nat.
Proof.
  intros H. unfold count. induction out as [|q out IH]; cbn; [reflexivity|].
  now rewrite H.
Qed.

Lemma filter_scores (p : event -> bool) (out : list (string * npfloat)) :
  (forall l v, p (PrintScore l v) = false) ->
  filter p (map (fun q => PrintScore (fst q) (snd q)) out) = [].
Proof.
  intros H. induction out as [|q out IH]; cbn; [reflexivity|]. now rewrite H.
Qed.

Lemma filter_jobs (p : event -> bool) (js : list job) :
  (forall j, p (Submit j) = false) -> filter p (map Submit js) = [].
Proof.
  intros H. induction js as [|j js IH]; cbn; [reflexivity|]. now rewrite H.
Qed.

Lemma skeleton_eval_events (a : arguments) (m : gmodel) :
  skeleton (fst (eval_events a m)) = [].
Proof.
  destruct (eval_events_shape a m) as [->|[x [y [out [_ [_ [_ ->]]]]]]];
    [reflexivity|]. cbn. apply skeleton_scores.
Qed.

Lemma committed_eval_events (a : arguments) (m : gmodel) :
  committed (fst (eval_events a m)) = [].
Proof.
  destruct (eval_events_shape a m) as [->|[x [y [out [_ [_ [_ ->]]]]]]];
    [reflexivity|]. cbn. apply committed_scores.
Qed.

Lemma count_eval_events (p : event -> bool) (a : arguments) (m : gmodel) :
  (forall l v, p (PrintScore l v) = false) ->
  (forall q x y, p (Evaluate q x y) = false) ->
  count p (fst (eval_events a m)) = 0%nat.
Proof.
  intros H1 H2.
  destruct (eval_events_shape a m) as [->|[x [y [out [_ [_ [_ ->]]]]]]];
    [reflexivity|].
  unfold count. cbn. rewrite H2. now apply count_scores.
Qed.

Lemma last_app {A} (l1 l2 : list A) (d : A) :
  last (l1 ++ l2) d = last l2 (last l1 d).
Proof.
  revert d. induction l2 as [|x l2 IH] using rev_ind; intros d.
  - now rewrite app_nil_r.
  - rewrite app_assoc, !last_last. reflexivity.
Qed.

(** The skeleton, the counts and the last commit of rounds that all
    complete. *)
Lemma rounds_events_ok (w : world) (a : arguments) (n : nat) :
  forall k m u m' evs,
    rounds_events w a (seq k n) m = (Ok u, m', evs) ->
    skeleton evs
    = flat_map (round_skeleton (List.length (endpoint_ids a))) (seq k n)
    /\ count is_submit evs = (n * List.length (endpoint_ids a))%nat
    /\ count is_set_weights evs = n
    /\ architecture m' = architecture m
    /\ weights m' = last (committed evs) (weights m).
Proof.
  induction n as [|n IH]; intros k m u m' evs.
  - cbn. intros [= <- <- <-]. repeat split.
  - cbn [seq rounds_events flat_map].
    destruct (round_events w a k m) as [[[[]|e] m1] evs1] eqn:R; [|discriminate].
    destruct (rounds_events w a (seq (S k) n) m1) as [[r m2] evs2] eqn:Rs.
    intros [= -> <- <-].
    pose proof (round_events_ok_packs _ _ _ _ _ _ _ R) as Pk.
    apply round_events_ok in R.
    destruct R as [rs [p [_ [_ [_ [-> [_ [_ ->]]]]]]]].
    destruct (IH _ _ _ _ _ Rs) as [Hs [Hc [Hw [Ha Hl]]]].
    rewrite !skeleton_app, !count_app, !committed_app, Hs, Hc, Hw.
    rewrite skeleton_jobs, skeleton_eval_events, committed_jobs,
      committed_eval_events, count_submit_jobs, (length_jobs_of a m Pk).
    rewrite (count_other_jobs is_set_weights) by reflexivity.
    rewrite !count_eval_events by reflexivity.
    cbn [skeleton committed flat_map marker_of committed_of app count filter
         is_submit is_set_weights List.length].
    unfold round_skeleton. rewrite <- !app_assoc. cbn [app].
    repeat split; try lia.
    + exact Ha.
    + rewrite Hl. cbn [weights].
      change (p :: committed evs2) with ([p] ++ committed evs2).
      now rewrite last_app.
Qed.

(** C7.  A run of [loops = N] rounds that does not fail performs the
    dispatch fan-out exactly [N] times (one submission per endpoint each time)
    and commits the model exactly [N] times, once per round and in the order
    of the rounds: the orchestration steps of its trace are, for the rounds
    [0], ..., [N-1] in order, the submissions of the round followed by its
    commit.  It returns the model, which holds the weights of the last
    commit. *)
Theorem rounds_dispatch_and_commit_once_each (w : world) (a : arguments)
    (m m' : gmodel) :
  fst (run w a m) = Ok m' ->
  skeleton (trace (snd (run w a m)))
  = flat_map (round_skeleton (List.length (endpoint_ids a)))
             (seq 0 (Z.to_nat (loops a)))
  /\ count is_submit (trace (snd (run w a m)))
     = (Z.to_nat (loops a) * List.length (endpoint_ids a))%nat
  /\ count is_set_weights (trace (snd (run w a m))) = Z.to_nat (loops a)
  /\ m' = global_model (snd (run w a m))
  /\ architecture m' = architecture m
  /\ weights m' = last (committed (trace (snd (run w a m)))) (weights m).
Proof.
  destruct (run_obs w a m) as [ex E]. rewrite E. cbn [fst snd global_model trace].
  destruct (rounds_events w a (seq 0 (Z.to_nat (loops a))) m)
    as [[[u|e] m1] evs] eqn:R; cbn [fst snd]; [|discriminate].
  intros [= <-].
  destruct (rounds_events_ok w a _ _ _ _ _ _ R) as [Hs [Hc [Hw [Ha Hl]]]].
  repeat split; assumption.
Qed.

(** C7, witness: three rounds on two endpoints.  The trace shows, three
    times over, two submissions followed by a commit. *)
Lemma rounds_dispatch_and_commit_once_each_witness :
  skeleton (trace (snd (run two_endpoints three_rounds toy_model)))
  = [Dispatch; Dispatch; Commit; Epoch 0;
     Dispatch; Dispatch; Commit; Epoch 1;
     Dispatch; Dispatch; Commit; Epoch 2]
  /\ count is_submit (trace (snd (run two_endpoints three_rounds toy_model)))
     = 6%nat
  /\ count is_set_weights (trace (snd (run two_endpoints three_rounds toy_model)))
     = 3%nat.
Proof.
  destruct (rounds_dispatch_and_commit_once_each two_endpoints three_rounds
              toy_model
              (global_model (snd (run two_endpoints three_rounds toy_model))))
    as [Hs [Hc [Hw _]]].
  - vm_compute. reflexivity.
  - rewrite Hs, Hc, Hw. repeat split.
Defined.

(** ** The evaluation step *)

Lemma filter_eval_events (a : arguments) (m : gmodel) :
  filter is_commit_or_evaluate (fst (eval_events a m))
  = match x_test a, y_test a with
    | Some x, Some y =>
        if eval_enabled a then [Evaluate (weights m) x y] else []
    | _, _ => []
    end.
Proof.
  unfold eval_events, eval_enabled, callable.
  destruct (x_test a) as [x|]; [|reflexivity].
  destruct (y_test a) as [y|]; [|reflexivity].
  destruct (call (evaluation_function a)) as [f|];
    [|now rewrite andb_false_r].
  destruct (truthy (evaluation_function a)); cbn; [|reflexivity].
  now rewrite filter_scores.
Qed.

(** Commits and evaluations of one round, whatever its outcome. *)
Lemma round_events_commits (w : world) (a : arguments) (i : nat) (m : gmodel) :
  (filter is_commit_or_evaluate (snd (round_events w a i m)) = []
   /\ is_ok (fst (fst (round_events w a i m))) = false)
  \/ exists p,
       filter is_commit_or_evaluate (snd (round_events w a i m))
       = commit_then_evaluate a p.
Proof.
  unfold round_events. destruct (packs m); [|left; split; reflexivity].
  destruct (collect (answers w i 0 (jobs_of a m))) as [rs|e];
    [|left; cbn; now rewrite filter_jobs].
  destruct (aggregate_results (federated_mode a) rs) as [[x|p]|e];
    try (left; cbn; rewrite ?app_nil_r; now rewrite filter_jobs).
  unfold finish_events.
  destruct (same_shape p (weights m));
    [|left; cbn; rewrite ?app_nil_r; now rewrite filter_jobs].
  right. exists p. unfold commit_then_evaluate.
  set (m' := {| architecture := architecture m;
                weight_shapes := weight_shapes m; weights := p |}).
  pose proof (filter_eval_events a m') as F. cbn [weights m'] in F.
  destruct (snd (eval_events a m')) as [[]|e];
    [destruct (time_interval a <? 0)%Z|];
    cbn [fst snd]; rewrite !filter_app, ?filter_app, filter_jobs by reflexivity;
    cbn [filter is_commit_or_evaluate is_set_weights is_evaluate orb app];
    rewrite ?filter_app, F; cbn; now rewrite ?app_nil_r.
Qed.

Lemma rounds_events_commits (w : world) (a : arguments) (rounds : list nat) :
  forall m,
    exists ps,
      filter is_commit_or_evaluate (snd (rounds_events w a rounds m))
      = flat_map (commit_then_evaluate a) ps
      /\ (is_ok (fst (fst (rounds_events w a rounds m))) = true ->
          List.length ps = List.length rounds).
Proof.
  induction rounds as [|i rounds IH]; intros m.
  - exists []. split; reflexivity.
  - cbn [rounds_events].
    destruct (round_events_commits w a i m) as [[F Hf]|[p F]];
      destruct (round_events w a i m) as [[[[]|e] m1] evs] eqn:R;
      cbn [fst snd is_ok] in *; try discriminate.
    + exists []. split; [exact F | discriminate].
    + destruct (IH m1) as [ps [Fs Hl]].
      destruct (rounds_events w a rounds m1) as [[r m2] evs2].
      cbn [fst snd] in *. exists (p :: ps). split.
      * rewrite filter_app, F, Fs. reflexivity.
      * intros H. cbn. now rewrite Hl.
    + exists [p]. split; [cbn; now rewrite app_nil_r | discriminate].
Qed.

Lemma count_eval_filter (tr : list event) :
  count is_evaluate tr = count is_evaluate (filter is_commit_or_evaluate tr).
Proof.
  unfold count. induction tr as [|e tr IH]; [reflexivity|].
  destruct e; cbn; now rewrite ?IH.
Qed.

Lemma count_eval_disabled (a : arguments) (ps : list params) :
  eval_enabled a = false ->
  count is_evaluate (flat_map (commit_then_evaluate a) ps) = 0%nat.
Proof.
  intros H. unfold count, commit_then_evaluate. rewrite H.
  induction ps as [|p ps IH]; [reflexivity|].
  cbn [flat_map]. rewrite filter_app, length_app, IH.
  destruct (x_test a), (y_test a); reflexivity.
Qed.

Lemma eval_enabled_false_without_data (a : arguments) :
  x_test a = None \/ y_test a = None -> eval_enabled a = false.
Proof.
  unfold eval_enabled. intros [-> | ->]; [reflexivity|].
  destruct (x_test a); reflexivity.
Qed.

Lemma eval_enabled_true (a : arguments) :
  eval_enabled a = true ->
  x_test a <> None /\ y_test a <> None
  /\ callable (evaluation_function a) = true.
Proof.
  unfold eval_enabled. intros H.
  apply andb_prop in H. destruct H as [H Hc].
  apply andb_prop in H. destruct H as [H Ht].
  apply andb_prop in H. destruct H as [Hx Hy].
  destruct (x_test a), (y_test a); try discriminate.
  repeat split; try discriminate. exact Hc.
Qed.

(** C9.  An evaluation happens only if both [x_test] and [y_test] are given
    and the callback is callable; without test data (the default) no
    evaluation ever happens, whatever the callback, the default [eval_model]
    included.  When it is enabled the evaluation runs once per round, right
    after the commit of the round and on the weights just committed: the
    commits and evaluations of the trace are the commits, each followed by
    its evaluation, and a run that completes has one pair per round. *)
Theorem evaluation_needs_test_data (w : world) (a : arguments) (m : gmodel) :
  (count is_evaluate (trace (snd (run w a m))) <> 0%nat ->
     x_test a <> None /\ y_test a <> None
     /\ callable (evaluation_function a) = true)
  /\ (x_test a = None -> y_test a = None ->
        count is_evaluate (trace (snd (run w a m))) = 0%nat)
  /\ (forall es,
        count is_evaluate (trace (snd (run w (default_arguments w es) m)))
        = 0%nat)
  /\ exists ps,
       filter is_commit_or_evaluate (trace (snd (run w a m)))
       = flat_map (commit_then_evaluate a) ps
       /\ (is_ok (fst (run w a m)) = true ->
           List.length ps = Z.to_nat (loops a)).
Proof.
  assert (General : forall a',
    exists ps,
      filter is_commit_or_evaluate (trace (snd (run w a' m)))
      = flat_map (commit_then_evaluate a') ps
      /\ (is_ok (fst (run w a' m)) = true ->
          List.length ps = Z.to_nat (loops a'))).
  { intros a'. destruct (run_obs w a' m) as [ex E]. rewrite E.
    cbn [fst snd trace].
    destruct (rounds_events_commits w a' (seq 0 (Z.to_nat (loops a'))) m)
      as [ps [F Hl]].
    exists ps. split; [exact F|]. intros Hok. rewrite Hl, length_seq; auto.
    destruct (fst (fst (rounds_events w a' _ m))); [reflexivity|discriminate]. }
  assert (Disabled : forall a', eval_enabled a' = false ->
            count is_evaluate (trace (snd (run w a' m))) = 0%nat).
  { intros a' H. destruct (General a') as [ps [F _]].
    rewrite count_eval_filter, F. now apply count_eval_disabled. }
  split; [|split; [|split]].
  - intros Hc. apply eval_enabled_true.
    destruct (eval_enabled a) eqn:En; [reflexivity|].
    exfalso. apply Hc. now apply Disabled.
  - intros Hx _. apply Disabled, eval_enabled_false_without_data. now left.
  - intros es. apply Disabled. reflexivity.
  - apply General.
Qed.

(** ** Entries of sums, scalings and quotients of parameter sets *)

Lemma fadd_zero_l (x : npfloat) : fadd zero x = x.
Proof.
  destruct x; try reflexivity. unfold zero, fadd. now rewrite Qcplus_0_l.
Qed.

Lemma fmul_NaN_l (x : npfloat) : fmul NaN x = NaN.
Proof. now destruct x. Qed.

Lemma fdiv_NaN_l (x : npfloat) : fdiv NaN x = NaN.
Proof. now destruct x. Qed.

Lemma Qccompare_one : (Q2Qc 1 ?= Q2Qc 0)%Qc = Gt.
Proof. reflexivity. Qed.

Lemma fdiv_one (x : npfloat) : fdiv x one = x.
Proof.
  destruct x as [a| | |]; try reflexivity.
  unfold fdiv, one.
  replace (Qc_eq_bool (Q2Qc 1) (Q2Qc 0)) with false by reflexivity.
  f_equal. unfold Qcdiv.
  replace (/ Q2Qc 1)%Qc with (Q2Qc 1) by (apply Qc_is_canon; reflexivity).
  apply Qcmult_1_r.
Qed.

Lemma shape_eqb_eq (s t : list nat) : shape_eqb s t = true -> s = t.
Proof.
  revert t. induction s as [|x s IH]; intros [|y t]; cbn; try discriminate.
  - reflexivity.
  - intros H. apply andb_prop in H. destruct H as [Hx Hs].
    apply Nat.eqb_eq in Hx. subst. f_equal. now apply IH.
Qed.

Lemma shape_eqb_refl (s : list nat) : shape_eqb s s = true.
Proof. induction s as [|x s IH]; cbn; [reflexivity|]. now rewrite Nat.eqb_refl. Qed.

Lemma nth_map_NaN (f : npfloat -> npfloat) (t : tensor) (k : nat) :
  f NaN = NaN -> nth k (map f t) NaN = f (nth k t NaN).
Proof. intros H. rewrite <- (map_nth f t NaN k). now rewrite H. Qed.

Lemma entry_map (f : npfloat -> npfloat) (p : params) (j k : nat) :
  f NaN = NaN -> entry (map (map f) p) j k = f (entry p j k).
Proof.
  intros H. unfold entry.
  change (@nil npfloat) with (map f []) at 1. rewrite map_nth.
  now apply nth_map_NaN.
Qed.

Lemma entry_params_scale (p : params) (w : npfloat) (j k : nat) :
  entry (params_scale p w) j k = fmul (entry p j k) w.
Proof. unfold params_scale. apply entry_map, fmul_NaN_l. Qed.

Lemma entry_params_div (p : params) (d : npfloat) (j k : nat) :
  entry (params_div p d) j k = fdiv (entry p j k) d.
Proof. unfold params_div. apply entry_map, fdiv_NaN_l. Qed.

Lemma shape_map (f : npfloat -> npfloat) (p : params) :
  shape (map (map f) p) = shape p.
Proof.
  unfold shape. rewrite map_map. apply map_ext. intros t. apply length_map.
Qed.

Lemma nth_map2_fadd (t u : tensor) (k : nat) :
  List.length t = List.length u ->
  nth k (map2 fadd t u) NaN = fadd (nth k t NaN) (nth k u NaN).
Proof.
  revert u k. induction t as [|x t IH]; intros [|y u] k; cbn;
    try discriminate.
  - now destruct k.
  - intros [= H]. destruct k; [reflexivity|]. now apply IH.
Qed.

Lemma length_map2_fadd (t u : tensor) :
  List.length t = List.length u -> List.length (map2 fadd t u) = List.length t.
Proof.
  revert u. induction t as [|x t IH]; intros [|y u]; cbn; try discriminate.
  - reflexivity.
  - intros [= H]. now rewrite IH.
Qed.

Lemma entry_map2_fadd (p q : params) :
  shape p = shape q ->
  forall j k,
    entry (map2 (map2 fadd) p q) j k = fadd (entry p j k) (entry q j k).
Proof.
  unfold entry. revert q. induction p as [|t p IH]; intros [|u q]; cbn;
    try discriminate.
  - intros _ j k. now destruct j, k.
  - intros [= Ht Hp] j k. destruct j as [|j].
    + now apply nth_map2_fadd.
    + now apply IH.
Qed.

Lemma shape_map2_fadd (p q : params) :
  shape p = shape q -> shape (map2 (map2 fadd) p q) = shape p.
Proof.
  unfold shape. revert q. induction p as [|t p IH]; intros [|u q]; cbn;
    try discriminate.
  - reflexivity.
  - intros [= Ht Hp]. now rewrite length_map2_fadd, IH.
Qed.

Lemma params_add_ok (p q r : params) :
  params_add p q = Ok r ->
  shape q = shape p /\ shape r = shape p
  /\ forall j k, entry r j k = fadd (entry p j k) (entry q j k).
Proof.
  unfold params_add, same_shape.
  destruct (shape_eqb (shape p) (shape q)) eqn:E; [|discriminate].
  apply shape_eqb_eq in E. intros [= <-].
  split; [now symmetry|]. split; [now apply shape_map2_fadd|].
  now apply entry_map2_fadd.
Qed.

Lemma add_reduce_ok (l : list params) :
  forall acc r,
    add_reduce acc l = Ok r ->
    shape r = shape acc
    /\ Forall (fun x => shape x = shape acc) l
    /\ forall j k,
         entry r j k
         = fold_left fadd (map (fun x => entry x j k) l) (entry acc j k).
Proof.
  induction l as [|x l IH]; intros acc r; cbn [add_reduce].
  - intros [= <-]. repeat split. constructor.
  - destruct (params_add acc x) as [acc'|e] eqn:A; [|discriminate].
    intros H. apply params_add_ok in A. destruct A as [Hx [Hacc' He]].
    destruct (IH _ _ H) as [Hr [Hl Hentry]].
    split; [congruence|]. split.
    + constructor; [exact Hx|].
      eapply Forall_impl; [|exact Hl]. cbn. intros y Hy. congruence.
    + intros j k. cbn. rewrite Hentry, He. reflexivity.
Qed.

Lemma fsum_cons (x : npfloat) (l : list npfloat) :
  fsum (x :: l) = fold_left fadd l x.
Proof. unfold fsum. cbn [fold_left]. now rewrite fadd_zero_l. Qed.

(** The mean along axis 0, entry by entry. *)
Lemma np_mean_ok (a : list params) (p : params) :
  np_mean a = Ok (Tensors p) ->
  a <> []
  /\ Forall (fun x => shape x = shape p) a
  /\ forall j k,
       entry p j k
       = fdiv (fsum (map (fun x => entry x j k) a)) (of_nat (List.length a)).
Proof.
  unfold np_mean. destruct a as [|x xs]; [discriminate|].
  destruct (add_reduce x xs) as [s|e] eqn:A; [|discriminate].
  intros [= <-]. apply add_reduce_ok in A. destruct A as [Hs [Hl He]].
  split; [discriminate|]. split.
  - unfold params_div. rewrite shape_map, Hs.
    constructor; [reflexivity | exact Hl].
  - intros j k. rewrite entry_params_div, He. cbn [map].
    now rewrite fsum_cons.
Qed.

Lemma map_map2 {A B C D} (g : C -> D) (f : A -> B -> C) (l : list A)
    (m : list B) :
  map g (map2 f l m) = map2 (fun x y => g (f x y)) l m.
Proof.
  revert m. induction l as [|x l IH]; intros [|y m]; cbn; auto.
  now rewrite IH.
Qed.


Lemma map2_ext {A B C} (f g : A -> B -> C) (l : list A) (m : list B) :
  (forall x y, f x y = g x y) -> map2 f l m = map2 g l m.
Proof.
  intros H. revert m. induction l as [|x l IH]; intros [|y m]; cbn; auto.
  now rewrite H, IH.
Qed.

(** The weighted average along axis 0, entry by entry. *)
Lemma np_average_ok (a : list params) (ws : list npfloat) (p : params) :
  np_average a ws = Ok (Tensors p) ->
  List.length ws = List.length a
  /\ is_zero (fsum ws) = false
  /\ forall j k,
       entry p j k
       = fdiv (fsum (map2 (fun x w => fmul (entry x j k) w) a ws)) (fsum ws).
Proof.
  unfold np_average.
  destruct (List.length ws =? List.length a)%nat eqn:L; [|discriminate].
  cbn [negb]. apply Nat.eqb_eq in L.
  destruct (is_zero (fsum ws)) eqn:Z; [discriminate|].
  destruct (map2 params_scale a ws) as [|x xs] eqn:P; [discriminate|].
  destruct (add_reduce x xs) as [s|e] eqn:A; [|discriminate].
  intros [= <-]. apply add_reduce_ok in A. destruct A as [_ [_ He]].
  split; [exact L|]. split; [reflexivity|].
  intros j k. rewrite entry_params_div, He. f_equal.
  rewrite <- fsum_cons.
  change (entry x j k :: map (fun y => entry y j k) xs)
    with (map (fun y => entry y j k) (x :: xs)).
  rewrite <- P, map_map2. f_equal.
  apply map2_ext. intros y w. apply entry_params_scale.
Qed.

(** ** Uniform weights *)

Lemma Qc_inv_pos (n : Z) :
  (0 < n)%Z ->
  ((Q2Qc (inject_Z 1) / Q2Qc (inject_Z n))%Qc ?= Q2Qc 0)%Qc = Gt.
Proof.
  intros H. apply Qcgt_alt. unfold Qcdiv, Qcmult, Qcinv.
  rewrite !this_Q2Qc, !Qred_correct.
  rewrite Qmult_1_l. apply Qinv_lt_0_compat.
  unfold Qlt, inject_Z. simpl. lia.
Qed.

Lemma fmul_pos_distr (c : Qc) (x y : npfloat) :
  (c ?= Q2Qc 0)%Qc = Gt ->
  fmul (fadd x y) (Fin c) = fadd (fmul x (Fin c)) (fmul y (Fin c)).
Proof.
  intros Hc. destruct x as [a| | |], y as [b| | |]; cbn; rewrite ?Hc; cbn;
    try reflexivity.
  f_equal. ring.
Qed.

Lemma fdiv_as_fmul (x : npfloat) (n : Z) :
  (0 < n)%Z -> fdiv x (of_int n) = fmul x (fraction 1 n).
Proof.
  intros H. pose proof (Qc_inv_pos n H) as Hc.
  unfold of_int, fraction. destruct x as [a| | |]; cbn.
  - destruct (Qc_eq_bool (Q2Qc (inject_Z n)) (Q2Qc 0)) eqn:E.
    + apply Qc_eq_bool_true, Q2Qc_inject_Z_0 in E. lia.
    + f_equal. unfold Qcdiv.
      replace (Q2Qc (inject_Z 1)) with (Q2Qc 1) by reflexivity. ring.
  - rewrite Hc, Qccompare_inject_Z.
    apply Z.compare_gt_iff in H. now rewrite H.
  - rewrite Hc, Qccompare_inject_Z.
    apply Z.compare_gt_iff in H. now rewrite H.
  - reflexivity.
Qed.

Lemma fold_fadd_scaled (c : Qc) (l : list npfloat) :
  (c ?= Q2Qc 0)%Qc = Gt ->
  forall acc,
    fmul (fold_left fadd l acc) (Fin c)
    = fold_left fadd (map (fun x => fmul x (Fin c)) l) (fmul acc (Fin c)).
Proof.
  intros Hc. induction l as [|x l IH]; intros acc; cbn [fold_left map].
  - reflexivity.
  - now rewrite IH, fmul_pos_distr.
Qed.

(** The mean is the sum of the entries, each weighted by [1/N]. *)
Lemma mean_uniform_weights (l : list npfloat) (n : nat) :
  (0 < n)%nat ->
  fdiv (fsum l) (of_nat n)
  = fsum (map (fun x => fmul x (fraction 1 (Z.of_nat n))) l).
Proof.
  intros H. unfold of_nat. rewrite fdiv_as_fmul by lia.
  unfold fsum, fraction.
  rewrite fold_fadd_scaled by (apply Qc_inv_pos; lia).
  f_equal. unfold zero. cbn. f_equal. ring.
Qed.

Lemma answers_length (w : world) (i : nat) (js : list job) (n0 : nat) :
  List.length (answers w i n0 js) = List.length js.
Proof.
  unfold answers. revert n0. induction js as [|j js IH]; intros n0; cbn;
    [reflexivity|]. now rewrite IH.
Qed.

Lemma collect_ok_length {A} (outs : list (res A)) (rs : list A) :
  collect outs = Ok rs -> List.length rs = List.length outs.
Proof.
  intros H. apply collect_ok_nth in H. subst. now rewrite length_map.
Qed.

(** ** The two aggregation modes *)

(** What a committing round has committed. *)
Lemma fl_round_commits (w : world) (a : arguments) (i : nat) (s : state) :
  fst (fl_round w a i s) = Ok tt ->
  exists rs p,
    collect (answers w i 0 (jobs_of a (global_model s))) = Ok rs
    /\ List.length rs = List.length (endpoint_ids a)
    /\ aggregate_results (federated_mode a) rs = Ok (Tensors p)
    /\ shape p = shape (weights (global_model s))
    /\ weights (global_model (snd (fl_round w a i s))) = p
    /\ In (SetWeights p) (trace (snd (fl_round w a i s))).
Proof.
  destruct (fl_round_obs w a i s) as [ex E]. rewrite E. cbn [fst snd].
  destruct (round_events w a i (global_model s)) as [[[[]|e] m1] evs] eqn:R;
    cbn [fst snd]; [|discriminate].
  intros _. pose proof (round_events_ok_packs _ _ _ _ _ _ _ R) as Pk.
  apply round_events_ok in R.
  destruct R as [rs [p [C [Ag [Sh [-> [_ [_ ->]]]]]]]].
  exists rs, p. split; [exact C|]. split.
  - rewrite (collect_ok_length _ _ C), answers_length.
    now apply length_jobs_of.
  - split; [exact Ag|]. split; [now apply shape_eqb_eq|].
    split; [reflexivity|]. cbn [trace].
    apply in_or_app. right. apply in_or_app. right. now left.
Qed.

(** A round that completes went past line 190. *)
Lemma fl_round_ok_packs (w : world) (a : arguments) (i : nat) (s : state) :
  fst (fl_round w a i s) = Ok tt -> packs (global_model s) = true.
Proof.
  destruct (fl_round_obs w a i s) as [ex E]. rewrite E. cbn [fst snd].
  destruct (round_events w a i (global_model s)) as [[[[]|e] m1] evs] eqn:R;
    cbn [fst snd]; [|discriminate].
  intros _. exact (round_events_ok_packs _ _ _ _ _ _ _ R).
Qed.

(** Equality of two closed values: the rationals are compared, not the
    proofs that they are reduced. *)
Ltac qc_eq :=
  vm_compute;
  repeat match goal with
         | |- @eq Qc _ _ => apply Qc_is_canon; vm_compute; reflexivity
         | |- Fin _ = Fin _ => apply f_equal
         | |- Ok _ = Ok _ => apply f_equal
         | |- cons _ _ = cons _ _ => apply f_equal2
         | |- _ => reflexivity
         end.

(** C5.  In [average] mode the parameters a round commits are the
    arithmetic mean, entry by entry, of the parameter sets of all the
    endpoints: entry [k] of tensor [j] is the sum of that entry over the [N]
    endpoints divided by [N], that is the sum of the entries each weighted by
    [1/N].  The committed set has the shape of the model and of every
    endpoint's set. *)
Theorem average_mode_commits_mean (w : world) (a : arguments) (i : nat)
    (s : state) :
  federated_mode a = "average"%string ->
  fst (fl_round w a i s) = Ok tt ->
  exists rs,
    collect (answers w i 0 (jobs_of a (global_model s))) = Ok rs
    /\ List.length rs = List.length (endpoint_ids a)
    /\ (0 < List.length rs)%nat
    /\ shape (weights (global_model (snd (fl_round w a i s))))
       = shape (weights (global_model s))
    /\ Forall (fun r => shape (model_weights r)
                        = shape (weights (global_model (snd (fl_round w a i s)))))
              rs
    /\ forall j k,
         entry (weights (global_model (snd (fl_round w a i s)))) j k
         = fdiv (fsum (map (fun r => entry (model_weights r) j k) rs))
                (of_nat (List.length rs))
         /\ entry (weights (global_model (snd (fl_round w a i s)))) j k
            = fsum (map (fun r => fmul (entry (model_weights r) j k)
                                       (fraction 1 (Z.of_nat (List.length rs))))
                        rs).
Proof.
  intros Hmode Hok.
  destruct (fl_round_commits w a i s Hok) as [rs [p [C [L [Ag [Sh [-> _]]]]]]].
  unfold aggregate_results in Ag. rewrite Hmode in Ag. cbn in Ag.
  apply np_mean_ok in Ag. destruct Ag as [Hne [Hsh He]].
  assert (Hpos : (0 < List.length rs)%nat).
  { destruct rs; [now contradiction Hne | cbn; lia]. }
  exists rs. repeat (split; [assumption|]). split.
  - apply Forall_forall. intros r Hr. rewrite Forall_forall in Hsh.
    apply Hsh. now apply in_map.
  - assert (E : forall j k,
        entry p j k
        = fdiv (fsum (map (fun r => entry (model_weights r) j k) rs))
               (of_nat (List.length rs))).
    { intros j k. rewrite He, map_map, length_map. reflexivity. }
    intros j k. split; [apply E|].
    rewrite E, mean_uniform_weights by exact Hpos. now rewrite map_map.
Qed.

(** C5, witness: two endpoints whose tensors are [[1.0]] and [[3.0]]; the
    round commits [[2.0]]. *)
Lemma average_mode_commits_mean_witness :
  entry (weights (global_model
           (snd (fl_round two_endpoints average_call 0 (initial_state toy_model)))))
        0 0
  = of_int 2
  /\ weights (global_model
        (snd (fl_round two_endpoints average_call 0 (initial_state toy_model))))
     = [[of_int 2]].
Proof.
  destruct (average_mode_commits_mean two_endpoints average_call 0
              (initial_state toy_model)) as [rs [C [_ [_ [_ [_ He]]]]]].
  - reflexivity.
  - vm_compute. reflexivity.
  - split.
    + destruct (He 0%nat 0%nat) as [-> _].
      vm_compute in C. injection C as <-. unfold of_int. qc_eq.
    + vm_compute. unfold of_int. qc_eq.
Defined.



(** ** Order of the results *)

Lemma answers_nth (w : world) (i : nat) (js : list job) :
  forall n0 k,
    nth_error (answers w i n0 js) k
    = option_map (remote w i (n0 + k)) (nth_error js k).
Proof.
  unfold answers. induction js as [|j js IH]; intros n0 k; cbn.
  - now destruct k.
  - destruct k as [|k]; cbn; [now rewrite Nat.add_0_r|].
    rewrite IH. now rewrite Nat.add_succ_r.
Qed.

Lemma answers_ext (w w' : world) (i : nat) (js : list job) (n0 : nat) :
  (forall i id j, remote w i id j = remote w' i id j) ->
  answers w i n0 js = answers w' i n0 js.
Proof. intros H. unfold answers. apply map2_ext. apply H. Qed.

(** A round depends on the world through the answers of the endpoints only:
    not through the order in which the tasks complete. *)
Lemma round_events_ext (w w' : world) (a : arguments) (i : nat) (m : gmodel) :
  (forall i id j, remote w i id j = remote w' i id j) ->
  round_events w a i m = round_events w' a i m.
Proof. intros H. unfold round_events. now rewrite (answers_ext w w' _ _ _ H). Qed.



(** ** Runs that cannot fail *)

Lemma add_reduce_same_shape (l : list params) :
  forall acc,
    Forall (fun x => shape x = shape acc) l ->
    exists r, add_reduce acc l = Ok r /\ shape r = shape acc.
Proof.
  induction l as [|x l IH]; intros acc H; cbn [add_reduce].
  - now exists acc.
  - inversion H as [|? ? Hx Hl]; subst.
    unfold params_add, same_shape. rewrite Hx, shape_eqb_refl.
    destruct (IH (map2 (map2 fadd) acc x)) as [r [Hr Hs]].
    + rewrite shape_map2_fadd by now symmetry.
      exact Hl.
    + exists r. split; [exact Hr|]. rewrite Hs. now apply shape_map2_fadd.
Qed.

Lemma collect_all_ok {A} (P : A -> Prop) (outs : list (res A)) :
  Forall (fun o => exists r, o = Ok r /\ P r) outs ->
  exists rs, collect outs = Ok rs /\ Forall P rs.
Proof.
  induction 1 as [|o outs [r [-> Hr]] _ [rs [IH Hrs]]]; cbn [collect].
  - now exists [].
  - rewrite IH. exists (r :: rs). auto.
Qed.

Lemma answers_well_behaved (w : world) (a : arguments) (i : nat) (m : gmodel) :
  well_behaved w ->
  Forall (fun o => exists r,
            o = Ok r
            /\ (shape (model_weights r) = shape (weights m)
                /\ (0 < samples_count r)%Z))
         (answers w i 0 (jobs_of a m)).
Proof.
  intros Hw. apply Forall_forall. intros o Ho.
  apply In_nth_error in Ho. destruct Ho as [k Hk].
  rewrite answers_nth in Hk. unfold jobs_of in Hk.
  destruct (packs m); [|destruct k; discriminate].
  rewrite nth_error_map in Hk.
  destruct (nth_error (endpoint_ids a) k) as [e|]; [|discriminate].
  cbn in Hk. injection Hk as <-.
  destruct (Hw i k (make_job a (architecture m) (weights m) e))
    as [r [Hr [Hs Hc]]].
  exists r. auto.
Qed.

Lemma shape_params_scale (p : params) (w : npfloat) :
  shape (params_scale p w) = shape p.
Proof. unfold params_scale. apply shape_map. Qed.

Lemma map2_params_scale_shape (l : list params) (ws : list npfloat)
    (sh : list nat) :
  Forall (fun x => shape x = sh) l ->
  Forall (fun x => shape x = sh) (map2 params_scale l ws).
Proof.
  intros H. revert ws. induction H as [|x l Hx Hl IH]; intros [|w ws]; cbn;
    constructor.
  - now rewrite shape_params_scale.
  - apply IH.
Qed.

Lemma is_zero_one : is_zero one = false.
Proof. reflexivity. Qed.

Lemma aggregate_results_succeeds (mode : string) (rs : list train_result)
    (sh : list nat) :
  mode = "average"%string \/ mode = "weighted_average"%string ->
  rs <> [] ->
  Forall (fun r => shape (model_weights r) = sh /\ (0 < samples_count r)%Z) rs ->
  exists p, aggregate_results mode rs = Ok (Tensors p) /\ shape p = sh.
Proof.
  intros Hmode Hne Hrs. unfold aggregate_results.
  destruct rs as [|r rs]; [contradiction|].
  inversion Hrs as [|? ? [Hr Hc] Hrs']; subst.
  destruct Hmode as [-> | ->]; cbn [String.eqb Ascii.eqb Bool.eqb].
  - cbn [np_mean map].
    destruct (add_reduce_same_shape (map model_weights rs) (model_weights r))
      as [s [-> Hs]].
    + apply Forall_forall. intros x Hx. apply in_map_iff in Hx.
      destruct Hx as [r' [<- Hr']]. rewrite Forall_forall in Hrs'.
      now destruct (Hrs' r' Hr').
    + eexists. split; [reflexivity|]. unfold params_div. now rewrite shape_map.
  - assert (Hpos : (0 < py_sum (map samples_count (r :: rs)))%Z).
    { apply py_sum_pos; [discriminate|].
      apply Forall_forall. intros c Hc'. apply in_map_iff in Hc'.
      destruct Hc' as [r' [<- Hr']]. rewrite Forall_forall in Hrs.
      now destruct (Hrs r' Hr'). }
    rewrite get_edge_weights_fractions by lia.
    unfold np_average. rewrite !length_map, Nat.eqb_refl. cbn [negb].
    rewrite fsum_fractions, fraction_self, is_zero_one by lia.
    cbn [map map2].
    match goal with |- context [add_reduce ?x ?l] =>
      destruct (add_reduce_same_shape l x) as [s [-> Hs]] end.
    + rewrite shape_params_scale. apply map2_params_scale_shape.
      apply Forall_forall. intros x Hx. apply in_map_iff in Hx.
      destruct Hx as [r' [<- Hr']]. rewrite Forall_forall in Hrs'.
      now destruct (Hrs' r' Hr').
    + eexists. split; [reflexivity|].
      unfold params_div. now rewrite shape_map, Hs, shape_params_scale.
Qed.

Lemma round_events_succeeds (w : world) (a : arguments) (i : nat) (m : gmodel) :
  packs m = true ->
  well_behaved w -> quiet_callback a ->
  endpoint_ids a <> [] ->
  federated_mode a = "average"%string
  \/ federated_mode a = "weighted_average"%string ->
  (0 <= time_interval a)%Z ->
  exists p evs,
    round_events w a i m
    = (Ok tt, {| architecture := architecture m;
                 weight_shapes := weight_shapes m; weights := p |}, evs)
    /\ shape p = shape (weights m).
Proof.
  intros Pk Hw Hq Hne Hmode Ht. unfold round_events. rewrite Pk.
  destruct (collect_all_ok _ _ (answers_well_behaved w a i m Hw))
    as [rs [C Hrs]].
  rewrite C.
  assert (Hrs_ne : rs <> []).
  { intros ->. apply collect_ok_length in C.
    rewrite answers_length, (length_jobs_of a m Pk) in C.
    destruct (endpoint_ids a); [contradiction | discriminate]. }
  destruct (aggregate_results_succeeds _ rs (shape (weights m)) Hmode Hrs_ne Hrs)
    as [p [-> Hp]].
  unfold finish_events, same_shape. rewrite Hp, shape_eqb_refl.
  assert (Hev : snd (eval_events a {| architecture := architecture m;
                                      weight_shapes := weight_shapes m;
                                      weights := p |}) = Ok tt).
  { unfold eval_events.
    destruct (x_test a), (y_test a); try reflexivity.
    destruct (call (evaluation_function a)) as [f|] eqn:F; [|reflexivity].
    destruct (truthy (evaluation_function a)); [|reflexivity].
    cbn. now apply Hq. }
  rewrite Hev. apply Z.ltb_ge in Ht. rewrite Ht. eauto.
Qed.

(** With a model whose weights go into one array of objects, endpoints
    that never fail, a supported mode, at least one endpoint, a callback that
    does not raise and a pacing interval that is not negative, every run
    completes. *)
Lemma well_behaved_run_succeeds (w : world) (a : arguments) (m : gmodel) :
  packs m = true ->
  well_behaved w -> quiet_callback a ->
  endpoint_ids a <> [] ->
  federated_mode a = "average"%string
  \/ federated_mode a = "weighted_average"%string ->
  (0 <= time_interval a)%Z ->
  exists m', fst (run w a m) = Ok m'.
Proof.
  intros Pk Hw Hq Hne Hmode Ht.
  destruct (run_obs w a m) as [ex E]. rewrite E. cbn [fst].
  assert (G : forall rounds m0,
             packs m0 = true ->
             exists m1 evs, rounds_events w a rounds m0 = (Ok tt, m1, evs)).
  { induction rounds as [|i rounds IH]; intros m0 Pk0; cbn [rounds_events].
    - eauto.
    - destruct (round_events_succeeds w a i m0 Pk0 Hw Hq Hne Hmode Ht)
        as [p [evs [-> _]]].
      destruct (IH {| architecture := architecture m0;
                      weight_shapes := weight_shapes m0; weights := p |} Pk0)
        as [m1 [evs1 ->]]. eauto. }
  destruct (G (seq 0 (Z.to_nat (loops a))) m Pk) as [m1 [evs ->]]. cbn. eauto.
Qed.

(** C9, example: two rounds with test data and the default callback run two
    evaluations, each right after a commit; the same call without test data
    runs none. *)
Lemma evaluation_needs_test_data_witness :
  count is_evaluate (trace (snd (run two_endpoints evaluated_call toy_model)))
  = 2%nat
  /\ count is_evaluate
       (trace (snd (run two_endpoints
                        (toy_call two_endpoints "average" 2 None) toy_model)))
     = 0%nat
  /\ exists ps,
       filter is_commit_or_evaluate
              (trace (snd (run two_endpoints evaluated_call toy_model)))
       = flat_map (commit_then_evaluate evaluated_call) ps
       /\ List.length ps = 2%nat.
Proof.
  destruct (evaluation_needs_test_data two_endpoints evaluated_call toy_model)
    as [_ [_ [_ [ps [F L]]]]].
  destruct (evaluation_needs_test_data two_endpoints
              (toy_call two_endpoints "average" 2 None) toy_model)
    as [_ [N _]].
  split; [vm_compute; reflexivity|]. split; [now apply N|].
  exists ps. split; [exact F|]. apply L. vm_compute. reflexivity.
Defined.

(** * Further properties *)

(** ** What every run keeps, failing or not *)

(** The two ways a round can go: it fails before its commit, having only
    submitted its jobs, or it commits a parameter set of the shape of the
    model and goes on to the evaluation and the pause. *)
Lemma round_events_cases (w : world) (a : arguments) (i : nat) (m : gmodel) :
  (exists e, round_events w a i m = (Raise e, m, map Submit (jobs_of a m)))
  \/ exists p r tail,
       same_shape p (weights m) = true
       /\ round_events w a i m
          = (r, {| architecture := architecture m;
                   weight_shapes := weight_shapes m; weights := p |},
             map Submit (jobs_of a m)
             ++ [SetWeights p; PrintEpoch i]
             ++ fst (eval_events a {| architecture := architecture m;
                                      weight_shapes := weight_shapes m;
                                      weights := p |})
             ++ tail)
       /\ (tail = [] \/ tail = [Sleep (time_interval a)]).
Proof.
  unfold round_events. destruct (packs m) eqn:Pk;
    [|left; eexists; unfold jobs_of; now rewrite Pk].
  destruct (collect (answers w i 0 (jobs_of a m))) as [rs|e]; [|left; eauto].
  destruct (aggregate_results (federated_mode a) rs) as [[x|p]|e];
    try (left; eexists; cbn; now rewrite ?app_nil_r).
  unfold finish_events.
  destruct (same_shape p (weights m)) eqn:Sh;
    [|left; eexists; cbn; now rewrite ?app_nil_r].
  right. exists p.
  destruct (snd (eval_events a _)) as [[]|e];
    [destruct (time_interval a <? 0)%Z|].
  - exists (Raise (ValueError negative_sleep)), []. rewrite app_nil_r. auto.
  - exists (Ok tt), [Sleep (time_interval a)].
    rewrite <- !app_assoc. auto.
  - exists (Raise e), []. rewrite app_nil_r. auto.
Qed.

Lemma committed_tail (a : arguments) (tail : list event) :
  tail = [] \/ tail = [Sleep (time_interval a)] -> committed tail = [].
Proof. now intros [-> | ->]. Qed.

Lemma rounds_events_invariants (w : world) (a : arguments) (rounds : list nat) :
  forall m,
    architecture (snd (fst (rounds_events w a rounds m))) = architecture m
    /\ shape (weights (snd (fst (rounds_events w a rounds m))))
       = shape (weights m)
    /\ weights (snd (fst (rounds_events w a rounds m)))
       = last (committed (snd (rounds_events w a rounds m))) (weights m).
Proof.
  induction rounds as [|i rounds IH]; intros m; cbn [rounds_events].
  - repeat split.
  - destruct (round_events_cases w a i m)
      as [[e ->]|[p [r [tail [Sh [-> Ht]]]]]].
    + cbn. rewrite committed_jobs. repeat split.
    + apply shape_eqb_eq in Sh.
      assert (Hc : committed
                     (map Submit (jobs_of a m)
                      ++ [SetWeights p; PrintEpoch i]
                      ++ fst (eval_events a {| architecture := architecture m;
                                               weight_shapes := weight_shapes m;
                                               weights := p |})
                      ++ tail) = [p]).
      { rewrite !committed_app, committed_jobs, committed_eval_events,
          (committed_tail a tail Ht). reflexivity. }
      destruct r as [[]|e].
      * destruct (IH {| architecture := architecture m;
                        weight_shapes := weight_shapes m; weights := p |})
          as [Ha [Hs Hl]].
        destruct (rounds_events w a rounds _) as [[r2 m2] evs2].
        cbn [fst snd architecture weights] in *.
        rewrite committed_app, last_app, Hc. cbn [last].
        repeat split; congruence.
      * cbn [fst snd architecture weights]. rewrite Hc. cbn. auto.
Qed.

(** X1.  Whatever the outcome of a run, the model it leaves has the
    architecture and the tensor shapes of the model it was called on, and its
    weights are those of the last [set_weights] of the run (the initial
    weights if there was none): a failure never leaves a half-written
    model. *)
Theorem run_leaves_last_commit (w : world) (a : arguments) (m : gmodel) :
  architecture (global_model (snd (run w a m))) = architecture m
  /\ shape (weights (global_model (snd (run w a m)))) = shape (weights m)
  /\ weights (global_model (snd (run w a m)))
     = last (committed (trace (snd (run w a m)))) (weights m).
Proof.
  destruct (run_obs w a m) as [ex E]. rewrite E. cbn [snd global_model trace].
  apply rounds_events_invariants.
Qed.

Lemma jobs_follow_commits_app (a : arguments) (arch : string)
    (l1 l2 : list event) :
  forall current,
    jobs_follow_commits a arch current (l1 ++ l2)
    <-> jobs_follow_commits a arch current l1
        /\ jobs_follow_commits a arch (last (committed l1) current) l2.
Proof.
  induction l1 as [|e l1 IH]; intros current.
  - cbn. tauto.
  - destruct e; cbn [app jobs_follow_commits committed flat_map committed_of];
      rewrite ?IH; try tauto.
    change (w :: flat_map committed_of l1) with ([w] ++ committed l1).
    rewrite last_app. cbn [last]. tauto.
Qed.

Lemma jobs_follow_commits_jobs (a : arguments) (m : gmodel) (es : list string) :
  jobs_follow_commits a (architecture m) (weights m)
    (map Submit (map (make_job a (architecture m) (weights m)) es)).
Proof. induction es as [|e es IH]; cbn; auto. Qed.

Lemma jobs_follow_commits_jobs_of (a : arguments) (m : gmodel) :
  jobs_follow_commits a (architecture m) (weights m) (map Submit (jobs_of a m)).
Proof.
  unfold jobs_of. destruct (packs m); [apply jobs_follow_commits_jobs|exact I].
Qed.

Lemma jobs_follow_commits_quiet (a : arguments) (arch : string) (l : list event) :
  count is_submit l = 0%nat -> filter is_set_weights l = [] ->
  forall current, jobs_follow_commits a arch current l.
Proof.
  unfold count. induction l as [|e l IH]; intros Hs Hc current; cbn; [exact I|].
  destruct e; cbn in Hs, Hc; try discriminate; now apply IH.
Qed.

Lemma eval_events_quiet (a : arguments) (m : gmodel) :
  count is_submit (fst (eval_events a m)) = 0%nat
  /\ filter is_set_weights (fst (eval_events a m)) = [].
Proof.
  split; [now apply count_eval_events|].
  destruct (eval_events_shape a m) as [->|[x [y [out [_ [_ [_ ->]]]]]]];
    [reflexivity|]. cbn. now apply filter_scores.
Qed.

Lemma rounds_events_jobs (w : world) (a : arguments) (rounds : list nat) :
  forall m,
    jobs_follow_commits a (architecture m) (weights m)
      (snd (rounds_events w a rounds m)).
Proof.
  induction rounds as [|i rounds IH]; intros m; cbn [rounds_events].
  - exact I.
  - destruct (round_events_cases w a i m)
      as [[e ->]|[p [r [tail [Sh [-> Ht]]]]]].
    + cbn [snd]. apply jobs_follow_commits_jobs_of.
    + set (m1 := {| architecture := architecture m;
                    weight_shapes := weight_shapes m; weights := p |}).
      assert (Hround : jobs_follow_commits a (architecture m) (weights m)
                (map Submit (jobs_of a m)
                 ++ [SetWeights p; PrintEpoch i]
                 ++ fst (eval_events a m1) ++ tail)).
      { apply jobs_follow_commits_app. split;
          [apply jobs_follow_commits_jobs_of|].
        cbn [app jobs_follow_commits]. apply jobs_follow_commits_app. split.
        - destruct (eval_events_quiet a m1).
          now apply jobs_follow_commits_quiet.
        - destruct Ht as [-> | ->]; cbn; auto. }
      assert (Hc : committed
                     (map Submit (jobs_of a m)
                      ++ [SetWeights p; PrintEpoch i]
                      ++ fst (eval_events a m1) ++ tail) = [p]).
      { rewrite !committed_app, committed_jobs, committed_eval_events,
          (committed_tail a tail Ht). reflexivity. }
      destruct r as [[]|e]; cbn [snd]; [|exact Hround].
      specialize (IH m1).
      destruct (rounds_events w a rounds m1) as [[r2 m2] evs2].
      cbn [snd] in *. apply jobs_follow_commits_app. split; [exact Hround|].
      rewrite Hc. exact IH.
Qed.

(** X2.  Every job a run submits is a fresh snapshot: it carries the
    architecture of the model, the [num_samples] and [epochs] of the call and
    the weights of the most recent commit (the initial weights before the
    first one); no round ever sends stale weights. *)
Theorem jobs_carry_latest_commit (w : world) (a : arguments) (m : gmodel) :
  jobs_follow_commits a (architecture m) (weights m) (trace (snd (run w a m))).
Proof.
  destruct (run_obs w a m) as [ex E]. rewrite E. cbn [snd trace].
  apply rounds_events_jobs.
Qed.

Lemma submitted_app (l1 l2 : list event) :
  submitted (l1 ++ l2) = submitted l1 ++ submitted l2.
Proof. apply flat_map_app. Qed.

Lemma submitted_jobs (js : list job) : submitted (map Submit js) = js.
Proof. induction js as [|j js IH]; cbn; [reflexivity|]. now rewrite <- IH at 2. Qed.

Lemma submitted_quiet (l : list event) :
  count is_submit l = 0%nat -> submitted l = [].
Proof.
  unfold count. induction l as [|e l IH]; intros H; [reflexivity|].
  destruct e; cbn in H; try discriminate; cbn; now apply IH.
Qed.

Lemma endpoints_of_jobs (a : arguments) (m : gmodel) :
  packs m = true ->
  map endpoint_id (jobs_of a m) = endpoint_ids a.
Proof.
  intros Pk. rewrite (jobs_of_packs a m Pk), map_map. cbn. apply map_id.
Qed.

Lemma round_commit_events (a : arguments) (i : nat) (m1 : gmodel) (p : params)
    (js : list job) (tail : list event) :
  tail = [] \/ tail = [Sleep (time_interval a)] ->
  submitted (map Submit js ++ [SetWeights p; PrintEpoch i]
             ++ fst (eval_events a m1) ++ tail) = js
  /\ count is_set_weights (map Submit js ++ [SetWeights p; PrintEpoch i]
                           ++ fst (eval_events a m1) ++ tail) = 1%nat.
Proof.
  intros Ht. split.
  - rewrite !submitted_app, submitted_jobs.
    rewrite (submitted_quiet (fst (eval_events a m1)))
      by now apply count_eval_events.
    destruct Ht as [-> | ->]; cbn; now rewrite app_nil_r.
  - rewrite !count_app, (count_other_jobs is_set_weights) by reflexivity.
    rewrite count_eval_events by reflexivity.
    destruct Ht as [-> | ->]; reflexivity.
Qed.

Lemma rounds_events_fan_out (w : world) (a : arguments) (rounds : list nat) :
  forall m,
    exists k,
      (k <= List.length rounds)%nat
      /\ map endpoint_id (submitted (snd (rounds_events w a rounds m)))
         = List.concat (repeat (endpoint_ids a) k)
      /\ (count is_set_weights (snd (rounds_events w a rounds m)) = k
          \/ S (count is_set_weights (snd (rounds_events w a rounds m))) = k).
Proof.
  induction rounds as [|i rounds IH]; intros m; cbn [rounds_events].
  - exists 0%nat. cbn. auto.
  - destruct (packs m) eqn:Pk;
      [|destruct (round_events_unpacked w a i m Pk) as [-> _];
        exists 0%nat; cbn; split; [lia|auto]].
    destruct (round_events_cases w a i m)
      as [[e ->]|[p [r [tail [Sh [-> Ht]]]]]].
    + exists 1%nat. cbn [snd List.length repeat List.concat].
      rewrite submitted_jobs, (endpoints_of_jobs a m Pk), app_nil_r.
      rewrite (count_other_jobs is_set_weights) by reflexivity.
      split; [lia|]. auto.
    + set (m1 := {| architecture := architecture m;
                    weight_shapes := weight_shapes m; weights := p |}).
      destruct (round_commit_events a i m1 p (jobs_of a m) tail Ht) as [Hs Hc].
      destruct r as [[]|e].
      * destruct (IH m1) as [k [Hk [Hsub Hcom]]].
        destruct (rounds_events w a rounds m1) as [[r2 m2] evs2].
        cbn [snd List.length] in *. exists (S k).
        rewrite submitted_app, map_app, count_app, Hs, Hc, Hsub,
          (endpoints_of_jobs a m Pk).
        split; [lia|]. split; [reflexivity|]. lia.
      * exists 1%nat. cbn [snd List.length repeat List.concat].
        rewrite Hs, Hc, (endpoints_of_jobs a m Pk), app_nil_r.
        split; [lia|]. auto.
Qed.

(** X3.  In every run, failing or not, the jobs go out round by round to
    every endpoint in the order of [endpoint_ids]: the endpoints of the
    submitted jobs are the list [endpoint_ids] repeated once per started
    round, at most [loops] times; and every started round but possibly the
    last has committed. *)
Theorem every_started_round_reaches_every_endpoint (w : world) (a : arguments)
    (m : gmodel) :
  exists started,
    (started <= Z.to_nat (loops a))%nat
    /\ map endpoint_id (submitted (trace (snd (run w a m))))
       = List.concat (repeat (endpoint_ids a) started)
    /\ (count is_set_weights (trace (snd (run w a m))) = started
        \/ S (count is_set_weights (trace (snd (run w a m)))) = started).
Proof.
  destruct (run_obs w a m) as [ex E]. rewrite E. cbn [snd trace].
  destruct (rounds_events_fan_out w a (seq 0 (Z.to_nat (loops a))) m)
    as [k [Hk H]].
  exists k. rewrite length_seq in Hk. auto.
Qed.

(** ** No endpoint *)

(** X4.  With an empty [endpoint_ids] and at least one round to run, the
    call fails in its first round without submitting or committing
    anything.  If the weights of the model do not go into one array of
    objects, it fails at line 190 with numpy's [ValueError].  Otherwise it
    fails in [average] mode because [np.mean] of no result is the scalar
    [nan], which [set_weights] refuses, and in [weighted_average] mode
    because the empty weights sum to zero and [np.average] raises
    [ZeroDivisionError]. *)
Theorem no_endpoint_no_round (w : world) (a : arguments) (m : gmodel) :
  endpoint_ids a = [] ->
  (0 < loops a)%Z ->
  trace (snd (run w a m)) = []
  /\ global_model (snd (run w a m)) = m
  /\ (packs m = false ->
      fst (run w a m) = Raise (ValueError could_not_broadcast))
  /\ (packs m = true -> federated_mode a = "average"%string ->
      fst (run w a m) = Raise (TypeError not_a_weight_list))
  /\ (packs m = true -> federated_mode a = "weighted_average"%string ->
      fst (run w a m)
      = Raise (ZeroDivisionError "Weights sum to zero, can't be normalized")).
Proof.
  intros He Hl. destruct (run_obs w a m) as [ex E]. rewrite E.
  cbn [fst snd global_model trace].
  rewrite (seq_positive _ Hl). cbn [rounds_events].
  unfold round_events, jobs_of. destruct (packs m);
    [|cbn; repeat split; discriminate].
  rewrite He. cbn [map answers collect].
  unfold aggregate_results.
  destruct (String.eqb (federated_mode a) "average") eqn:M1.
  - cbn. repeat split; try discriminate.
    intros _ H. rewrite H in M1. discriminate.
  - destruct (String.eqb (federated_mode a) "weighted_average") eqn:M2.
    + cbn. repeat split; try discriminate.
      intros _ H. rewrite H in M1. discriminate.
    + cbn. repeat split; try discriminate;
        intros _ H; rewrite H in *; discriminate.
Qed.

(** X4, witness: the default call on no endpoint. *)
Lemma no_endpoint_no_round_witness :
  fst (run two_endpoints (default_arguments two_endpoints []) toy_model)
  = Raise (TypeError not_a_weight_list)
  /\ trace (snd (run two_endpoints (default_arguments two_endpoints [])
                     toy_model)) = [].
Proof.
  destruct (no_endpoint_no_round two_endpoints
              (default_arguments two_endpoints []) toy_model)
    as [Ht [_ [_ [Ha _]]]].
  - reflexivity.
  - reflexivity.
  - split; [now apply Ha | exact Ht].
Defined.

(** ** Completion order *)

Lemma rounds_events_ext (w w' : world) (a : arguments) (rounds : list nat) :
  (forall i id j, remote w i id j = remote w' i id j) ->
  forall m, rounds_events w a rounds m = rounds_events w' a rounds m.
Proof.
  intros H. induction rounds as [|i rounds IH]; intros m; cbn [rounds_events].
  - reflexivity.
  - rewrite (round_events_ext w w' a i m H).
    destruct (round_events w' a i m) as [[[[]|e] m1] evs]; [|reflexivity].
    now rewrite IH.
Qed.

(** X5.  A whole run, in any mode and whether it completes or fails,
    depends on the endpoints' answers only: two worlds whose endpoints
    answer alike, whatever the order in which their tasks complete, give
    the same outcome, the same model and the same trace. *)
Theorem run_ignores_completion_order (w w' : world) (a : arguments)
    (m : gmodel) :
  (forall i id j, remote w i id j = remote w' i id j) ->
  fst (run w' a m) = fst (run w a m)
  /\ global_model (snd (run w' a m)) = global_model (snd (run w a m))
  /\ trace (snd (run w' a m)) = trace (snd (run w a m)).
Proof.
  intros H. destruct (run_obs w a m) as [ex E].
  destruct (run_obs w' a m) as [ex' E']. rewrite E, E'.
  rewrite (rounds_events_ext w w' a _ H). repeat split.
Qed.

(** X5, witness: three rounds on the two endpoints, the second endpoint
    answering first in one world and last in the other. *)
Lemma run_ignores_completion_order_witness :
  fst (run two_endpoints_fifo three_rounds toy_model)
  = fst (run two_endpoints three_rounds toy_model)
  /\ trace (snd (run two_endpoints_fifo three_rounds toy_model))
     = trace (snd (run two_endpoints three_rounds toy_model)).
Proof.
  destruct (run_ignores_completion_order two_endpoints two_endpoints_fifo
              three_rounds toy_model) as [H1 [_ H3]].
  - reflexivity.
  - split; assumption.
Defined.

(** ** Failures after the commit *)

Lemma round_aggregates_when_well_behaved (w : world) (a : arguments) (i : nat)
    (m : gmodel) :
  packs m = true ->
  well_behaved w ->
  endpoint_ids a <> [] ->
  federated_mode a = "average"%string
  \/ federated_mode a = "weighted_average"%string ->
  exists rs p,
    collect (answers w i 0 (jobs_of a m)) = Ok rs
    /\ aggregate_results (federated_mode a) rs = Ok (Tensors p)
    /\ same_shape p (weights m) = true.
Proof.
  intros Pk Hw Hne Hmode.
  destruct (collect_all_ok _ _ (answers_well_behaved w a i m Hw))
    as [rs [C Hrs]].
  assert (Hrs_ne : rs <> []).
  { intros ->. apply collect_ok_length in C.
    rewrite answers_length, (length_jobs_of a m Pk) in C.
    destruct (endpoint_ids a); [contradiction | discriminate]. }
  destruct (aggregate_results_succeeds _ rs (shape (weights m)) Hmode Hrs_ne Hrs)
    as [p [Ag Hp]].
  exists rs, p. split; [exact C|]. split; [exact Ag|].
  unfold same_shape. rewrite Hp. apply shape_eqb_refl.
Qed.

Lemma well_behaved_echo : well_behaved echo_endpoints.
Proof.
  intros i id j. eexists. split; [reflexivity|]. cbn. split; [reflexivity|lia].
Qed.

(** X6.  A negative [time_interval] is only met at the end of the first
    round: on a model whose weights go into one array of objects (line 190)
    and with endpoints that do not fail, the run commits the first round,
    then fails with the [ValueError] of [time.sleep]; the model keeps that
    one commit and the second round never starts. *)
Theorem negative_interval_fails_after_first_commit (w : world) (a : arguments)
    (m : gmodel) :
  packs m = true ->
  well_behaved w -> quiet_callback a ->
  endpoint_ids a <> [] ->
  federated_mode a = "average"%string
  \/ federated_mode a = "weighted_average"%string ->
  (time_interval a < 0)%Z ->
  (0 < loops a)%Z ->
  fst (run w a m) = Raise (ValueError negative_sleep)
  /\ committed (trace (snd (run w a m)))
     = [weights (global_model (snd (run w a m)))]
  /\ count is_submit (trace (snd (run w a m))) = List.length (endpoint_ids a).
Proof.
  intros Pk Hw Hq Hne Hmode Ht Hl.
  destruct (run_obs w a m) as [ex E]. rewrite E.
  cbn [fst snd global_model trace].
  rewrite (seq_positive _ Hl). cbn [rounds_events].
  destruct (round_aggregates_when_well_behaved w a 0 m Pk Hw Hne Hmode)
    as [rs [p [C [Ag Sh]]]].
  unfold round_events. rewrite Pk, C, Ag. unfold finish_events. rewrite Sh.
  set (m1 := {| architecture := architecture m;
                  weight_shapes := weight_shapes m; weights := p |}).
  assert (Hev : snd (eval_events a m1) = Ok tt).
  { unfold eval_events.
    destruct (x_test a), (y_test a); try reflexivity.
    destruct (call (evaluation_function a)) as [f|] eqn:F; [|reflexivity].
    destruct (truthy (evaluation_function a)); [|reflexivity].
    cbn. now apply Hq. }
  rewrite Hev. apply Z.ltb_lt in Ht. rewrite Ht. cbn [fst snd weights m1].
  rewrite !committed_app, committed_jobs, committed_eval_events.
  rewrite !count_app, count_submit_jobs, (length_jobs_of a m Pk).
  rewrite count_eval_events by reflexivity.
  cbn. split; [reflexivity|]. split; [reflexivity|]. lia.
Qed.

(** X6, witness: two rounds asked with [time_interval = -1]; one commit,
    two submissions, then the [ValueError]. *)
Lemma negative_interval_fails_after_first_commit_witness :
  fst (run echo_endpoints hasty_call toy_model)
  = Raise (ValueError negative_sleep)
  /\ count is_submit (trace (snd (run echo_endpoints hasty_call toy_model)))
     = 2%nat.
Proof.
  destruct (negative_interval_fails_after_first_commit echo_endpoints hasty_call
              toy_model) as [H1 [_ H3]].
  - reflexivity.
  - exact well_behaved_echo.
  - intros f m x y [= <-]. reflexivity.
  - discriminate.
  - now left.
  - reflexivity.
  - reflexivity.
  - split; assumption.
Defined.

(** X7.  An exception raised by the evaluation callback is not caught: on a
    model whose weights go into one array of objects (line 190) and with
    endpoints that do not fail, the first round commits, the callback is
    called once on the committed weights, and its exception ends the run;
    the model keeps that commit. *)
Theorem callback_failure_aborts_after_commit (w : world) (a : arguments)
    (m : gmodel) (f : callback) (x y : dataset) (e : exn) :
  packs m = true ->
  well_behaved w ->
  endpoint_ids a <> [] ->
  federated_mode a = "average"%string
  \/ federated_mode a = "weighted_average"%string ->
  x_test a = Some x -> y_test a = Some y ->
  truthy (evaluation_function a) = true ->
  call (evaluation_function a) = Some f ->
  (forall m', snd (f m' x y) = Raise e) ->
  (0 < loops a)%Z ->
  fst (run w a m) = Raise e
  /\ filter is_commit_or_evaluate (trace (snd (run w a m)))
     = [SetWeights (weights (global_model (snd (run w a m))));
        Evaluate (weights (global_model (snd (run w a m)))) x y]
  /\ count is_submit (trace (snd (run w a m))) = List.length (endpoint_ids a).
Proof.
  intros Pk Hw Hne Hmode Hx Hy Htr Hcall Hf Hl.
  destruct (run_obs w a m) as [ex E]. rewrite E.
  cbn [fst snd global_model trace].
  rewrite (seq_positive _ Hl). cbn [rounds_events].
  destruct (round_aggregates_when_well_behaved w a 0 m Pk Hw Hne Hmode)
    as [rs [p [C [Ag Sh]]]].
  unfold round_events. rewrite Pk, C, Ag. unfold finish_events. rewrite Sh.
  set (m1 := {| architecture := architecture m;
                  weight_shapes := weight_shapes m; weights := p |}).
  assert (Hev : eval_events a m1
                = (Evaluate p x y
                     :: map (fun q => PrintScore (fst q) (snd q)) (fst (f m1 x y)),
                   Raise e)).
  { unfold eval_events. rewrite Hx, Hy, Hcall, Htr, Hf. reflexivity. }
  rewrite Hev. cbn [fst snd weights m1].
  rewrite !filter_app, filter_jobs by reflexivity.
  rewrite !count_app, count_submit_jobs, (length_jobs_of a m Pk).
  cbn [filter is_commit_or_evaluate is_set_weights is_evaluate orb app].
  rewrite filter_scores by reflexivity.
  split; [reflexivity|]. split; [reflexivity|].
  change (Evaluate p x y
          :: map (fun q => PrintScore (fst q) (snd q)) (fst (f m1 x y)))
    with ([Evaluate p x y]
          ++ map (fun q => PrintScore (fst q) (snd q)) (fst (f m1 x y))).
  rewrite count_app, (count_scores is_submit) by reflexivity.
  cbn. lia.
Qed.

(** X7, witness: two rounds asked with test data and a callback that
    raises; the run ends with the callback's exception after one commit
    and one evaluation. *)
Lemma callback_failure_aborts_after_commit_witness :
  fst (run echo_endpoints broken_evaluation_call toy_model)
  = Raise (Exception "evaluation failed")
  /\ count is_submit
       (trace (snd (run echo_endpoints broken_evaluation_call toy_model)))
     = 2%nat.
Proof.
  destruct (callback_failure_aborts_after_commit echo_endpoints
              broken_evaluation_call toy_model broken_callback [] []
              (Exception "evaluation failed")) as [H1 [_ H3]].
  - reflexivity.
  - exact well_behaved_echo.
  - discriminate.
  - now right.
  - reflexivity.
  - reflexivity.
  - reflexivity.
  - reflexivity.
  - reflexivity.
  - reflexivity.
  - split; assumption.
Defined.

(** ** One endpoint, or endpoints of equal weight *)

Lemma fmul_one_r (x : npfloat) : fmul x one = x.
Proof.
  destruct x as [a| | |]; try reflexivity.
  unfold fmul, one. now rewrite Qcmult_1_r.
Qed.

Lemma map_map_id (f : npfloat -> npfloat) (p : params) :
  (forall v, f v = v) -> map (map f) p = p.
Proof.
  intros H. rewrite <- (map_id p) at 2. apply map_ext. intros t.
  rewrite <- (map_id t) at 2. now apply map_ext.
Qed.

Lemma params_scale_one (p : params) : params_scale p one = p.
Proof. apply map_map_id, fmul_one_r. Qed.

Lemma params_div_one (p : params) : params_div p one = p.
Proof. apply map_map_id, fdiv_one. Qed.

Lemma py_sum_single (c : Z) : py_sum [c] = c.
Proof. reflexivity. Qed.

(** X8.  With a single endpoint a round that commits commits the
    endpoint's parameter set as it is: in [average] mode always, and in
    [weighted_average] mode as soon as its sample count is not 0 (its
    weight is then exactly 1). *)
Theorem single_endpoint_commits_its_answer (w : world) (a : arguments)
    (i : nat) (s : state) (e : string) :
  endpoint_ids a = [e] ->
  fst (fl_round w a i s) = Ok tt ->
  exists r,
    remote w i 0 (make_job a (architecture (global_model s))
                           (weights (global_model s)) e) = Ok r
    /\ (federated_mode a = "average"%string \/ samples_count r <> 0%Z ->
        weights (global_model (snd (fl_round w a i s))) = model_weights r).
Proof.
  intros He Hok.
  destruct (fl_round_commits w a i s Hok) as [rs [p [C [_ [Ag [_ [-> _]]]]]]].
  rewrite (jobs_of_packs _ _ (fl_round_ok_packs _ _ _ _ Hok)), He in C.
  cbn [map answers List.length seq map2] in C.
  cbn [collect] in C.
  destruct (remote w i 0 _) as [r|e'] eqn:R; [|discriminate].
  injection C as <-. exists r. split; [reflexivity|].
  unfold aggregate_results in Ag.
  destruct (String.eqb (federated_mode a) "average") eqn:M1.
  - intros _. cbn in Ag. injection Ag as <-.
    change (of_nat 1) with one. apply params_div_one.
  - destruct (String.eqb (federated_mode a) "weighted_average") eqn:M2;
      [|discriminate].
    intros [Hm|Hc]; [rewrite Hm in M1; discriminate|].
    cbn [map] in Ag. unfold get_edge_weights in Ag. rewrite py_sum_single in Ag.
    cbn [map] in Ag. rewrite fdiv_of_int, fraction_self in Ag by exact Hc.
    unfold np_average in Ag. cbn [List.length Nat.eqb negb] in Ag.
    change (fsum [one]) with (fadd zero one) in Ag.
    rewrite fadd_zero_l, is_zero_one in Ag.
    cbn [map2 add_reduce] in Ag. injection Ag as <-.
    now rewrite params_div_one, params_scale_one.
Qed.

(** X8, witness: the first of the two endpoints alone, in weighted mode;
    the round commits its tensor [[1.0]]. *)
Lemma single_endpoint_commits_its_answer_witness :
  weights (global_model
     (snd (fl_round two_endpoints
             (with_mode (default_arguments two_endpoints ["E1"%string])
                        "weighted_average")
             0 (initial_state toy_model))))
  = [[of_int 1]].
Proof.
  destruct (single_endpoint_commits_its_answer two_endpoints
              (with_mode (default_arguments two_endpoints ["E1"%string])
                         "weighted_average")
              0 (initial_state toy_model) "E1"%string) as [r [R H]].
  - reflexivity.
  - vm_compute. reflexivity.
  - cbn in R. injection R as <-. apply H. right. discriminate.
Defined.

Lemma Q2Qc_inject_Z_mul (x y : Z) :
  Q2Qc (inject_Z (x * y)) = (Q2Qc (inject_Z x) * Q2Qc (inject_Z y))%Qc.
Proof.
  unfold Qcmult. apply Q2Qc_eq_iff. rewrite !this_Q2Qc, !Qred_correct.
  rewrite inject_Z_mult. reflexivity.
Qed.

Lemma fraction_equal_share (c : Z) (n : nat) :
  c <> 0%Z -> (0 < n)%nat ->
  fraction c (Z.of_nat n * c) = fraction 1 (Z.of_nat n).
Proof.
  intros Hc Hn. unfold fraction. f_equal.
  rewrite Q2Qc_inject_Z_mul.
  replace (Q2Qc (inject_Z 1)) with (Q2Qc 1) by reflexivity.
  field. split; rewrite Q2Qc_inject_Z_0; lia.
Qed.

Lemma py_sum_equal_counts (rs : list train_result) (c : Z) :
  Forall (fun r => samples_count r = c) rs ->
  py_sum (map samples_count rs) = (Z.of_nat (List.length rs) * c)%Z.
Proof.
  induction 1 as [|r rs Hr _ IH]; [reflexivity|].
  cbn [map List.length]. rewrite py_sum_cons, IH, Hr. lia.
Qed.

Lemma map2_fadd_scaled (c : Qc) (t u : tensor) :
  (c ?= Q2Qc 0)%Qc = Gt ->
  map2 fadd (map (fun v => fmul v (Fin c)) t) (map (fun v => fmul v (Fin c)) u)
  = map (fun v => fmul v (Fin c)) (map2 fadd t u).
Proof.
  intros Hc. revert u. induction t as [|x t IH]; intros [|y u]; cbn [map map2];
    try reflexivity.
  now rewrite IH, fmul_pos_distr.
Qed.

Lemma map2_map2_fadd_scaled (c : Qc) (p q : params) :
  (c ?= Q2Qc 0)%Qc = Gt ->
  map2 (map2 fadd) (params_scale p (Fin c)) (params_scale q (Fin c))
  = params_scale (map2 (map2 fadd) p q) (Fin c).
Proof.
  intros Hc. unfold params_scale. revert q.
  induction p as [|t p IH]; intros [|u q]; cbn [map map2]; try reflexivity.
  now rewrite IH, map2_fadd_scaled.
Qed.

Lemma params_add_scaled (c : Qc) (p q : params) :
  (c ?= Q2Qc 0)%Qc = Gt ->
  params_add (params_scale p (Fin c)) (params_scale q (Fin c))
  = match params_add p q with
    | Ok r => Ok (params_scale r (Fin c))
    | Raise e => Raise e
    end.
Proof.
  intros Hc. unfold params_add, same_shape. rewrite !shape_params_scale.
  destruct (shape_eqb (shape p) (shape q)); [|reflexivity].
  now rewrite map2_map2_fadd_scaled.
Qed.

Lemma add_reduce_scaled (c : Qc) (l : list params) :
  (c ?= Q2Qc 0)%Qc = Gt ->
  forall acc,
    add_reduce (params_scale acc (Fin c))
               (map (fun x => params_scale x (Fin c)) l)
    = match add_reduce acc l with
      | Ok r => Ok (params_scale r (Fin c))
      | Raise e => Raise e
      end.
Proof.
  intros Hc. induction l as [|x l IH]; intros acc; cbn [map add_reduce].
  - reflexivity.
  - rewrite params_add_scaled by exact Hc.
    destruct (params_add acc x) as [acc'|e]; [apply IH | reflexivity].
Qed.

Lemma map2_constant {A B C} (f : A -> B -> C) (g : A -> B) (l : list A) :
  map2 f l (map g l) = map (fun x => f x (g x)) l.
Proof. induction l as [|x l IH]; cbn; [reflexivity|]. now rewrite IH. Qed.

(** With equal sample counts the two aggregations are one. *)
Lemma aggregate_results_equal_counts (rs : list train_result) (c : Z) :
  rs <> [] -> c <> 0%Z ->
  Forall (fun r => samples_count r = c) rs ->
  aggregate_results "weighted_average" rs = aggregate_results "average" rs.
Proof.
  intros Hne Hc Hrs.
  assert (Hn : (0 < List.length rs)%nat) by (destruct rs; [contradiction|cbn; lia]).
  set (n := List.length rs) in *.
  assert (Hpos : ((Q2Qc (inject_Z 1) / Q2Qc (inject_Z (Z.of_nat n)))%Qc
                  ?= Q2Qc 0)%Qc = Gt) by (apply Qc_inv_pos; lia).
  unfold aggregate_results. cbn [String.eqb Ascii.eqb Bool.eqb].
  assert (Hsum : py_sum (map samples_count rs) = (Z.of_nat n * c)%Z)
    by now apply py_sum_equal_counts.
  assert (Hsum_ne : py_sum (map samples_count rs) <> 0%Z) by (rewrite Hsum; nia).
  rewrite get_edge_weights_fractions by exact Hsum_ne.
  unfold np_average, np_mean. rewrite !length_map, Nat.eqb_refl. cbn [negb].
  rewrite fsum_fractions, fraction_self, is_zero_one by exact Hsum_ne.
  assert (Hw : map (fun c' => fraction c' (py_sum (map samples_count rs)))
                   (map samples_count rs)
               = map (fun _ => fraction 1 (Z.of_nat n)) (map model_weights rs)).
  { rewrite !map_map. apply map_ext_in. intros r Hr.
    rewrite Forall_forall in Hrs. rewrite (Hrs r Hr), Hsum.
    now apply fraction_equal_share. }
  rewrite Hw, map2_constant.
  destruct (map model_weights rs) as [|x xs] eqn:Hmw.
  { destruct rs; [contradiction | discriminate]. }
  cbn [map]. unfold fraction at 1 2. rewrite add_reduce_scaled by exact Hpos.
  destruct (add_reduce x xs) as [s|e]; [|reflexivity].
  f_equal. f_equal. rewrite params_div_one.
  replace (List.length (x :: xs)) with n
    by (unfold n; now rewrite <- Hmw, length_map).
  unfold params_scale, params_div. apply map_ext. intros t. apply map_ext.
  intros v. unfold of_nat. symmetry. apply fdiv_as_fmul. lia.
Qed.

Lemma collect_ok_in {A} (outs : list (res A)) (rs : list A) (r : A) :
  collect outs = Ok rs -> In r rs -> In (Ok r) outs.
Proof.
  intros C Hr. apply collect_ok_nth in C. subst. now apply in_map.
Qed.

Lemma answers_in (w : world) (a : arguments) (i : nat) (m : gmodel)
    (o : res train_result) :
  In o (answers w i 0 (jobs_of a m)) ->
  exists id e,
    o = remote w i id (make_job a (architecture m) (weights m) e).
Proof.
  intros H. apply In_nth_error in H. destruct H as [k Hk].
  rewrite answers_nth in Hk. unfold jobs_of in Hk.
  destruct (packs m); [|destruct k; discriminate].
  rewrite nth_error_map in Hk.
  destruct (nth_error (endpoint_ids a) k) as [e|]; [|discriminate].
  cbn in Hk. injection Hk as <-. eauto.
Qed.

Lemma round_events_equal_counts (w : world) (a : arguments) (c : Z) (i : nat)
    (m : gmodel) :
  c <> 0%Z ->
  (forall i id arch ws e r,
     remote w i id (make_job a arch ws e) = Ok r -> samples_count r = c) ->
  endpoint_ids a <> [] ->
  round_events w (with_mode a "weighted_average") i m
  = round_events w (with_mode a "average") i m.
Proof.
  intros Hc Hw Hne. unfold round_events.
  destruct (packs m) eqn:Pk; [|reflexivity].
  change (jobs_of (with_mode a "weighted_average") m) with (jobs_of a m).
  change (jobs_of (with_mode a "average") m) with (jobs_of a m).
  destruct (collect (answers w i 0 (jobs_of a m))) as [rs|e] eqn:C;
    [|reflexivity].
  cbn [federated_mode with_mode].
  rewrite (aggregate_results_equal_counts rs c); [reflexivity| |exact Hc|].
  - intros ->. apply collect_ok_length in C.
    rewrite answers_length, (length_jobs_of a m Pk) in C.
    destruct (endpoint_ids a); [contradiction | discriminate].
  - apply Forall_forall. intros r Hr.
    destruct (answers_in w a i m _ (collect_ok_in _ _ _ C Hr)) as [id [e He]].
    apply (Hw i id (architecture m) (weights m) e). now symmetry.
Qed.

Lemma runs_agree_on_equal_counts (w : world) (a : arguments) (m : gmodel)
    (c : Z) :
  c <> 0%Z ->
  (forall i id arch ws e r,
     remote w i id (make_job a arch ws e) = Ok r -> samples_count r = c) ->
  endpoint_ids a <> [] ->
  fst (run w (with_mode a "weighted_average") m)
  = fst (run w (with_mode a "average") m)
  /\ global_model (snd (run w (with_mode a "weighted_average") m))
     = global_model (snd (run w (with_mode a "average") m))
  /\ trace (snd (run w (with_mode a "weighted_average") m))
     = trace (snd (run w (with_mode a "average") m)).
Proof.
  intros Hc Hw Hne.
  assert (R : forall rounds m0,
             rounds_events w (with_mode a "weighted_average") rounds m0
             = rounds_events w (with_mode a "average") rounds m0).
  { induction rounds as [|i rounds IH]; intros m0; cbn [rounds_events];
      [reflexivity|].
    rewrite (round_events_equal_counts w a c i m0 Hc Hw Hne).
    destruct (round_events w (with_mode a "average") i m0)
      as [[[[]|e] m1] evs]; [|reflexivity].
    now rewrite IH. }
  destruct (run_obs w (with_mode a "weighted_average") m) as [ex E].
  destruct (run_obs w (with_mode a "average") m) as [ex' E'].
  rewrite E, E'. cbn [loops with_mode fst snd global_model trace].
  rewrite R. repeat split.
Qed.



(** ** Sample counts that sum to zero *)

Lemma fadd_NaN_l (x : npfloat) : fadd NaN x = NaN.
Proof. now destruct x. Qed.

Lemma fdiv_NaN_r (x : npfloat) : fdiv x NaN = NaN.
Proof. now destruct x. Qed.

Lemma fold_fadd_NaN (l : list npfloat) : fold_left fadd l NaN = NaN.
Proof.
  induction l as [|x l IH]; cbn [fold_left]; [reflexivity|].
  now rewrite fadd_NaN_l.
Qed.

Lemma py_sum_nonneg (l : list Z) :
  Forall (fun c => 0 <= c)%Z l -> (0 <= py_sum l)%Z.
Proof.
  induction 1 as [|c l Hc _ IH]; [unfold py_sum; cbn; lia|].
  cbn beta in Hc. rewrite py_sum_cons. lia.
Qed.

Lemma py_sum_nonpos (l : list Z) :
  Forall (fun c => c <= 0)%Z l -> (py_sum l <= 0)%Z.
Proof.
  induction 1 as [|c l Hc _ IH]; [unfold py_sum; cbn; lia|].
  cbn beta in Hc. rewrite py_sum_cons. lia.
Qed.

Lemma fold_signs_from_PInf (cs : list Z) :
  fold_left fadd (map (fun c => signed_inf (c ?= 0)%Z) cs) PInf = NaN
  \/ Forall (fun c => 0 <= c)%Z cs.
Proof.
  induction cs as [|c cs IH]; [right; constructor|].
  cbn [map fold_left]. destruct (c ?= 0)%Z eqn:E; cbn [signed_inf fadd].
  - left. apply fold_fadd_NaN.
  - left. apply fold_fadd_NaN.
  - destruct IH as [IH|IH]; [now left|]. right. constructor; [|exact IH].
    apply Z.compare_gt_iff in E. lia.
Qed.

Lemma fold_signs_from_NInf (cs : list Z) :
  fold_left fadd (map (fun c => signed_inf (c ?= 0)%Z) cs) NInf = NaN
  \/ Forall (fun c => c <= 0)%Z cs.
Proof.
  induction cs as [|c cs IH]; [right; constructor|].
  cbn [map fold_left]. destruct (c ?= 0)%Z eqn:E; cbn [signed_inf fadd].
  - left. apply fold_fadd_NaN.
  - destruct IH as [IH|IH]; [now left|]. right. constructor; [|exact IH].
    change (c < 0)%Z in E. lia.
  - left. apply fold_fadd_NaN.
Qed.

(** The weights of counts that sum to zero sum to [nan]. *)
Lemma fsum_zero_sum_weights (cs : list Z) :
  cs <> [] -> py_sum cs = 0%Z ->
  fsum (map (fun c => fdiv (of_int c) (of_int (py_sum cs))) cs) = NaN.
Proof.
  intros Hne Hs. rewrite Hs.
  rewrite (map_ext _ (fun c => signed_inf (c ?= 0)%Z))
    by (intros c; apply fdiv_of_int_zero).
  destruct cs as [|c cs]; [contradiction|].
  rewrite py_sum_cons in Hs. cbn [map]. rewrite fsum_cons.
  destruct (c ?= 0)%Z eqn:E; cbn [signed_inf].
  - apply fold_fadd_NaN.
  - change (c < 0)%Z in E.
    destruct (fold_signs_from_NInf cs) as [H|H]; [exact H|].
    apply py_sum_nonpos in H. lia.
  - apply Z.compare_gt_iff in E.
    destruct (fold_signs_from_PInf cs) as [H|H]; [exact H|].
    apply py_sum_nonneg in H. lia.
Qed.

Lemma all_entries (P : npfloat -> Prop) (p : params) :
  (forall j k, P (entry p j k)) -> Forall (Forall P) p.
Proof.
  intros H. apply Forall_forall. intros t Ht. apply Forall_forall. intros v Hv.
  apply (In_nth _ _ []) in Ht. destruct Ht as [j [_ Hj]].
  subst t. apply (In_nth _ _ NaN) in Hv. destruct Hv as [k [_ Hk]].
  subst v. exact (H j k).
Qed.

(** X10.  In [weighted_average] mode, sample counts that sum to zero do
    not stop the round: the weights are [nan] or infinite, their sum is
    [nan], which is not [== 0.0], so [np.average] raises nothing and the
    round commits parameters that are [nan] everywhere. *)
Theorem zero_sum_counts_commit_nan (w : world) (a : arguments) (i : nat)
    (s : state) :
  federated_mode a = "weighted_average"%string ->
  fst (fl_round w a i s) = Ok tt ->
  exists rs,
    collect (answers w i 0 (jobs_of a (global_model s))) = Ok rs
    /\ (py_sum (map samples_count rs) = 0%Z ->
        Forall (Forall (fun v => v = NaN))
               (weights (global_model (snd (fl_round w a i s))))).
Proof.
  intros Hmode Hok.
  destruct (fl_round_commits w a i s Hok) as [rs [p [C [_ [Ag [_ [-> _]]]]]]].
  exists rs. split; [exact C|]. intros Hs.
  unfold aggregate_results in Ag. rewrite Hmode in Ag.
  cbv beta iota zeta delta [String.eqb Ascii.eqb Bool.eqb get_edge_weights]
    in Ag.
  apply np_average_ok in Ag. destruct Ag as [_ [Hz He]].
  assert (Hne : map samples_count rs <> []).
  { destruct rs; [discriminate Hz | discriminate]. }
  apply all_entries. intros j k.
  now rewrite He, (fsum_zero_sum_weights _ Hne Hs), fdiv_NaN_r.
Qed.

(** X10, witness: two endpoints that both report 0 samples; the round
    completes and the model's only entry becomes [nan]. *)
Lemma zero_sum_counts_commit_nan_witness :
  fst (fl_round idle_endpoints weighted_call 0 (initial_state toy_model))
  = Ok tt
  /\ weights (global_model
        (snd (fl_round idle_endpoints weighted_call 0 (initial_state toy_model))))
     = [[NaN]].
Proof.
  destruct (zero_sum_counts_commit_nan idle_endpoints weighted_call 0
              (initial_state toy_model)) as [rs [C H]].
  - reflexivity.
  - vm_compute. reflexivity.
  - split; [vm_compute; reflexivity|].
    vm_compute in C. injection C as <-. specialize (H eq_refl).
    destruct (weights _) as [|[|v [|? ?]] [|? ?]] eqn:W;
      vm_compute in W; try discriminate.
    inversion H as [|? ? Ht _]; subst. inversion Ht as [|? ? Hv _]; subst.
    reflexivity.
Defined.

(** ** More on get_edge_weights *)

Lemma py_sum_scaled (k : Z) (l : list Z) :
  py_sum (map (Z.mul k) l) = (k * py_sum l)%Z.
Proof.
  induction l as [|c l IH]; [unfold py_sum; cbn; lia|].
  cbn [map]. rewrite !py_sum_cons, IH. lia.
Qed.

Lemma fraction_scaled (k c t : Z) :
  k <> 0%Z -> t <> 0%Z -> fraction (k * c) (k * t) = fraction c t.
Proof.
  intros Hk Ht. unfold fraction. f_equal. rewrite !Q2Qc_inject_Z_mul.
  field. split; rewrite Q2Qc_inject_Z_0; assumption.
Qed.

(** X11.  The weights depend on the proportions of the sample counts only:
    multiplying every count by the same non-zero integer changes nothing,
    for counts that do not sum to zero and as long as both arrays and their
    sums fit [int64]. *)
Theorem get_edge_weights_scale_invariant (k : Z) (sample_counts : list Z) :
  k <> 0%Z -> py_sum sample_counts <> 0%Z ->
  fits_int64 sample_counts ->
  fits_int64 (map (Z.mul k) sample_counts) ->
  get_edge_weights (map (Z.mul k) sample_counts)
  = get_edge_weights sample_counts.
Proof.
  intros Hk Hs _ _.
  rewrite !get_edge_weights_fractions; rewrite ?py_sum_scaled; try nia.
  f_equal. rewrite map_map. apply map_ext. intros c.
  now apply fraction_scaled.
Qed.

(** X11, witness: the counts [[1, 3]] and [[100, 300]]. *)
Lemma get_edge_weights_scale_invariant_witness :
  get_edge_weights [100; 300]%Z = get_edge_weights [1; 3]%Z.
Proof.
  apply (get_edge_weights_scale_invariant 100 [1; 3]%Z);
    try discriminate;
    (split; [repeat constructor|]; unfold int64; cbn; lia).
Defined.

Lemma count_le_py_sum (l : list Z) (c : Z) :
  Forall (fun c => 0 <= c)%Z l -> In c l -> (c <= py_sum l)%Z.
Proof.
  induction 1 as [|d l Hd Hl IH]; [contradiction|].
  cbn beta in Hd. rewrite py_sum_cons. intros [->|Hc].
  - apply py_sum_nonneg in Hl. lia.
  - specialize (IH Hc). lia.
Qed.

Lemma fraction_le_one (c t : Z) :
  (c <= t)%Z -> (0 < t)%Z -> fleb (fraction c t) one = true.
Proof.
  intros Hc Ht. unfold fleb, fraction, one.
  destruct (_ ?= _)%Qc eqn:E; try reflexivity.
  exfalso. apply Qcgt_alt in E. revert E. apply Qle_not_lt.
  unfold Qcdiv, Qcmult, Qcinv. rewrite !this_Q2Qc, !Qred_correct.
  apply Qle_shift_div_r.
  - unfold Qlt, inject_Z. simpl. lia.
  - rewrite Qmult_1_l. unfold Qle, inject_Z. simpl. lia.
Qed.

Lemma fraction_ge_zero (c t : Z) :
  (0 <= c)%Z -> (0 <= t)%Z -> fleb zero (fraction c t) = true.
Proof.
  intros Hc Ht. unfold fleb, zero, fraction.
  assert (H : (Q2Qc 0 <= Q2Qc (inject_Z c) / Q2Qc (inject_Z t))%Qc)
    by (apply Qcdiv_nonneg; now apply Qcle_inject_Z).
  destruct (_ ?= _)%Qc eqn:E; try reflexivity.
  apply Qcgt_alt in E. exfalso. revert E. now apply Qle_not_lt.
Qed.

Lemma fraction_zero (t : Z) : fraction 0 t = zero.
Proof.
  unfold fraction, zero. f_equal. unfold Qcdiv.
  replace (Q2Qc (inject_Z 0)) with (Q2Qc 0) by reflexivity. ring.
Qed.

(** X12.  Counts need not all be positive for the weights to be proper:
    for non-negative counts of positive sum, the sum fitting [int64], every
    weight lies between 0 and 1, the weights sum to 1, and an endpoint that
    trained on no sample gets the weight 0. *)
Theorem get_edge_weights_nonnegative_counts (sample_counts : list Z) :
  Forall (fun c => 0 <= c)%Z sample_counts ->
  (0 < py_sum sample_counts)%Z ->
  fits_int64 sample_counts ->
  exists fractions,
    get_edge_weights sample_counts = Ok fractions
    /\ Forall (fun f => fleb zero f = true /\ fleb f one = true) fractions
    /\ fsum fractions = one
    /\ forall i,
         nth_error sample_counts i = Some 0%Z ->
         nth_error fractions i = Some zero.
Proof.
  intros Hnn Hs _.
  exists (map (fun c => fraction c (py_sum sample_counts)) sample_counts).
  split; [apply get_edge_weights_fractions; lia|]. split; [|split].
  - apply Forall_forall. intros f Hf. apply in_map_iff in Hf.
    destruct Hf as [c [<- Hc]].
    pose proof (count_le_py_sum _ _ Hnn Hc) as Hle.
    rewrite Forall_forall in Hnn. specialize (Hnn c Hc). cbn beta in Hnn.
    split; [apply fraction_ge_zero; lia | now apply fraction_le_one].
  - rewrite fsum_fractions. apply fraction_self. lia.
  - intros i Hi. rewrite nth_error_map, Hi. cbn. now rewrite fraction_zero.
Qed.

(** X12, witness: the counts [[0, 100, 300]]. *)
Lemma get_edge_weights_nonnegative_counts_witness :
  exists fractions,
    get_edge_weights [0; 100; 300]%Z = Ok fractions
    /\ nth_error fractions 0 = Some zero
    /\ fsum fractions = one.
Proof.
  destruct (get_edge_weights_nonnegative_counts [0; 100; 300]%Z)
    as [fr [G [_ [Hs Hz]]]].
  - repeat constructor; lia.
  - reflexivity.
  - split; [repeat constructor|]; unfold int64; cbn; lia.
  - exists fr. split; [exact G|]. split; [exact (Hz 0%nat eq_refl) | exact Hs].
Defined.

(** * training_function *)

Lemma map_nth_seq {A B} (g : A -> B) (d : A) (l : list A) :
  map (fun i => g (nth i l d)) (seq 0 (List.length l)) = map g l.
Proof.
  induction l as [|a l IH]; [reflexivity|].
  cbn [List.length seq map nth]. f_equal.
  rewrite <- seq_shift, map_map. exact IH.
Qed.

Lemma take_rows_all {A B} (f : A -> B) (d : B) (l : list A) :
  take_rows d (map f l) (seq 0 (List.length l)) = map f l.
Proof.
  unfold take_rows. rewrite <- (length_map f l).
  rewrite (map_nth_seq (fun r => r) d (map f l)). apply map_id.
Qed.

Lemma take_rows_fst {A B} (d : A) (e : B) (l : list (A * B)) (idx : list nat) :
  take_rows d (map fst l) idx = map (fun i => fst (nth i l (d, e))) idx.
Proof.
  unfold take_rows. apply map_ext. intros i.
  change d with (fst (d, e)) at 1. apply map_nth.
Qed.

Lemma take_rows_snd {A B} (d : A) (e : B) (l : list (A * B)) (idx : list nat) :
  take_rows e (map snd l) idx = map (fun i => snd (nth i l (d, e))) idx.
Proof.
  unfold take_rows. apply map_ext. intros i.
  change e with (snd (d, e)) at 1. apply map_nth.
Qed.

Lemma last_axis_prepared (x : images) :
  let x' := if negb (existsb (Nat.eqb (last_axis x)) [1; 3]%nat)
            then expand_dims x else x in
  (last_axis x' = 1%nat \/ last_axis x' = 3%nat)
  /\ pixels x' = pixels x
  /\ (image_shape x' = image_shape x
      \/ image_shape x' = image_shape x ++ [1%nat]).
Proof.
  cbn zeta. destruct (existsb _ _) eqn:E; cbn [negb].
  - split; [|auto]. cbn [existsb] in E.
    destruct (Nat.eqb_spec (last_axis x) 1); [now left|].
    destruct (Nat.eqb_spec (last_axis x) 3); [now right|]. discriminate.
  - split; [|cbn; auto]. left. unfold last_axis, expand_dims. cbn.
    now rewrite last_last.
Qed.

(** What a successful data preparation went through: the indices of the
    samples it kept, their pixels and their labels. *)
Lemma prepare_data_ok (E : endpoint) (num_samples_ : option Z) (x : images)
    (y : labels) :
  prepare_data E num_samples_ = Ok (x, y) ->
  exists shape_ samples idx y_cat,
    load_data E tf_keras_dataset = Ok (shape_, samples)
    /\ ((py_truth num_samples_ = false /\ idx = seq 0 (List.length samples))
        \/ exists n,
             num_samples_ = Some n /\ (0 < n)%Z /\ samples <> []
             /\ idx = map (fun k => rng E k mod List.length samples)
                          (seq 0 (Z.to_nat n)))
    /\ pixels x
       = map (fun i => map (fun v => fdiv v (of_int 255))
                           (fst (nth i samples ([], 0%Z)))) idx
    /\ to_categorical E (map (fun i => snd (nth i samples ([], 0%Z))) idx) 10
       = Ok y_cat
    /\ y = Categorical y_cat
    /\ (image_shape x = shape_ \/ image_shape x = shape_ ++ [1%nat])
    /\ (last_axis x = 1%nat \/ last_axis x = 3%nat).
Proof.
  unfold prepare_data.
  replace (String.eqb tf_data_source "keras") with true by reflexivity.
  replace (py_in tf_keras_dataset available_datasets) with true by reflexivity.
  replace (py_in tf_keras_dataset image_datasets) with true by reflexivity.
  replace (String.eqb tf_keras_dataset "cifar100") with false by reflexivity.
  unfold tf_preprocess. cbn [negb].
  destruct (load_data E tf_keras_dataset) as [[shape_ samples]|e] eqn:L;
    [|discriminate].
  cbn [rbind fst snd].
  assert (Sampled : forall idx,
    (y_cat <~ to_categorical E (take_rows 0%Z (map snd samples) idx) 10 ;;
     Ok (if negb (existsb (Nat.eqb (last_axis (scale_pixels
                     {| image_shape := shape_;
                        pixels := take_rows [] (map fst samples) idx |})))
                          [1; 3]%nat)
         then expand_dims (scale_pixels
                {| image_shape := shape_;
                   pixels := take_rows [] (map fst samples) idx |})
         else scale_pixels
                {| image_shape := shape_;
                   pixels := take_rows [] (map fst samples) idx |},
         Categorical y_cat)) = Ok (x, y) ->
    exists y_cat,
      pixels x
      = map (fun i => map (fun v => fdiv v (of_int 255))
                          (fst (nth i samples ([], 0%Z)))) idx
      /\ to_categorical E (map (fun i => snd (nth i samples ([], 0%Z))) idx) 10
         = Ok y_cat
      /\ y = Categorical y_cat
      /\ (image_shape x = shape_ \/ image_shape x = shape_ ++ [1%nat])
      /\ (last_axis x = 1%nat \/ last_axis x = 3%nat)).
  { intros idx H.
    rewrite (take_rows_snd [] 0%Z) in H.
    destruct (to_categorical E _ 10) as [y_cat|e] eqn:T; [|discriminate].
    cbn [rbind] in H.
    set (x0 := scale_pixels
                 {| image_shape := shape_;
                    pixels := take_rows [] (map fst samples) idx |}) in *.
    destruct (last_axis_prepared x0) as [Hl [Hp Hs]]. cbn zeta in Hl, Hp, Hs.
    injection H as <- <-.
    exists y_cat. split.
    - etransitivity; [exact Hp|]. unfold x0. cbn [scale_pixels pixels].
      now rewrite (take_rows_fst [] 0%Z), map_map.
    - split; [reflexivity|]. split; [reflexivity|].
      split; [exact Hs | exact Hl]. }
  destruct (py_truth num_samples_) eqn:Tr.
  - destruct num_samples_ as [n|]; [|discriminate].
    cbn [py_truth] in Tr. apply negb_true_iff, Z.eqb_neq in Tr.
    unfold random_choice. rewrite length_map.
    destruct ((List.length samples =? 0)%nat && negb (n =? 0)%Z) eqn:Emp;
      [discriminate|].
    destruct (n <? 0)%Z eqn:Neg; [discriminate|]. apply Z.ltb_ge in Neg.
    cbn [rbind fst snd]. intros H.
    destruct (Sampled (map (fun k => rng E k mod List.length samples)
                           (seq 0 (Z.to_nat n))) H) as [y_cat Hy].
    exists shape_, samples,
      (map (fun k => rng E k mod List.length samples) (seq 0 (Z.to_nat n))),
      y_cat.
    split; [reflexivity|]. split; [|exact Hy].
    right. exists n. split; [reflexivity|]. split; [lia|]. split; [|reflexivity].
    intros ->. cbn in Emp. apply Z.eqb_neq in Tr. now rewrite Tr in Emp.
  - cbn [rbind fst snd]. intros H.
    destruct (Sampled (seq 0 (List.length samples))) as [y_cat Hy].
    { rewrite !take_rows_all. exact H. }
    exists shape_, samples, (seq 0 (List.length samples)), y_cat.
    split; [reflexivity|]. split; [|exact Hy].
    now left.
Qed.

Lemma training_function_ok (E : endpoint) (cfg : string) (ws : params)
    (num_samples_ : option Z) (epochs_ : Z) (r : train_result) :
  training_function E cfg ws num_samples_ epochs_ = Ok r ->
  exists x y,
    prepare_data E num_samples_ = Ok (x, y)
    /\ samples_count r = Z.of_nat (List.length (pixels x)).
Proof.
  unfold training_function.
  destruct (prepare_data E num_samples_) as [[x y]|e]; [|discriminate].
  cbn [rbind fst snd].
  destruct (model_from_json E cfg) as [m0|e]; [|discriminate]. cbn [rbind].
  destruct (match model_set_weights E (compile E m0) ws with
            | Ok model' => Ok model'
            | Raise _ =>
                model' <~ model_build E (compile E m0) ;;
                model_set_weights E model' ws
            end) as [m1|e]; [|discriminate].
  cbn [rbind].
  destruct (model_fit E m1 x y epochs_) as [m2|e]; [|discriminate].
  cbn [rbind]. unfold np_asarray_object.
  destruct (object_array_packs _); [|discriminate].
  cbn [rbind]. intros [= <-]. exists x, y. auto.
Qed.

Lemma sample_count_rule (E : endpoint) (cfg : string) (ws : params)
    (num_samples_ : option Z) (epochs_ : Z) (r : train_result) :
  training_function E cfg ws num_samples_ epochs_ = Ok r ->
  exists shape_ samples,
    load_data E tf_keras_dataset = Ok (shape_, samples)
    /\ (py_truth num_samples_ = false ->
        samples_count r = Z.of_nat (List.length samples))
    /\ (forall n, num_samples_ = Some n -> n <> 0%Z ->
          (0 < n)%Z /\ samples <> [] /\ samples_count r = n).
Proof.
  intros H. destruct (training_function_ok _ _ _ _ _ _ H) as [x [y [P ->]]].
  destruct (prepare_data_ok _ _ _ _ P)
    as [shape_ [samples [idx [y_cat [L [Hidx [Hp _]]]]]]].
  exists shape_, samples. split; [exact L|].
  rewrite Hp, length_map.
  destruct Hidx as [[Tr ->]|[n [-> [Hn [Hs ->]]]]].
  - split; [intros _; now rewrite length_seq|].
    intros n -> Hn. cbn in Tr. apply negb_false_iff, Z.eqb_eq in Tr. lia.
  - split; [intros Tr; cbn in Tr; apply negb_false_iff, Z.eqb_eq in Tr; lia|].
    intros n' [= <-] _. rewrite length_map, length_seq.
    split; [exact Hn|]. split; [exact Hs|]. lia.
Qed.

(** X13.  The sample count [training_function] reports is the requested
    [num_samples] whenever that is a non-zero number, then necessarily
    positive: the samples are drawn with replacement, so the count may
    exceed the size of the dataset; with [num_samples] [None] or [0] the
    whole dataset is used and the count is its size. *)
Theorem training_function_sample_count (E : endpoint) (cfg : string)
    (ws : params) (num_samples_ : option Z) (epochs_ : Z) (r : train_result) :
  training_function E cfg ws num_samples_ epochs_ = Ok r ->
  exists shape_ samples,
    load_data E tf_keras_dataset = Ok (shape_, samples)
    /\ (num_samples_ = None \/ num_samples_ = Some 0%Z ->
        samples_count r = Z.of_nat (List.length samples))
    /\ (forall n, num_samples_ = Some n -> n <> 0%Z ->
          (0 < n)%Z /\ samples <> [] /\ samples_count r = n).
Proof.
  intros H. destruct (sample_count_rule _ _ _ _ _ _ H)
    as [shape_ [samples [L [H0 Hn]]]].
  exists shape_, samples. split; [exact L|]. split; [|exact Hn].
  intros [-> | ->]; now apply H0.
Qed.

(** X13, witness: the toy endpoint holds 3 samples; asked for 5 it reports
    5, asked for [None] it reports 3. *)
Lemma training_function_sample_count_witness :
  (exists r, training_function toy_endpoint "{}" [] (Some 5%Z) 10 = Ok r
             /\ samples_count r = 5%Z)
  /\ (exists r, training_function toy_endpoint "{}" [] None 10 = Ok r
                /\ samples_count r = 3%Z).
Proof.
  split.
  - destruct (training_function toy_endpoint "{}" [] (Some 5%Z) 10) as [r|e] eqn:T;
      [|vm_compute in T; discriminate].
    exists r. split; [reflexivity|].
    destruct (training_function_sample_count _ _ _ _ _ _ T)
      as [sh [samples [_ [_ Hn]]]].
    destruct (Hn 5%Z eq_refl) as [_ [_ Hc]]; [discriminate | exact Hc].
  - destruct (training_function toy_endpoint "{}" [] None 10) as [r|e] eqn:T;
      [|vm_compute in T; discriminate].
    exists r. split; [reflexivity|].
    destruct (training_function_sample_count _ _ _ _ _ _ T)
      as [sh [samples [L [H0 _]]]].
    rewrite H0 by now left. cbn in L. now injection L as <- <-.
Defined.

Lemma negative_samples_raise (E : endpoint) (cfg : string) (ws : params)
    (n : Z) (epochs_ : Z) :
  (n < 0)%Z ->
  (exists d, load_data E tf_keras_dataset = Ok d) ->
  exists msg,
    training_function E cfg ws (Some n) epochs_ = Raise (ValueError msg).
Proof.
  intros Hn [d L]. unfold training_function, prepare_data.
  replace (String.eqb tf_data_source "keras") with true by reflexivity.
  replace (py_in tf_keras_dataset available_datasets) with true by reflexivity.
  cbn [negb]. rewrite L. cbn [rbind py_truth].
  replace (n =? 0)%Z with false by (symmetry; apply Z.eqb_neq; lia).
  cbn [negb]. unfold random_choice.
  replace (n <? 0)%Z with true by (symmetry; apply Z.ltb_lt; lia).
  destruct (_ && _); eexists; reflexivity.
Qed.

(** X14.  A negative [num_samples] is truthy, so the sampling is attempted
    and [np.random.choice] refuses it (for the empty population or for the
    negative size): as soon as the dataset loads, [training_function]
    raises a [ValueError], whatever the model, the weights and the Keras
    operations of the endpoint; no model is ever trained. *)
Theorem training_function_negative_samples (E : endpoint) (cfg : string)
    (ws : params) (n : Z) (epochs_ : Z) :
  (n < 0)%Z ->
  (exists d, load_data E tf_keras_dataset = Ok d) ->
  exists msg,
    training_function E cfg ws (Some n) epochs_ = Raise (ValueError msg).
Proof. apply negative_samples_raise. Qed.

(** X14, witness: the toy endpoint asked for -1 sample. *)
Lemma training_function_negative_samples_witness :
  exists msg,
    training_function toy_endpoint "{}" [] (Some (-1)%Z) 10
    = Raise (ValueError msg).
Proof.
  apply (training_function_negative_samples toy_endpoint "{}" [] (-1) 10).
  - reflexivity.
  - eexists. reflexivity.
Defined.

(** X15.  The samples the model is trained on are samples of the endpoint's
    dataset, each kept with its own label: the images and the labels are
    selected by the same indices, all within the dataset; every pixel is
    the dataset's pixel divided by 255, the labels go through
    [to_categorical] with 10 classes, and the last axis of the image array
    is 1 or 3 (a channel axis is appended otherwise). *)
Theorem prepared_samples_keep_their_labels (E : endpoint)
    (num_samples_ : option Z) (x : images) (y : labels) :
  prepare_data E num_samples_ = Ok (x, y) ->
  exists shape_ samples idx y_cat,
    load_data E tf_keras_dataset = Ok (shape_, samples)
    /\ Forall (fun i => (i < List.length samples)%nat) idx
    /\ pixels x
       = map (fun i => map (fun v => fdiv v (of_int 255))
                           (fst (nth i samples ([], 0%Z)))) idx
    /\ to_categorical E (map (fun i => snd (nth i samples ([], 0%Z))) idx) 10
       = Ok y_cat
    /\ y = Categorical y_cat
    /\ (image_shape x = shape_ \/ image_shape x = shape_ ++ [1%nat])
    /\ (last_axis x = 1%nat \/ last_axis x = 3%nat).
Proof.
  intros P. destruct (prepare_data_ok _ _ _ _ P)
    as [shape_ [samples [idx [y_cat [L [Hidx H]]]]]].
  exists shape_, samples, idx, y_cat. split; [exact L|]. split; [|exact H].
  apply Forall_forall. intros i Hi.
  destruct Hidx as [[_ ->]|[n [_ [_ [Hs ->]]]]].
  - apply in_seq in Hi. lia.
  - apply in_map_iff in Hi. destruct Hi as [k [<- _]].
    apply Nat.mod_upper_bound. destruct samples; [contradiction|discriminate].
Qed.

(** X15, witness: the toy endpoint asked for 2 samples draws the samples 1
    and 0 of its dataset (its generator gives 1, 3, ...). *)
Lemma prepared_samples_keep_their_labels_witness :
  exists x y_cat,
    prepare_data toy_endpoint (Some 2%Z) = Ok (x, Categorical y_cat)
    /\ List.length (pixels x) = 2%nat
    /\ (last_axis x = 1%nat \/ last_axis x = 3%nat).
Proof.
  destruct (prepare_data toy_endpoint (Some 2%Z)) as [[x y]|e] eqn:P;
    [|vm_compute in P; discriminate].
  destruct (prepared_samples_keep_their_labels _ _ _ _ P)
    as [sh [samples [idx [y_cat [_ [_ [_ [_ [-> [_ Hl]]]]]]]]]].
  exists x, y_cat. split; [reflexivity|]. split; [|exact Hl].
  vm_compute in P. injection P as <- _. reflexivity.
Defined.

Lemma fleb_zero_Fin (v : npfloat) :
  fleb zero v = true -> fleb v (of_int 255) = true ->
  exists a, v = Fin a /\ (Q2Qc 0 <= a)%Qc /\ (a <= Q2Qc (inject_Z 255))%Qc.
Proof.
  unfold fleb, zero, of_int. destruct v as [a| | |]; try discriminate.
  intros H0 H1. exists a. split; [reflexivity|]. split.
  - apply Qcle_alt. intros E. rewrite E in H0. discriminate.
  - apply Qcle_alt. intros E. rewrite E in H1. discriminate.
Qed.

Lemma scaled_pixel_range (v : npfloat) :
  fleb zero v = true -> fleb v (of_int 255) = true ->
  fleb zero (fdiv v (of_int 255)) = true
  /\ fleb (fdiv v (of_int 255)) one = true.
Proof.
  intros H0 H1. destruct (fleb_zero_Fin v H0 H1) as [a [-> [Ha0 Ha1]]].
  unfold of_int, fdiv.
  replace (Qc_eq_bool (Q2Qc (inject_Z 255)) (Q2Qc 0)) with false by reflexivity.
  unfold fleb, zero, one. split.
  - assert (H : (Q2Qc 0 <= a / Q2Qc (inject_Z 255))%Qc)
      by (apply Qcdiv_nonneg; [exact Ha0 | now apply Qcle_inject_Z]).
    destruct (_ ?= _)%Qc eqn:E; try reflexivity.
    apply Qcgt_alt in E. exfalso. revert E. now apply Qle_not_lt.
  - destruct (_ ?= _)%Qc eqn:E; try reflexivity.
    exfalso. apply Qcgt_alt in E. revert E. apply Qle_not_lt.
    unfold Qcdiv, Qcmult, Qcinv. rewrite !this_Q2Qc, !Qred_correct.
    apply Qle_shift_div_r; [reflexivity|].
    rewrite Qmult_1_l. unfold Qcle in Ha1. rewrite this_Q2Qc, Qred_correct in Ha1.
    exact Ha1.
Qed.

(** X16.  The scaling does what its comment says: if every pixel of the
    endpoint's dataset lies between 0 and 255, every pixel of the images
    the model is trained on lies between 0 and 1. *)
Theorem prepared_pixels_in_unit_range (E : endpoint) (num_samples_ : option Z)
    (x : images) (y : labels) :
  (forall shape_ samples,
     load_data E tf_keras_dataset = Ok (shape_, samples) ->
     Forall (fun s => Forall (fun v => fleb zero v = true
                                       /\ fleb v (of_int 255) = true) (fst s))
            samples) ->
  prepare_data E num_samples_ = Ok (x, y) ->
  Forall (Forall (fun v => fleb zero v = true /\ fleb v one = true)) (pixels x).
Proof.
  intros Hraw P. destruct (prepare_data_ok _ _ _ _ P)
    as [shape_ [samples [idx [y_cat [L [_ [-> _]]]]]]].
  specialize (Hraw _ _ L). rewrite Forall_forall in Hraw.
  apply Forall_forall. intros row Hrow. apply in_map_iff in Hrow.
  destruct Hrow as [i [<- _]].
  apply Forall_forall. intros v Hv. apply in_map_iff in Hv.
  destruct Hv as [v0 [<- Hv0]].
  destruct (Nat.lt_ge_cases i (List.length samples)) as [Hi|Hi].
  - specialize (Hraw (nth i samples ([], 0%Z)) (nth_In _ _ Hi)).
    rewrite Forall_forall in Hraw. destruct (Hraw v0 Hv0).
    now apply scaled_pixel_range.
  - rewrite nth_overflow in Hv0 by exact Hi. contradiction.
Qed.

(** X16, witness: the toy dataset, whose pixels are 0, 5, 51, 102 and
    255. *)
Lemma prepared_pixels_in_unit_range_witness :
  exists x y,
    prepare_data toy_endpoint None = Ok (x, y)
    /\ Forall (Forall (fun v => fleb zero v = true /\ fleb v one = true))
              (pixels x).
Proof.
  destruct (prepare_data toy_endpoint None) as [[x y]|e] eqn:P;
    [|vm_compute in P; discriminate].
  exists x, y. split; [reflexivity|].
  apply (prepared_pixels_in_unit_range toy_endpoint None x y); [|exact P].
  intros sh samples [= <- <-].
  repeat constructor.
Defined.

(** ** The orchestrator over training_function *)

(** X17.  When the endpoints run [training_function] and the call asks for
    a positive [num_samples], every endpoint reports exactly that count, so
    the weights of [weighted_average] are uniform and the run is the run in
    [average] mode: same outcome, same model, same trace.  (Exact
    arithmetic.) *)
Theorem positive_num_samples_makes_the_modes_agree
    (endpoints : nat -> nat -> endpoint) (order : list nat -> nat)
    (evaluate : gmodel -> dataset -> dataset -> res (npfloat * npfloat))
    (a : arguments) (m : gmodel) :
  (0 < num_samples a)%Z ->
  endpoint_ids a <> [] ->
  fst (run (training_world endpoints order evaluate)
           (with_mode a "weighted_average") m)
  = fst (run (training_world endpoints order evaluate)
             (with_mode a "average") m)
  /\ global_model (snd (run (training_world endpoints order evaluate)
                            (with_mode a "weighted_average") m))
     = global_model (snd (run (training_world endpoints order evaluate)
                              (with_mode a "average") m))
  /\ trace (snd (run (training_world endpoints order evaluate)
                     (with_mode a "weighted_average") m))
     = trace (snd (run (training_world endpoints order evaluate)
                       (with_mode a "average") m)).
Proof.
  intros Hn Hne.
  apply (runs_agree_on_equal_counts _ a m (num_samples a)); [lia| |exact Hne].
  intros i id arch ws e r H. cbn in H.
  destruct (sample_count_rule _ _ _ _ _ _ H) as [sh [samples [_ [_ Hc]]]].
  destruct (Hc (num_samples a) eq_refl) as [_ [_ ->]]; [lia | reflexivity].
Qed.

(** X17, witness: the default call (100 samples) on two toy endpoints. *)
Lemma positive_num_samples_makes_the_modes_agree_witness :
  fst (run toy_training_world
           (with_mode (default_arguments toy_training_world ["E1"; "E2"]%string)
                      "weighted_average") {| architecture := "{}"; weight_shapes := []; weights := [] |})
  = fst (run toy_training_world
             (with_mode (default_arguments toy_training_world ["E1"; "E2"]%string)
                        "average") {| architecture := "{}"; weight_shapes := []; weights := [] |}).
Proof.
  destruct (positive_num_samples_makes_the_modes_agree
              (fun _ _ => toy_endpoint) (fun ids => last ids 0%nat)
              (fun _ _ _ => Ok (zero, one))
              (default_arguments toy_training_world ["E1"; "E2"]%string)
              {| architecture := "{}"; weight_shapes := []; weights := [] |}) as [H _].
  - reflexivity.
  - discriminate.
  - exact H.
Defined.

(** X18.  A negative [num_samples] reaches every endpoint unchecked: when
    the endpoints run [training_function] and can load their data, a run of
    at least one round over at least one endpoint, on a model whose weights
    go into one array of objects (line 190), fails with the [ValueError] of
    the first task, after submitting one job to every endpoint and without
    committing anything. *)
Theorem negative_num_samples_aborts_the_run
    (endpoints : nat -> nat -> endpoint) (order : list nat -> nat)
    (evaluate : gmodel -> dataset -> dataset -> res (npfloat * npfloat))
    (a : arguments) (m : gmodel) :
  packs m = true ->
  (num_samples a < 0)%Z ->
  endpoint_ids a <> [] ->
  (0 < loops a)%Z ->
  (forall i id, exists d, load_data (endpoints i id) tf_keras_dataset = Ok d) ->
  (exists msg,
     fst (run (training_world endpoints order evaluate) a m)
     = Raise (ValueError msg))
  /\ global_model (snd (run (training_world endpoints order evaluate) a m)) = m
  /\ trace (snd (run (training_world endpoints order evaluate) a m))
     = map Submit (map (make_job a (architecture m) (weights m))
                      (endpoint_ids a)).
Proof.
  intros Pk Hn Hne Hl Hload. rewrite <- (jobs_of_packs a m Pk).
  set (w := training_world endpoints order evaluate).
  destruct (run_obs w a m) as [ex E]. rewrite E.
  cbn [fst snd global_model trace].
  rewrite (seq_positive _ Hl). cbn [rounds_events].
  destruct (endpoint_ids a) as [|e es] eqn:Ids; [contradiction|].
  destruct (negative_samples_raise (endpoints 0%nat 0%nat)
              (architecture m) (weights m) (num_samples a) (epochs a) Hn
              (Hload 0%nat 0%nat)) as [msg Hmsg].
  rewrite (round_events_collect_error w a 0 m (ValueError msg)).
  - split; [exists msg; reflexivity|]. split; reflexivity.
  - rewrite (jobs_of_packs a m Pk), Ids.
    cbn [map List.length seq answers map2 collect].
    unfold w at 1. cbn [remote training_world].
    cbn [make_job job_num_samples json_model_config global_model_weights
         job_epochs].
    now rewrite Hmsg.
Qed.

(** X18, witness: two rounds asked with [num_samples = -5] on two toy
    endpoints. *)
Lemma negative_num_samples_aborts_the_run_witness :
  (exists msg,
     fst (run toy_training_world negative_samples_call toy_model)
     = Raise (ValueError msg))
  /\ global_model (snd (run toy_training_world negative_samples_call toy_model))
     = toy_model.
Proof.
  destruct (negative_num_samples_aborts_the_run
              (fun _ _ => toy_endpoint) (fun ids => last ids 0%nat)
              (fun _ _ _ => Ok (zero, one)) negative_samples_call toy_model)
    as [H1 [H2 _]].
  - reflexivity.
  - reflexivity.
  - discriminate.
  - reflexivity.
  - intros i id. eexists. reflexivity.
  - split; assumption.
Defined.

(** * The join on the tasks of a round *)

Lemma complete_next_finished (w : world) (ex : executor) :
  incl (finished ex) (finished (complete_next w ex)).
Proof.
  unfold complete_next. destruct (running ex) as [|t l]; [apply incl_refl|].
  destruct (extract _ _) as [[u r]|]; cbn; apply incl_appl, incl_refl.
Qed.

Lemma wait_finishes (w : world) (fuel : nat) :
  forall ex id ex' o,
    wait w fuel ex id = (ex', Some o) ->
    In id (map task_id (finished ex'))
    /\ incl (finished ex) (finished ex').
Proof.
  induction fuel as [|fuel IH]; intros ex id ex' o; cbn [wait].
  - destruct (find_task id (finished ex)) as [t|] eqn:F; [|discriminate].
    intros [= <- _]. apply find_task_some in F. destruct F as [Ht <-].
    split; [now apply in_map | apply incl_refl].
  - destruct (find_task id (finished ex)) as [t|] eqn:F.
    + intros [= <- _]. apply find_task_some in F. destruct F as [Ht <-].
      split; [now apply in_map | apply incl_refl].
    + intros H. destruct (IH _ _ _ _ H) as [Hin Hincl].
      split; [exact Hin|].
      eapply incl_tran; [apply complete_next_finished | exact Hincl].
Qed.

Lemma result_finishes (w : world) (id : future) (s s' : state)
    (r : train_result) :
  result w id s = (Ok r, s') ->
  In id (map task_id (finished (fx s')))
  /\ incl (finished (fx s)) (finished (fx s')).
Proof.
  unfold result.
  destruct (wait w (List.length (running (fx s))) (fx s) id) as [ex o] eqn:W.
  destruct o as [[r'|e]|]; try discriminate.
  intros [= _ <-]. cbn [fx]. exact (wait_finishes w _ _ _ _ _ W).
Qed.

Lemma mapM_result_finishes (w : world) {B} (g : train_result -> B)
    (ids : list future) :
  forall s s' rs,
    mapM (fun t => r <- result w t ;; ret (g r)) ids s = (Ok rs, s') ->
    (forall id, In id ids -> In id (map task_id (finished (fx s'))))
    /\ incl (finished (fx s)) (finished (fx s')).
Proof.
  induction ids as [|id ids IH]; intros s s' rs; cbn [mapM].
  - unfold ret. intros [= _ <-]. split; [contradiction | apply incl_refl].
  - unfold bind at 1. unfold bind at 1.
    destruct (result w id s) as [[r|e] s1] eqn:R; [|discriminate].
    unfold ret at 1. unfold bind at 1.
    destruct (mapM _ ids s1) as [[rs'|e] s2] eqn:Ms; [|discriminate].
    unfold ret. intros [= _ <-].
    destruct (result_finishes w id s s1 r R) as [Hid Hincl].
    destruct (IH _ _ _ Ms) as [Hids Hincl'].
    split.
    + intros id' [<-|Hin]; [|now apply Hids].
      apply in_map_iff in Hid. destruct Hid as [t [<- Ht]].
      apply in_map. now apply Hincl'.
    + eapply incl_tran; eassumption.
Qed.

Lemma all_finished_none_running (ex : executor) (T : list task) :
  known ex T -> NoDup (map task_id T) ->
  (forall t, In t T -> In (task_id t) (map task_id (finished ex))) ->
  running ex = [] /\ Permutation (finished ex) T.
Proof.
  unfold known. intros Hk Hnd Hall.
  assert (Hnd' : NoDup (map task_id (running ex ++ finished ex))).
  { eapply Permutation_NoDup; [|exact Hnd].
    apply Permutation_map. now symmetry. }
  destruct (running ex) as [|t l] eqn:R.
  - split; [reflexivity|]. exact Hk.
  - exfalso. cbn in Hnd'. inversion Hnd' as [|? ? Hnotin _]; subst.
    apply Hnotin. rewrite map_app. apply in_or_app. right.
    apply Hall. apply (Permutation_in _ Hk). now left.
Qed.

Lemma fl_round_executor (w : world) (a : arguments) (i : nat) (s s' : state) :
  fl_round w a i s = (Ok tt, s') ->
  known (fx s') (tasks_of w i 0 (jobs_of a (global_model s)))
  /\ forall t,
       In t (tasks_of w i 0 (jobs_of a (global_model s))) ->
       In (task_id t) (map task_id (finished (fx s'))).
Proof.
  unfold fl_round, jobs_of.
  unfold bind at 1. unfold to_json at 1.
  unfold bind at 1. unfold get_weights at 1.
  unfold bind at 1. unfold asarray_object at 1, np_asarray_object.
  fold (packs (global_model s)).
  destruct (packs (global_model s)); [|discriminate].
  unfold bind at 1. unfold set_fx at 1.
  unfold bind at 1. rewrite mapM_submit.
  cbn [global_model fx trace running finished new_executor List.length
       Nat.add app].
  set (js := map (make_job a (architecture (global_model s))
                           (weights (global_model s))) (endpoint_ids a)).
  set (T := tasks_of w i 0 js).
  replace (List.length (endpoint_ids a)) with (List.length js)
    by (unfold js; apply length_map).
  rewrite <- (tasks_of_ids w i js 0). fold T.
  set (s1 := {| global_model := global_model s;
                fx := {| running := T; finished := [] |};
                trace := trace s ++ map Submit js |}).
  assert (Hnd : NoDup (map task_id T))
    by (unfold T; rewrite tasks_of_ids; apply seq_NoDup).
  assert (Hk : known (fx s1) T)
    by (unfold known, s1; cbn; now rewrite app_nil_r).
  destruct (mapM_result w model_weights T Hnd T s1 (incl_refl T) Hk)
    as [ex1 [E1 K1]].
  unfold bind at 1.
  destruct (mapM (fun t => r <- result w t;; ret (model_weights r))
                 (map task_id T) s1) as [[mws|e] s2] eqn:M1;
    [|discriminate].
  destruct (mapM_result_finishes w model_weights _ _ _ _ M1) as [Hfin _].
  destruct (collect (map task_outcome T)) as [rs|e] eqn:C; [|discriminate].
  injection E1 as -> ->.
  unfold bind at 1.
  destruct (aggregate w a (map task_id T) (map model_weights rs)
                      (with_fx s1 ex1)) as [[avg|e] s3] eqn:Ag;
    [|discriminate].
  assert (Hs3 : known (fx s3) T
                /\ incl (finished ex1) (finished (fx s3))).
  { unfold aggregate in Ag.
    destruct (String.eqb (federated_mode a) "average").
    - unfold lift in Ag. injection Ag as _ <-. split; [exact K1|apply incl_refl].
    - destruct (String.eqb (federated_mode a) "weighted_average");
        [|discriminate].
      unfold bind at 1 in Ag.
      destruct (mapM_result w samples_count T Hnd T (with_fx s1 ex1)
                            (incl_refl T) K1) as [ex2 [E2 K2]].
      destruct (mapM (fun t => r <- result w t;; ret (samples_count r))
                     (map task_id T) (with_fx s1 ex1)) as [[cs|e] s4] eqn:M2;
        [|discriminate].
      destruct (mapM_result_finishes w samples_count _ _ _ _ M2) as [_ Hincl].
      destruct (collect (map task_outcome T)); [|discriminate].
      injection E2 as -> ->.
      unfold bind, lift in Ag.
      destruct (get_edge_weights _) as [ews|e]; [|discriminate].
      injection Ag as _ <-. split; [exact K2 | exact Hincl]. }
  destruct Hs3 as [K3 Hincl3].
  fold (finish_round a i avg). rewrite finish_round_spec.
  intros [= _ <-]. cbn [fx]. split; [exact K3|].
  intros t Ht. specialize (Hfin (task_id t) (in_map task_id _ _ Ht)).
  cbn [fx with_fx] in Hfin. apply in_map_iff in Hfin.
  destruct Hfin as [t' [Hid Ht']]. rewrite <- Hid.
  apply in_map. now apply Hincl3.
Qed.

(** X19.  The collection is a join on all the tasks of the round: when a
    round completes, whatever the order in which the tasks completed, no
    task of its executor is still running and the resolved tasks are
    exactly the tasks submitted in the round. *)
Theorem completed_round_leaves_no_running_task (w : world) (a : arguments)
    (i : nat) (s : state) :
  fst (fl_round w a i s) = Ok tt ->
  running (fx (snd (fl_round w a i s))) = []
  /\ Permutation (finished (fx (snd (fl_round w a i s))))
                 (tasks_of w i 0 (jobs_of a (global_model s))).
Proof.
  destruct (fl_round w a i s) as [[[]|e] s'] eqn:F; cbn [fst snd];
    [|discriminate].
  intros _. destruct (fl_round_executor w a i s s' F) as [Hk Hall].
  apply all_finished_none_running; [exact Hk| |exact Hall].
  rewrite tasks_of_ids. apply seq_NoDup.
Qed.

(** X19, witness: a round on the two endpoints, the second completing
    first. *)
Lemma completed_round_leaves_no_running_task_witness :
  running (fx (snd (fl_round two_endpoints average_call 0
                             (initial_state toy_model)))) = []
  /\ map task_id (finished (fx (snd (fl_round two_endpoints average_call 0
                                              (initial_state toy_model)))))
     = [1; 0]%nat.
Proof.
  destruct (completed_round_leaves_no_running_task two_endpoints average_call 0
              (initial_state toy_model)) as [H _].
  - vm_compute. reflexivity.
  - split; [exact H | reflexivity].
Defined.
